(** * The CloudShare worker: record lifecycle and subscription overlay

    A shallow embedding of [src/worker.ts]: the size parser [parseSize],
    the header builder [buildSubscriptionHeaders], the upstream merge of
    [handleSub], the read handlers [handleRaw] / [handleSub] and the upload
    handler [handleUpload], followed by the properties the specification
    states about them.

    Conventions of the embedding.
    - A JavaScript string is the list of its UTF-16 code units ([list Z]);
      [js "abc"] writes an ASCII literal.
    - A JavaScript number is an IEEE-754 double.  The numbers this program
      computes are dyadic rationals [m * 2^e], kept exactly ([dyadic]);
      rounding to 53 bits is written out where the source rounds
      ([roundToDouble]).
    - An exception is an explicit result ([Throw]); the store is threaded
      through the handlers and survives a throw, as KV writes are not
      rolled back.
    - The KV namespace METADATA is read without its read-through cache
      (cacheTtl): a get sees the last put or delete.
    - The built-in functions are those of the standards (ECMAScript,
      WHATWG URL and Fetch); where these leave the result to the engine,
      as on the text of a date, the engine is V8, which the Workers
      runtime is built on. *)

From Stdlib Require Import ZArith List Bool Lia Ascii String.
From stdpp Require Import base option list gmap.

Local Open Scope Z_scope.

(** ** Strings as UTF-16 code units *)

Abbreviation jsstring := (list Z) (only parsing).

Definition js (s : string) : jsstring :=
  map (fun a => Z.of_N (N_of_ascii a)) (list_ascii_of_string s).
Arguments js s%_string.

Definition str_eqb (a b : jsstring) : bool := bool_decide (a = b).

(** WhiteSpace and LineTerminator code units: what [String.prototype.trim]
    strips and what the regular-expression class [\s] matches. *)
Definition isWhiteSpace (c : Z) : bool :=
  ((9 <=? c) && (c <=? 13)) || (c =? 32) || (c =? 160) || (c =? 5760)
  || ((8192 <=? c) && (c <=? 8202)) || (c =? 8232) || (c =? 8233)
  || (c =? 8239) || (c =? 8287) || (c =? 12288) || (c =? 65279).

Fixpoint dropWhile (p : Z -> bool) (s : jsstring) : jsstring :=
  match s with
  | [] => []
  | c :: s' => if p c then dropWhile p s' else s
  end.

Fixpoint takeWhile (p : Z -> bool) (s : jsstring) : jsstring :=
  match s with
  | [] => []
  | c :: s' => if p c then c :: takeWhile p s' else []
  end.

(** [s.trim()] *)
Definition trim (s : jsstring) : jsstring :=
  rev (dropWhile isWhiteSpace (rev (dropWhile isWhiteSpace s))).

(** [s.startsWith(p)] *)
Fixpoint startsWith (p s : jsstring) : bool :=
  match p, s with
  | [], _ => true
  | _ :: _, [] => false
  | a :: p', b :: s' => (a =? b) && startsWith p' s'
  end.

(** [s.includes(p)] *)
Fixpoint includes (p s : jsstring) : bool :=
  startsWith p s || match s with [] => false | _ :: s' => includes p s' end.

(** [s.split(sep)] for a non-empty separator: [cur] is the piece being
    read (reversed), [skip] counts the code units of a separator that has
    just been recognised and is still to be passed over. *)
Fixpoint split_go (sep : jsstring) (skip : nat) (cur s : jsstring)
  : list jsstring :=
  match s with
  | [] => [rev cur]
  | c :: s' =>
      match skip with
      | S k => split_go sep k cur s'
      | O =>
          if startsWith sep s
          then rev cur :: split_go sep (length sep - 1) [] s'
          else split_go sep 0 (c :: cur) s'
      end
  end.

Definition split (sep s : jsstring) : list jsstring :=
  match sep with
  | [] => map (fun c => [c]) s
  | _ => split_go sep 0 [] s
  end.

(** [parts.join(sep)] *)
Fixpoint join (sep : jsstring) (parts : list jsstring) : jsstring :=
  match parts with
  | [] => []
  | [p] => p
  | p :: rest => p ++ sep ++ join sep rest
  end.

Definition isDigit (c : Z) : bool := (48 <=? c) && (c <=? 57).

(** ASCII case folding, as the [i] flag and [toUpperCase] act on the
    letters of a unit token. *)
Definition upperUnit (c : Z) : Z :=
  if (97 <=? c) && (c <=? 122) then c - 32 else c.

Definition toUpperCase (s : jsstring) : jsstring := map upperUnit s.

(** ** Numbers *)

(** A non-negative double before [Math.floor]: NaN, +Infinity, or the
    dyadic rational [m * 2^e]. *)
Inductive dyadic : Type :=
  | DNaN
  | DInf
  | DFin (m e : Z).

(** A number that is NaN, infinite or an integer: what [Math.floor] and
    [parseInt] return. *)
Inductive number : Type :=
  | NaN
  | Infinity
  | NegInfinity
  | Int (z : Z).

#[global] Instance number_eq_dec : EqDecision number.
Proof. solve_decision. Defined.

(** [p / (q * 2^e)], rounded down. *)
Definition scaledQuotient (p q e : Z) : Z :=
  if 0 <=? e then p / (q * 2 ^ e) else (p * 2 ^ (- e)) / q.

(** The exponent of the unit in the last place of the double nearest to
    [p / q]: the one at which the quotient has 53 bits, and not below that
    of the subnormals. *)
Definition ulpExponent (p q : Z) : Z :=
  let e1 := Z.log2 p - Z.log2 q - 52 in
  Z.max (if scaledQuotient p q e1 <? 2 ^ 52 then e1 - 1 else e1) (-1074).

(** [p / (q * 2^e)], rounded to the nearest integer, ties to even. *)
Definition roundAt (p q e : Z) : Z :=
  let num := if 0 <=? e then p else p * 2 ^ (- e) in
  let den := if 0 <=? e then q * 2 ^ e else q in
  let m0 := num / den in
  let r := num mod den in
  if (den <? 2 * r) || ((den =? 2 * r) && Z.odd m0) then m0 + 1 else m0.

(** The double nearest to the rational [p / q], [q > 0]: ties go to even,
    and a value past the largest double is +Infinity. *)
Definition roundToDouble (p q : Z) : dyadic :=
  if p <=? 0 then DFin 0 0 else
  let e := ulpExponent p q in
  let m := roundAt p q e in
  if 2 ^ 1024 <=? m * 2 ^ e then DInf else DFin m e.

(** The decimal value of a run of digits. *)
Definition digitsValue (ds : jsstring) : Z :=
  fold_left (fun acc c => 10 * acc + (c - 48)) ds 0.

(** [parseFloat] on the first capture of the size pattern, a non-empty run
    of digits and dots: the longest prefix that is a decimal literal
    (digits, optionally a dot and digits; or a dot and digits) is read, and
    a run with no such prefix is NaN. *)
Definition parseFloat (t : jsstring) : dyadic :=
  let ip := takeWhile isDigit t in
  let rest := dropWhile isDigit t in
  let fp := match rest with
            | 46 :: r => takeWhile isDigit r
            | _ => []
            end in
  match ip, fp with
  | [], [] => DNaN
  | _, _ => roundToDouble (digitsValue (ip ++ fp)) (10 ^ Z.of_nat (length fp))
  end.

(** [num * 2^k] for a unit multiplier [2^k]: exact, unless it overflows. *)
Definition mulPow2 (x : dyadic) (k : Z) : dyadic :=
  match x with
  | DFin m e => if 2 ^ 1024 <=? m * 2 ^ (e + k) then DInf else DFin m (e + k)
  | _ => x
  end.

Definition Math_floor (x : dyadic) : number :=
  match x with
  | DNaN => NaN
  | DInf => Infinity
  | DFin m e => Int (if 0 <=? e then m * 2 ^ e else m / 2 ^ (- e))
  end.

(** ** The size parser *)

Definition isDigitOrDot (c : Z) : bool := isDigit c || (c =? 46).

Definition unitTokens : list jsstring :=
  [js "GB"; js "MB"; js "TB"; js "KB"; js "B"].

Definition isUnitToken (u : jsstring) : bool :=
  existsb (str_eqb (toUpperCase u)) unitTokens.

(** [s.match(/^([\d.]+)\s*(GB|MB|TB|KB|B)?$/i)]: the two captures, or [None]
    when the pattern does not match.  No letter or white space is a digit
    or a dot and no letter is white space, so the greedy reading below is
    the only way the pattern can match. *)
Definition matchSize (s : jsstring) : option (jsstring * option jsstring) :=
  let num := takeWhile isDigitOrDot s in
  let rest := dropWhile isWhiteSpace (dropWhile isDigitOrDot s) in
  match num, rest with
  | [], _ => None
  | _, [] => Some (num, None)
  | _, _ => if isUnitToken rest then Some (num, Some rest) else None
  end.

(** The table [units], as the exponent of each power of two. *)
Definition units : list (jsstring * Z) :=
  [(js "B", 0); (js "KB", 10); (js "MB", 20); (js "GB", 30); (js "TB", 40)].

Fixpoint assoc {A} (k : jsstring) (l : list (jsstring * A)) : option A :=
  match l with
  | [] => None
  | (k', v) :: l' => if str_eqb k k' then Some v else assoc k l'
  end.

Definition parseSize (s : jsstring) : number :=
  match s with
  | [] => Int 0
  | _ =>
      match matchSize s with
      | None => Int 0
      | Some (g1, g2) =>
          let num := parseFloat g1 in
          let unit := toUpperCase (default (js "B") g2) in
          Math_floor (mulPow2 num (default 0 (assoc unit units)))
      end
  end.

(** ** Printing a number: [Number::toString] on NaN, +Infinity and the
    integers that are doubles *)

Fixpoint decimalDigits_go (fuel : nat) (n : Z) (acc : jsstring) : jsstring :=
  match fuel with
  | O => acc
  | S f =>
      let acc' := (48 + n mod 10) :: acc in
      if n <? 10 then acc' else decimalDigits_go f (n / 10) acc'
  end.

(** The decimal digits of [n >= 0]; [n] has at most [log2 n + 1] of them. *)
Definition decimalDigits (n : Z) : jsstring :=
  decimalDigits_go (S (Z.to_nat (Z.log2 n))) n [].

(** The integer with the fewest significant decimal digits that rounds to
    the double [z >= 2^53]; among those of that length the one nearest to
    [z].  All comparisons are on doubled distances, the half gaps to the
    two neighbouring doubles being [2^e / 2] above and, below a power of
    two, [2^e / 4]. *)
Definition shortestDecimal (z : Z) : Z :=
  let e := Z.log2 z - 52 in
  let m := z / 2 ^ e in
  let up2 := 2 ^ e in
  let lo2 := if m =? 2 ^ 52 then 2 ^ (e - 1) else 2 ^ e in
  let inside c :=
    if c <? z
    then (2 * (z - c) <? lo2) || ((2 * (z - c) =? lo2) && Z.even m)
    else (2 * (c - z) <? up2) || ((2 * (c - z) =? up2) && Z.even m) in
  let nd := Z.of_nat (length (decimalDigits z)) in
  let candidate (k : Z) : option Z :=
    let p := nd - k in
    if p <=? 0 then Some z else
    let lo := (z / 10 ^ p) * 10 ^ p in
    let hi := lo + 10 ^ p in
    match inside lo, inside hi with
    | true, true =>
        Some (if (z - lo <? hi - z)
                 || ((z - lo =? hi - z) && Z.even (z / 10 ^ p))
              then lo else hi)
    | true, false => Some lo
    | false, true => Some hi
    | false, false => None
    end in
  default z (list_find (fun o : option Z => is_Some o)
                       (map candidate (map Z.of_nat (seq 1 17)))
             ≫= snd).

Fixpoint stripZeros (rds : jsstring) : jsstring :=
  match rds with
  | c :: r => if c =? 48 then stripZeros r else rds
  | [] => []
  end.

(** A non-negative integer that is a double, printed: its digits when it is
    below [10^21], the exponent form from there on. *)
Definition natToString (z : Z) : jsstring :=
  let c := if z <? 2 ^ 53 then z else shortestDecimal z in
  let ds := decimalDigits c in
  if c <? 10 ^ 21 then ds else
  let ex := js "e+" ++ decimalDigits (Z.of_nat (length ds) - 1) in
  match rev (stripZeros (rev ds)) with
  | [d] => d :: ex
  | d :: more => d :: 46 :: more ++ ex
  | [] => ds
  end.

Definition numToString (x : number) : jsstring :=
  match x with
  | NaN => js "NaN"
  | Infinity => js "Infinity"
  | NegInfinity => js "-Infinity"
  | Int z => if z <? 0 then 45 :: natToString (- z) else natToString z
  end.

(** ** Dates *)

(** [n] digits read as a number, and what follows them. *)
Definition readDigits (n : nat) (s : jsstring) : option (Z * jsstring) :=
  let ds := take n s in
  if bool_decide (length ds = n) && forallb isDigit ds
  then Some (digitsValue ds, drop n s) else None.

Definition expect (c : Z) (s : jsstring) : option jsstring :=
  match s with
  | c' :: r => if c' =? c then Some r else None
  | [] => None
  end.

(** Days from 1970-01-01 to the civil date [y]-[m]-[d]. *)
Definition MakeDay (y m d : Z) : Z :=
  let y' := if m <=? 2 then y - 1 else y in
  let era := y' / 400 in
  let yoe := y' - era * 400 in
  let doy := (153 * (if 2 <? m then m - 3 else m + 9) + 2) / 5 + d - 1 in
  era * 146097 + (yoe * 365 + yoe / 4 - yoe / 100 + doy) - 719468.

(** The offset part of a date-time string, in minutes east of UTC. *)
Definition readOffset (s : jsstring) : option Z :=
  match s with
  | [90] => Some 0
  | sign :: r =>
      '(oh, r) ← readDigits 2 r;
      r ← expect 58 r;
      '(om, r) ← readDigits 2 r;
      if bool_decide (r = []) && (oh <=? 23) && (om <=? 59)
      then (if sign =? 43 then Some (oh * 60 + om)
            else if sign =? 45 then Some (- (oh * 60 + om)) else None)
      else None
  | [] => None
  end.

(** [HH:mm:ss(.sss)?(Z|+HH:mm|-HH:mm)]: the time of day in milliseconds
    and the offset in minutes east of UTC. *)
Definition isoTime (s : jsstring) : option (Z * Z) :=
  '(h, s) ← readDigits 2 s;
  s ← expect 58 s;
  '(mi, s) ← readDigits 2 s;
  s ← expect 58 s;
  '(sec, s) ← readDigits 2 s;
  '(ms, s) ← match s with
             | 46 :: r => readDigits 3 r
             | _ => Some (0, s)
             end;
  off ← readOffset s;
  if ((h <=? 23) && (mi <=? 59) && (sec <=? 59))
     || ((h =? 24) && (mi =? 0) && (sec =? 0) && (ms =? 0))
  then Some (h * 3600000 + mi * 60000 + sec * 1000 + ms, off)
  else None.

(** [new Date(s).getTime()] on an instance
    [YYYY-MM-DDTHH:mm:ss(.sss)?(Z|+HH:mm|-HH:mm)] of the ECMAScript
    date-time string format, in milliseconds since the epoch.  The reader
    is that of V8, the engine the worker runs on: it takes a month from 01
    to 12 and a day from 01 to 31, and a day past the end of its month runs
    on into the next one (2025-02-30 is read as 2025-03-02). *)
Definition isoDateTime (s : jsstring) : option Z :=
  '(y, s) ← readDigits 4 s;
  s ← expect 45 s;
  '(mo, s) ← readDigits 2 s;
  s ← expect 45 s;
  '(d, s) ← readDigits 2 s;
  s ← expect 84 s;
  '(time, off) ← isoTime s;
  if (1 <=? mo) && (mo <=? 12) && (1 <=? d) && (d <=? 31)
  then Some (MakeDay y mo d * 86400000 + time - off * 60000)
  else None.

(** One or two digits, the greedy [\d{1,2}], with what follows them. *)
Definition readDigits12 (s : jsstring) : option (jsstring * jsstring) :=
  match s with
  | a :: b :: r =>
      if isDigit a && isDigit b then Some ([a; b], r)
      else if isDigit a then Some ([a], b :: r) else None
  | [a] => if isDigit a then Some ([a], []) else None
  | [] => None
  end.

(** A month or a day as V8's reader of date-time strings takes it: two
    digits, within [lo] and [hi]. *)
Definition fixedField (ds : jsstring) (lo hi : Z) : bool :=
  bool_decide (length ds = 2%nat) && (lo <=? digitsValue ds)
  && (digitsValue ds <=? hi).

(** A string that opens like a date-time string and is none: four digits,
    a hyphen, one or two digits, a hyphen, one or two digits and the letter
    [T], where the month or the day has one digit or is out of range.  V8's
    reader of date-time strings stops at that number and hands the rest to
    its legacy parser, which has the year by then, takes the numbers up to
    the [T] as parts of the date and admits no word after a number except a
    month, AM, PM or a time zone: the word that begins with [T] makes the
    date invalid, whatever follows it. *)
Definition legacyRejects (s : jsstring) : bool :=
  match
    '(_, s) ← readDigits 4 s;
    s ← expect 45 s;
    '(mo, s) ← readDigits12 s;
    s ← expect 45 s;
    '(d, s) ← readDigits12 s;
    _ ← expect 84 s;
    Some (mo, d)
  with
  | Some (mo, d) => negb (fixedField mo 1 12 && fixedField d 1 31)
  | None => false
  end.

(** [new Date(s).getTime()], [None] standing for NaN: a date-time string
    is read by [isoDateTime], a string [legacyRejects] is an invalid date,
    and every other string (local-time forms, free-form dates) is read by
    [host], the rest of the engine's parser. *)
Definition dateParse (host : jsstring -> option Z) (s : jsstring) : option Z :=
  match isoDateTime s with
  | Some t => Some t
  | None => if legacyRejects s then None else host s
  end.

(** One or two digits, as the greedy [\d{1,2}] reads them before a
    hyphen or the end of the string. *)
Definition digits12 (s : jsstring) : option jsstring :=
  match s with
  | a :: b :: r =>
      if isDigit a && isDigit b then Some r
      else if isDigit a then Some (b :: r) else None
  | [a] => if isDigit a then Some [] else None
  | [] => None
  end.

(** [/^\d{4}-\d{1,2}-\d{1,2}$/.test(s)] *)
Definition restYMD (s : jsstring) : option jsstring :=
  '(_, s) ← readDigits 4 s;
  s ← expect 45 s;
  s ← digits12 s;
  s ← expect 45 s;
  digits12 s.

Definition testYMD (s : jsstring) : bool :=
  bool_decide (restYMD s = Some []).

(** ** Exceptions *)

Inductive exn : Type :=
  | URIError
  | InvalidCharacterError
  | RangeError
  | FetchError (msg : jsstring).

Inductive result (A : Type) : Type :=
  | Ok (a : A)
  | Throw (e : exn).
Arguments Ok {A} a.
Arguments Throw {A} e.

Definition bind {A B} (r : result A) (k : A -> result B) : result B :=
  match r with
  | Ok a => k a
  | Throw e => Throw e
  end.

Notation "'try!' x <- r ; k" := (bind r (fun x => k))
  (at level 10, x name, r at level 100, k at level 200).

(** [(e as Error).message], with the engine's texts. *)
Definition message (e : exn) : jsstring :=
  match e with
  | URIError => js "URI malformed"
  | InvalidCharacterError => js "Invalid character"
  | RangeError => js "Invalid time value"
  | FetchError msg => msg
  end.

(** ** Percent-encoding *)

Definition isAlnum (c : Z) : bool :=
  isDigit c || ((65 <=? c) && (c <=? 90)) || ((97 <=? c) && (c <=? 122)).

(** The characters [encodeURIComponent] leaves alone. *)
Definition isUnreserved (c : Z) : bool :=
  isAlnum c || bool_decide (c ∈ js "-_.!~*'()").

Definition hexDigit (n : Z) : Z := if n <? 10 then 48 + n else 55 + n.

Definition percent (b : Z) : jsstring :=
  [37; hexDigit (b / 16); hexDigit (b mod 16)].

Definition utf8 (cp : Z) : list Z :=
  if cp <? 128 then [cp]
  else if cp <? 2048 then [192 + cp / 64; 128 + cp mod 64]
  else if cp <? 65536
  then [224 + cp / 4096; 128 + (cp / 64) mod 64; 128 + cp mod 64]
  else [240 + cp / 262144; 128 + (cp / 4096) mod 64;
        128 + (cp / 64) mod 64; 128 + cp mod 64].

Definition isHighSurrogate (c : Z) : bool := (55296 <=? c) && (c <=? 56319).
Definition isLowSurrogate (c : Z) : bool := (56320 <=? c) && (c <=? 57343).

Definition encodeCodePoint (cp : Z) : jsstring := concat (map percent (utf8 cp)).

(** [encodeURIComponent(s)]: a surrogate that is not half of a pair raises
    URIError. *)
Fixpoint encodeURIComponent (s : jsstring) : result jsstring :=
  match s with
  | [] => Ok []
  | c :: r =>
      if isUnreserved c
      then try! t <- encodeURIComponent r; Ok (c :: t)
      else if isLowSurrogate c then Throw URIError
      else if isHighSurrogate c then
        match r with
        | c2 :: r2 =>
            if isLowSurrogate c2
            then try! t <- encodeURIComponent r2;
                 Ok (encodeCodePoint
                       ((c - 55296) * 1024 + (c2 - 56320) + 65536) ++ t)
            else Throw URIError
        | [] => Throw URIError
        end
      else try! t <- encodeURIComponent r; Ok (encodeCodePoint c ++ t)
  end.

(** [.replace(/['()]/g, escape)]: [escape] writes each of the three as a
    percent and two hexadecimal digits. *)
Definition escapeQuotes (s : jsstring) : jsstring :=
  concat (map (fun c => if (c =? 39) || (c =? 40) || (c =? 41)
                        then percent c else [c]) s).

(** [.replace(/\*/g, '%2A')] *)
Definition escapeStars (s : jsstring) : jsstring :=
  concat (map (fun c => if c =? 42 then js "%2A" else [c]) s).

Definition encodeFilename (filename : jsstring) : result jsstring :=
  try! enc <- encodeURIComponent filename;
  Ok (js "attachment; filename*=UTF-8''" ++ escapeStars (escapeQuotes enc)).

(** ** Base64 *)

Definition b64char (n : Z) : Z :=
  if n <? 26 then 65 + n
  else if n <? 52 then 71 + n
  else if n <? 62 then n - 4
  else if n =? 62 then 43 else 47.

(** [btoa] on a string of bytes. *)
Fixpoint btoa (bs : list Z) : jsstring :=
  match bs with
  | [] => []
  | [a] => [b64char (a / 4); b64char (a mod 4 * 16); 61; 61]
  | [a; b] =>
      [b64char (a / 4); b64char (a mod 4 * 16 + b / 16);
       b64char (b mod 16 * 4); 61]
  | a :: b :: c :: r =>
      [b64char (a / 4); b64char (a mod 4 * 16 + b / 16);
       b64char (b mod 16 * 4 + c / 64); b64char (c mod 64)] ++ btoa r
  end.

Definition b64val (c : Z) : option Z :=
  if (65 <=? c) && (c <=? 90) then Some (c - 65)
  else if (97 <=? c) && (c <=? 122) then Some (c - 71)
  else if isDigit c then Some (c + 4)
  else if c =? 43 then Some 62
  else if c =? 47 then Some 63
  else None.

Fixpoint atob_go (vs : list Z) : list Z :=
  match vs with
  | a :: b :: c :: d :: r =>
      [a * 4 + b / 16; b mod 16 * 16 + c / 4; c mod 4 * 64 + d] ++ atob_go r
  | [a; b; c] => [a * 4 + b / 16; b mod 16 * 16 + c / 4]
  | [a; b] => [a * 4 + b / 16]
  | _ => []
  end.

Definition isAsciiWhitespace (c : Z) : bool :=
  (c =? 9) || (c =? 10) || (c =? 12) || (c =? 13) || (c =? 32).

(** Up to two trailing [=] of a string whose length is a multiple of 4. *)
Definition stripPadding (s : jsstring) : jsstring :=
  if bool_decide (Z.of_nat (length s) mod 4 = 0) then
    match rev s with
    | 61 :: 61 :: r => rev r
    | 61 :: r => rev r
    | _ => s
    end
  else s.

(** [atob]: the forgiving base64 decoding; it raises on a length of 1
    modulo 4 and on any character outside the alphabet. *)
Definition atob (s : jsstring) : result (list Z) :=
  let s := stripPadding (filter (fun c => negb (isAsciiWhitespace c)) s) in
  if bool_decide (Z.of_nat (length s) mod 4 = 1) then Throw InvalidCharacterError
  else match mapM b64val s with
       | Some vs => Ok (atob_go vs)
       | None => Throw InvalidCharacterError
       end.

(** ** Objects with string keys

    A JavaScript object whose properties all hold strings, as the list of
    its properties in order of creation. *)

Abbreviation jsobj := (list (list Z * list Z)) (only parsing).

(** The array index a property key denotes, if any: the canonical decimal
    form of an integer from 0 to 2^32 - 2. *)
Definition arrayIndex (k : jsstring) : option Z :=
  match k with
  | [] => None
  | [48] => Some 0
  | c :: _ =>
      if negb (c =? 48) && forallb isDigit k && (Z.of_nat (length k) <=? 10)
         && (digitsValue k <=? 4294967294)
      then Some (digitsValue k) else None
  end.

Definition obj_get (k : jsstring) (o : jsobj) : option jsstring := assoc k o.

Fixpoint obj_update (k v : jsstring) (o : jsobj) : jsobj :=
  match o with
  | [] => []
  | (k', v') :: o' =>
      if str_eqb k k' then (k', v) :: o' else (k', v') :: obj_update k v o'
  end.

(** [o[k] = v] on an ordinary object: an existing property keeps its place,
    a new one goes last, and [__proto__] is the inherited setter, which
    ignores a string. *)
Definition obj_set (k v : jsstring) (o : jsobj) : jsobj :=
  if str_eqb k (js "__proto__") then o
  else match assoc k o with
       | Some _ => obj_update k v o
       | None => o ++ [(k, v)]
       end.

Fixpoint insertByIndex (x : Z * (list Z * list Z)) (l : list (Z * (list Z * list Z)))
  : list (Z * (list Z * list Z)) :=
  match l with
  | [] => [x]
  | y :: l' => if x.1 <? y.1 then x :: l else y :: insertByIndex x l'
  end.

(** [Object.entries(o)]: the array indices in ascending order, then the
    other keys in order of creation. *)
Definition obj_entries (o : jsobj) : jsobj :=
  let indexed := omap (fun kv => (fun i => (i, kv)) <$> arrayIndex kv.1) o in
  map snd (foldr insertByIndex [] indexed)
  ++ filter (fun kv => arrayIndex kv.1 = None) o.

(** [{...a, ...b}]: the properties of [b] defined on top of [a]. *)
Definition obj_spread (a b : jsobj) : jsobj :=
  fold_left (fun o kv => match assoc kv.1 o with
                         | Some _ => obj_update kv.1 kv.2 o
                         | None => o ++ [kv]
                         end) (obj_entries b) a.

(** ** Records, responses and the store *)

Module SubInfo.
(** The overlay [{upload?, download?, total?, expire?, name?}]; [None] is
    an absent (or null) field. *)
Record t : Type := mk {
  upload : option (list Z);
  download : option (list Z);
  total : option (list Z);
  expire : option (list Z);
  name : option (list Z)
}.
End SubInfo.

Module Meta.
(** The metadata object of [handleUpload], as [JSON.parse] gives it back.
    Instants ([expiresAt], [createdAt]) are the milliseconds since the
    epoch that their ISO strings denote. *)
Record t : Type := mk {
  id : list Z;
  filename : list Z;
  contentType : list Z;
  size : Z;
  type : list Z;
  subscriptionInfo : option SubInfo.t;
  originalUrl : option (list Z);
  burnAfterRead : bool;
  expiresAt : option Z;
  maxDownloads : option Z;
  downloadCount : Z;
  createdAt : Z
}.

(** [meta.downloadCount = n] *)
Definition setDownloadCount (n : Z) (m : t) : t :=
  mk (id m) (filename m) (contentType m) (size m) (type m)
     (subscriptionInfo m) (originalUrl m) (burnAfterRead m) (expiresAt m)
     (maxDownloads m) n (createdAt m).
End Meta.

(** The namespace METADATA.  Its keys are ["meta:" + id] and
    ["content:" + id]; the two prefixes never meet, so the namespace is the
    pair of maps it is used as, each keyed by [id]. *)
Record KV : Type := mkKV {
  metas : gmap (list Z) Meta.t;
  contents : gmap (list Z) (list Z)
}.

(** The two kinds of key, as the handlers write them. *)
Definition metaKey (id : jsstring) : jsstring := js "meta:" ++ id.
Definition contentKey (id : jsstring) : jsstring := js "content:" ++ id.

Definition getMeta (env : KV) (id : jsstring) : option Meta.t := metas env !! id.
Definition getContent (env : KV) (id : jsstring) : option jsstring :=
  contents env !! id.
Definition putMeta (id : jsstring) (m : Meta.t) (env : KV) : KV :=
  mkKV (<[id := m]> (metas env)) (contents env).
Definition putContent (id content : jsstring) (env : KV) : KV :=
  mkKV (metas env) (<[id := content]> (contents env)).
Definition deleteMeta (id : jsstring) (env : KV) : KV :=
  mkKV (delete id (metas env)) (contents env).
Definition deleteContent (id : jsstring) (env : KV) : KV :=
  mkKV (metas env) (delete id (contents env)).

Inductive body : Type :=
  | BText (s : list Z)
  | BBytes (bytes : list Z)
  | BJson (data : list (list Z * list Z)).

(** [new Response(body, {status, headers})]. *)
Record Response : Type := mkResponse {
  status : Z;
  payload : body;
  headers : list (list Z * list Z)
}.

Definition corsHeaders : jsobj :=
  [(js "Access-Control-Allow-Origin", js "*");
   (js "Access-Control-Allow-Headers", js "Content-Type, Authorization");
   (js "Access-Control-Allow-Methods", js "GET, POST, OPTIONS, DELETE")].

(** [json(data, status)] *)
Definition json (data : jsobj) (st : Z) : Response :=
  mkResponse st (BJson data)
             (obj_spread corsHeaders [(js "Content-Type", js "application/json")]).

(** [new Response(text, { status })] *)
Definition plain (text : jsstring) (st : Z) : Response :=
  mkResponse st (BText text) [].

(** ** The header builder *)

(** [x && x.trim() !== ''] *)
Definition filled (x : option jsstring) : bool :=
  match x with
  | Some s => negb (str_eqb s []) && negb (str_eqb (trim s) [])
  | None => false
  end.

(** [Object.keys(subInfo).length], over the five known fields. *)
Definition keyCount (i : SubInfo.t) : Z :=
  Z.of_nat (length (filter is_Some
    [SubInfo.upload i; SubInfo.download i; SubInfo.total i;
     SubInfo.expire i; SubInfo.name i])).

(** The part pushed for one of upload, download, total. *)
Definition sizePart (field : jsstring) (x : option jsstring) : list jsstring :=
  if filled x
  then [field ++ js "=" ++ numToString (parseSize (default [] x))]
  else [].

(** The part pushed for expire. *)
Definition expirePart (host : jsstring -> option Z) (x : option jsstring)
  : list jsstring :=
  if filled x then
    let expireStr := trim (default [] x) in
    let expireDate :=
      if testYMD expireStr
      then dateParse host (expireStr ++ js "T23:59:59+08:00")
      else dateParse host expireStr in
    match expireDate with
    | Some t => [js "expire=" ++ numToString (Int (t / 1000))]
    | None => []
    end
  else [].

(** The array [infoParts] once the four fields have been looked at. *)
Definition infoParts (host : jsstring -> option Z) (i : SubInfo.t)
  : list jsstring :=
  sizePart (js "upload") (SubInfo.upload i)
  ++ sizePart (js "download") (SubInfo.download i)
  ++ sizePart (js "total") (SubInfo.total i)
  ++ expirePart host (SubInfo.expire i).

Definition buildSubscriptionHeaders (host : jsstring -> option Z)
    (subInfo : option SubInfo.t) : result jsobj :=
  let headers : jsobj := [] in
  match subInfo with
  | None => Ok headers
  | Some i =>
      let hasCustomInfo :=
        (0 <? keyCount i)
        && (filled (SubInfo.upload i) || filled (SubInfo.download i)
            || filled (SubInfo.total i) || filled (SubInfo.expire i)) in
      let headers :=
        if hasCustomInfo then
          let parts := infoParts host i in
          if 0 <? Z.of_nat (length parts)
          then obj_set (js "subscription-userinfo") (join (js "; ") parts) headers
          else headers
        else headers in
      if filled (SubInfo.name i) then
        try! encodedName <- encodeURIComponent (trim (default [] (SubInfo.name i)));
        Ok (obj_set (js "content-disposition")
                    (js "attachment; filename*=UTF-8''" ++ encodedName) headers)
      else Ok headers
  end.

(** ** The read handlers *)

(** Truthiness of a string that may be null, and [a || b] on numbers. *)
Definition truthy (x : option jsstring) : bool :=
  match x with
  | Some (_ :: _) => true
  | _ => false
  end.

Definition orNum (a b : Z) : Z := if a =? 0 then b else a.

(** [meta.expiresAt && new Date(meta.expiresAt) < new Date()] *)
Definition isExpired (meta : Meta.t) (now : Z) : bool :=
  match Meta.expiresAt meta with
  | Some t => t <? now
  | None => false
  end.

(** [meta.maxDownloads && meta.downloadCount >= meta.maxDownloads] *)
Definition limitReached (meta : Meta.t) : bool :=
  match Meta.maxDownloads meta with
  | Some n => negb (n =? 0) && (n <=? Meta.downloadCount meta)
  | None => false
  end.

(** The count update and the burn-or-persist step shared by both routes. *)
Definition countDownload (meta : Meta.t) : Meta.t :=
  Meta.setDownloadCount (orNum (Meta.downloadCount meta) 0 + 1) meta.

Definition burnOrPersist (id : jsstring) (meta : Meta.t) (env : KV) : KV :=
  if Meta.burnAfterRead meta
  then deleteContent id (deleteMeta id env)
  else putMeta id meta env.

(** The [Content-Disposition] entry spread into the headers when the
    overlay set none. *)
Definition fallbackDisposition (subHeaders : jsobj) (filename : jsstring)
  : result jsobj :=
  if truthy (obj_get (js "content-disposition") subHeaders) then Ok []
  else try! v <- encodeFilename filename; Ok [(js "Content-Disposition", v)].

(** The response of [handleRaw] once the record has been counted.  The
    header values are written as they are: the check the constructor of
    the response makes of them is [headersAccepted], stated of a response
    where a request can choose a value. *)
Definition deliverRaw (host : jsstring -> option Z) (meta : Meta.t)
    (content : jsstring) : result Response :=
  try! subHeaders <- buildSubscriptionHeaders host (Meta.subscriptionInfo meta);
  if startsWith (js "text/") (Meta.contentType meta) then
    try! cd <- fallbackDisposition subHeaders (Meta.filename meta);
    Ok (mkResponse 200 (BText content)
          (obj_spread
             (obj_spread
                (obj_spread corsHeaders
                   [(js "Content-Type",
                     Meta.contentType meta ++ js "; charset=utf-8")])
                subHeaders) cd))
  else
    try! bin <- atob content;
    try! cd <- fallbackDisposition subHeaders (Meta.filename meta);
    Ok (mkResponse 200 (BBytes bin)
          (obj_spread
             (obj_spread
                (obj_spread corsHeaders
                   [(js "Content-Type", Meta.contentType meta)])
                subHeaders) cd)).

Definition handleRaw (host : jsstring -> option Z) (id : jsstring) (now : Z)
    (env : KV) : result Response * KV :=
  match getMeta env id with
  | None => (Ok (plain (js "Not found") 404), env)
  | Some meta =>
      if isExpired meta now then
        (Ok (plain (js "File expired") 410),
         deleteContent id (deleteMeta id env))
      else if limitReached meta then
        (Ok (plain (js "Download limit reached") 410), env)
      else
        match getContent env id with
        | None | Some [] => (Ok (plain (js "No content") 404), env)
        | Some content =>
            let meta := countDownload meta in
            let env := burnOrPersist id meta env in
            (deliverRaw host meta content, env)
        end
  end.

(** What [fetch] of the upstream URL comes to: a rejection, or a response
    with the three headers the handler reads. *)
Record Upstream : Type := mkUpstream {
  ok : bool;
  up_status : Z;
  statusText : list Z;
  text : result (list Z);
  userinfo : option (list Z);
  updateInterval : option (list Z);
  disposition : option (list Z)
}.

(** [parseUserInfo(header)] *)
Definition parseUserInfo (header : option jsstring) : jsobj :=
  if truthy header then
    fold_left
      (fun result part =>
         match split (js "=") (trim part) with
         | key :: value :: _ =>
             if truthy (Some key) && truthy (Some value)
             then obj_set (trim key) (trim value) result
             else result
         | _ => result
         end)
      (split (js ";") (default [] header)) []
  else [].

(** The loop over [Object.entries(originalInfo)]: the upstream fields the
    custom parts do not name are pushed after them. *)
Definition fillGaps (customKeys : list jsstring) (customParts : list jsstring)
    (originalInfo : jsobj) : list jsstring :=
  fold_left
    (fun parts kv =>
       if bool_decide (kv.1 ∈ customKeys) then parts
       else parts ++ [kv.1 ++ js "=" ++ kv.2])
    (obj_entries originalInfo) customParts.

(** The [subscription-userinfo] step of the merge. *)
Definition mergeUserInfo (subHeaders : jsobj) (originalUserInfo : option jsstring)
    (responseHeaders : jsobj) : jsobj :=
  let originalInfo := parseUserInfo originalUserInfo in
  if truthy (obj_get (js "subscription-userinfo") subHeaders) then
    let customParts :=
      split (js "; ") (default [] (obj_get (js "subscription-userinfo") subHeaders)) in
    let customKeys := map (fun p => default [] (head (split (js "=") p))) customParts in
    obj_set (js "subscription-userinfo")
            (join (js "; ") (fillGaps customKeys customParts originalInfo))
            responseHeaders
  else if truthy originalUserInfo
  then obj_set (js "subscription-userinfo") (default [] originalUserInfo)
               responseHeaders
  else responseHeaders.

(** The body of the [try] block of [handleSub]. *)
Definition proxySubscription (host : jsstring -> option Z) (meta : Meta.t)
    (fetched : result Upstream) : result Response :=
  try! response <- fetched;
  if negb (ok response) then
    Ok (plain (js "Failed to fetch subscription: "
               ++ numToString (Int (up_status response)) ++ js " "
               ++ statusText response) 502)
  else
    try! subContent <- text response;
    let originalUserInfo := userinfo response in
    let responseHeaders :=
      obj_spread corsHeaders [(js "Content-Type", js "text/plain; charset=utf-8")] in
    try! subHeaders <- buildSubscriptionHeaders host (Meta.subscriptionInfo meta);
    let responseHeaders := mergeUserInfo subHeaders originalUserInfo responseHeaders in
    let responseHeaders :=
      if truthy (updateInterval response)
      then obj_set (js "profile-update-interval")
                   (default [] (updateInterval response)) responseHeaders
      else responseHeaders in
    let responseHeaders :=
      if truthy (obj_get (js "content-disposition") subHeaders)
      then obj_set (js "content-disposition")
                   (default [] (obj_get (js "content-disposition") subHeaders))
                   responseHeaders
      else if truthy (disposition response)
      then obj_set (js "content-disposition")
                   (default [] (disposition response)) responseHeaders
      else responseHeaders in
    Ok (mkResponse 200 (BText subContent) responseHeaders).

(** The response of [handleSub] once the record has been counted. *)
Definition deliverSub (host : jsstring -> option Z) (meta : Meta.t)
    (content : jsstring) (fetched : result Upstream) : result Response :=
  if str_eqb (Meta.type meta) (js "subscription") && startsWith (js "http") content
  then
    match proxySubscription host meta fetched with
    | Ok r => Ok r
    | Throw e =>
        Ok (plain (js "Failed to fetch subscription: " ++ message e) 502)
    end
  else
    Ok (mkResponse 200 (BText content)
          (obj_spread corsHeaders
             [(js "Content-Type", js "text/plain; charset=utf-8")])).

Definition handleSub (host : jsstring -> option Z) (id : jsstring) (now : Z)
    (fetched : result Upstream) (env : KV) : result Response * KV :=
  match getMeta env id with
  | None => (Ok (plain (js "Not found") 404), env)
  | Some meta =>
      if isExpired meta now then
        (Ok (plain (js "Subscription expired") 410),
         deleteContent id (deleteMeta id env))
      else if limitReached meta then
        (Ok (plain (js "Download limit reached") 410), env)
      else
        match getContent env id with
        | None | Some [] => (Ok (plain (js "No content") 404), env)
        | Some content =>
            let meta := countDownload meta in
            let env := burnOrPersist id meta env in
            (deliverSub host meta content fetched, env)
        end
  end.

(** A read request on either route, with what the environment supplies to
    it: the clock and, on [/sub], the outcome of the upstream fetch. *)
Inductive ReadRequest : Type :=
  | GetRaw (id : list Z) (now : Z)
  | GetSub (id : list Z) (now : Z) (fetched : result Upstream).

Definition requestId (r : ReadRequest) : jsstring :=
  match r with
  | GetRaw id _ => id
  | GetSub id _ _ => id
  end.

Definition requestTime (r : ReadRequest) : Z :=
  match r with
  | GetRaw _ now => now
  | GetSub _ now _ => now
  end.

Definition serve (host : jsstring -> option Z) (r : ReadRequest) (env : KV)
  : result Response * KV :=
  match r with
  | GetRaw id now => handleRaw host id now env
  | GetSub id now fetched => handleSub host id now fetched env
  end.

(** The store after a sequence of read requests. *)
Definition serveAll (host : jsstring -> option Z) (rs : list ReadRequest)
    (env : KV) : KV :=
  fold_left (fun env r => (serve host r env).2) rs env.

(** ** The upload handler *)

Definition hexValue (c : Z) : option Z :=
  if isDigit c then Some (c - 48)
  else if (97 <=? c) && (c <=? 102) then Some (c - 87)
  else if (65 <=? c) && (c <=? 70) then Some (c - 55)
  else None.

(** [parseInt(s)]: leading white space, a sign, [0x] for base sixteen, then
    the longest run of digits, rounded to a double; NaN without a digit. *)
Definition parseInt (s : jsstring) : number :=
  let s := dropWhile isWhiteSpace s in
  let '(negative, s) :=
    match s with
    | 45 :: r => (true, r)
    | 43 :: r => (false, r)
    | _ => (false, s)
    end in
  let '(radix, s) :=
    match s with
    | 48 :: x :: r => if (x =? 120) || (x =? 88) then (16, r) else (10, s)
    | _ => (10, s)
    end in
  let ds := if radix =? 16
            then takeWhile (fun c => bool_decide (is_Some (hexValue c))) s
            else takeWhile isDigit s in
  match ds with
  | [] => NaN
  | _ =>
      let v := fold_left (fun acc c => radix * acc + default 0 (hexValue c)) ds 0 in
      match Math_floor (roundToDouble v 1) with
      | Int z => Int (if negative then - z else z)
      | Infinity => if negative then NegInfinity else Infinity
      | x => x
      end
  end.

Record File : Type := mkFile {
  file_name : list Z;
  file_type : list Z;
  file_bytes : list Z
}.

(** The fields of a multipart form, as [fd.get] returns them; the
    [subscriptionInfo] field is given as [JSON.parse] reads it, [None] when
    it is absent or does not parse. *)
Record FormData : Type := mkFormData {
  fd_file : option File;
  fd_type : option (list Z);
  fd_burnAfterRead : option (list Z);
  fd_expiresIn : option (list Z);
  fd_maxDownloads : option (list Z);
  fd_customSlug : option (list Z);
  fd_subscriptionInfo : option SubInfo.t
}.

(** The JSON body of an upload, each field at the type the interface gives
    it. *)
Record JsonBody : Type := mkJsonBody {
  b_content : option (list Z);
  b_filename : option (list Z);
  b_contentType : option (list Z);
  b_type : option (list Z);
  b_subscriptionInfo : option SubInfo.t;
  b_burnAfterRead : option bool;
  b_expiresIn : option Z;
  b_maxDownloads : option Z;
  b_customSlug : option (list Z)
}.

(** An upload request after its body has been read: a form when the
    content type includes [multipart/form-data], a JSON value otherwise. *)
Inductive UploadRequest : Type :=
  | Multipart (fd : FormData)
  | Json (b : JsonBody).

(** [x || d] on strings. *)
Definition orStr (x : option jsstring) (d : jsstring) : jsstring :=
  if truthy x then default [] x else d.

(** [x || null] on strings and on numbers. *)
Definition orNull (x : option jsstring) : option jsstring :=
  if truthy x then x else None.

Definition numOrNull (x : option Z) : number :=
  match x with
  | Some z => if z =? 0 then NaN else Int z
  | None => NaN
  end.

(** [isAllowedFile(_filename, mime)] *)
Definition isAllowedFile (_filename mime : jsstring) : bool :=
  negb (startsWith (js "image/") mime || startsWith (js "video/") mime
        || startsWith (js "audio/") mime).

(** What the two branches of [handleUpload] assign before the record is
    built; a null number is written [NaN], which is as falsy and is stored
    as null too. *)
Record UploadFields : Type := mkUploadFields {
  u_content : list Z;
  u_filename : list Z;
  u_mime : list Z;
  u_type : list Z;
  u_subscriptionInfo : option SubInfo.t;
  u_burnAfterRead : bool;
  u_expiresIn : number;
  u_maxDownloads : number;
  u_customSlug : option (list Z)
}.

(** The multipart branch: the fields, or the response that rejects the
    file. *)
Definition readForm (fd : FormData) : Response + UploadFields :=
  match fd_file fd with
  | None => inl (json [(js "error", js "No file")] 400)
  | Some file =>
      if 25 * 1024 * 1024 <? Z.of_nat (length (file_bytes file))
      then inl (json [(js "error", js "Too large")] 400)
      else if negb (isAllowedFile (file_name file) (file_type file))
      then inl (json [(js "error", js "File type blocked")] 400)
      else inr (mkUploadFields
                  (btoa (file_bytes file))
                  (file_name file)
                  (orStr (Some (file_type file)) (js "application/octet-stream"))
                  (orStr (fd_type fd) (js "file"))
                  (fd_subscriptionInfo fd)
                  (bool_decide (fd_burnAfterRead fd = Some (js "true")))
                  (if truthy (fd_expiresIn fd)
                   then parseInt (default [] (fd_expiresIn fd)) else NaN)
                  (if truthy (fd_maxDownloads fd)
                   then parseInt (default [] (fd_maxDownloads fd)) else NaN)
                  (orNull (fd_customSlug fd)))
  end.

(** The JSON branch. *)
Definition readJson (b : JsonBody) : UploadFields :=
  mkUploadFields
    (orStr (b_content b) [])
    (orStr (b_filename b) (js "text.txt"))
    (orStr (b_contentType b) (js "text/plain"))
    (orStr (b_type b) (js "text"))
    (b_subscriptionInfo b)
    (default false (b_burnAfterRead b))
    (numOrNull (b_expiresIn b))
    (numOrNull (b_maxDownloads b))
    (orNull (b_customSlug b)).

(** [expiresIn ? new Date(Date.now() + expiresIn * 3600 * 1000).toISOString()
    : null]; [toISOString] raises RangeError on an instant outside the
    range of [Date].  The clock [now] is a present-day instant, far below
    2^53, so the sum is exact whenever it is in range. *)
Definition computeExpiresAt (expiresIn : number) (now : Z) : result (option Z) :=
  match expiresIn with
  | NaN => Ok None
  | Int z =>
      if z =? 0 then Ok None
      else
        let t := now + z * 3600 * 1000 in
        if (-8640000000000000 <=? t) && (t <=? 8640000000000000)
        then Ok (Some t) else Throw RangeError
  | _ => Throw RangeError
  end.

(** The value [JSON.stringify] stores for a number: null in place of NaN
    and the infinities. *)
Definition storedNumber (x : number) : option Z :=
  match x with
  | Int z => Some z
  | _ => None
  end.

(** [handleUpload]; [fresh] is the identifier [generateId()] draws and
    [now] the clock. *)
Definition handleUpload (fresh : jsstring) (now : Z) (req : UploadRequest)
    (env : KV) : result Response * KV :=
  match (match req with
         | Multipart fd => readForm fd
         | Json b => inr (readJson b)
         end) with
  | inl rejected => (Ok rejected, env)
  | inr u =>
      let id := orStr (u_customSlug u) fresh in
      if truthy (u_customSlug u) && bool_decide (is_Some (getMeta env id))
      then (Ok (json [(js "error", js "Custom slug already exists")] 400), env)
      else
        match computeExpiresAt (u_expiresIn u) now with
        | Throw e => (Throw e, env)
        | Ok expiresAt =>
            let meta :=
              Meta.mk id (u_filename u) (u_mime u)
                (Z.of_nat (length (u_content u))) (u_type u)
                (u_subscriptionInfo u)
                (if str_eqb (u_type u) (js "subscription")
                 then Some (u_content u) else None)
                (u_burnAfterRead u) expiresAt
                (storedNumber (u_maxDownloads u)) 0 now in
            let env := putContent id (u_content u) env in
            let env := putMeta id meta env in
            let url := if str_eqb (u_type u) (js "subscription")
                       then js "/sub/" ++ id else js "/raw/" ++ id in
            (Ok (json [(js "id", id); (js "url", url)] 200), env)
        end
  end.

(** The delivery step a counted read ends with, and the message of an
    expired read, per route. *)
Definition deliver (host : jsstring -> option Z) (r : ReadRequest)
    (meta : Meta.t) (content : jsstring) : result Response :=
  match r with
  | GetRaw _ _ => deliverRaw host meta content
  | GetSub _ _ fetched => deliverSub host meta content fetched
  end.

Definition expiredMessage (r : ReadRequest) : jsstring :=
  match r with
  | GetRaw _ _ => js "File expired"
  | GetSub _ _ _ => js "Subscription expired"
  end.

Definition notFound : result Response := Ok (plain (js "Not found") 404).
Definition limitResponse : result Response :=
  Ok (plain (js "Download limit reached") 410).

(** The status and text of a response, [None] for a raised exception. *)
Definition statusOf (x : result Response) : option (Z * body) :=
  match x with
  | Ok resp => Some (status resp, payload resp)
  | Throw _ => None
  end.

(** ** The size syntax, stated

    The language of the size pattern: a non-empty run of digits and dots,
    white space, and nothing or a unit token in any case. *)
Definition sizeSyntax (num ws unit : jsstring) : Prop :=
  num <> []
  /\ Forall (fun c => isDigitOrDot c = true) num
  /\ Forall (fun c => isWhiteSpace c = true) ws
  /\ (unit = [] \/ toUpperCase unit ∈ unitTokens).

(** The run begins with a decimal literal: a digit, or a dot and a digit. *)
Definition decimalPrefix (num : jsstring) : Prop :=
  match num with
  | c :: rest =>
      isDigit c = true
      \/ (c = 46 /\ match rest with d :: _ => isDigit d = true | [] => False end)
  | [] => False
  end.

(** The entry of [units] for a unit, 0 when there is none; and the
    multiplier as the specification words it, a power of 1024. *)
Definition unitExponent (unit : jsstring) : Z :=
  default 0 (assoc (toUpperCase unit) units).

Definition unitMultiplier (unit : jsstring) : Z :=
  1024 ^ (unitExponent unit / 10).

(** Where a run ends: at the first code unit that fails the test. *)
Definition stopsAt (p : Z -> bool) (b : list Z) : Prop :=
  match b with
  | [] => True
  | c :: _ => p c = false
  end.

(** ** The header builder, stated *)

(** A part as the specification words it: present only if the field's
    string is non-empty after trimming. *)
Definition specSizePart (field : jsstring) (x : option jsstring) : list jsstring :=
  match x with
  | Some s =>
      if str_eqb (trim s) [] then []
      else [field ++ js "=" ++ numToString (parseSize s)]
  | None => []
  end.

(** The [subscription-userinfo] entry for a list of parts, if it has any. *)
Definition userinfoEntry (parts : list jsstring) : jsobj :=
  match parts with
  | [] => []
  | _ => [(js "subscription-userinfo", join (js "; ") parts)]
  end.

(** The [content-disposition] entry for a name, [enc] being its trimmed
    text percent-encoded. *)
Definition dispositionEntry (name : option jsstring) (enc : jsstring) : jsobj :=
  match name with
  | Some s =>
      if str_eqb (trim s) [] then []
      else [(js "content-disposition", js "attachment; filename*=UTF-8''" ++ enc)]
  | None => []
  end.

(** A string [encodeURIComponent] accepts: every surrogate is half of a
    pair. *)
Fixpoint wellFormed (s : jsstring) : bool :=
  match s with
  | [] => true
  | c :: r =>
      if isLowSurrogate c then false
      else if isHighSurrogate c then
        match r with
        | c2 :: r2 => isLowSurrogate c2 && wellFormed r2
        | [] => false
        end
      else wellFormed r
  end.

(** ** The expire field, stated *)

Definition allDigits (s : jsstring) : Prop :=
  Forall (fun c => isDigit c = true) s.

(** The bare date pattern: four digits, a hyphen, one or two digits, a
    hyphen, one or two digits. *)
Definition ymdSyntax (s : jsstring) : Prop :=
  exists y m d,
    s = y ++ 45 :: m ++ 45 :: d
    /\ length y = 4%nat /\ allDigits y
    /\ (length m = 1%nat \/ length m = 2%nat) /\ allDigits m
    /\ (length d = 1%nat \/ length d = 2%nat) /\ allDigits d.

(** The part a parsed date gives: its Unix seconds, or nothing when the
    date is invalid. *)
Definition datePart (date : option Z) : list jsstring :=
  match date with
  | Some t => [js "expire=" ++ numToString (Int (t / 1000))]
  | None => []
  end.

(** 23:59:59 of the day [y]-[m]-[d] at eight hours east of UTC, in
    milliseconds since the epoch. *)
Definition endOfDayUTC8 (y m d : Z) : Z :=
  MakeDay y m d * 86400000 + (23 * 3600000 + 59 * 60000 + 59 * 1000)
  - 8 * 3600000.

(** ** The merge, stated *)

(** A code unit that is neither [;] nor [=]. *)
Definition plainChar (c : Z) : Prop := c <> 59 /\ c <> 61.

(** The fields the builder wrote, with their values, in its order. *)
Definition sizePair (field : jsstring) (x : option jsstring) : jsobj :=
  if filled x then [(field, numToString (parseSize (default [] x)))] else [].

Definition expirePair (host : jsstring -> option Z) (x : option jsstring) : jsobj :=
  if filled x then
    let expireStr := trim (default [] x) in
    match (if testYMD expireStr
           then dateParse host (expireStr ++ js "T23:59:59+08:00")
           else dateParse host expireStr) with
    | Some t => [(js "expire", numToString (Int (t / 1000)))]
    | None => []
    end
  else [].

Definition infoPairs (host : jsstring -> option Z) (i : SubInfo.t) : jsobj :=
  sizePair (js "upload") (SubInfo.upload i)
  ++ sizePair (js "download") (SubInfo.download i)
  ++ sizePair (js "total") (SubInfo.total i)
  ++ expirePair host (SubInfo.expire i).

Definition renderPair (kv : list Z * list Z) : jsstring :=
  kv.1 ++ js "=" ++ kv.2.

(** The upstream fields that fill the gaps: those of [entries] whose name
    is not among [fields], rendered in the order of [entries]. *)
Definition gapParts (fields : list jsstring) (entries : jsobj) : list jsstring :=
  map renderPair (filter (fun kv => kv.1 ∉ fields) entries).

Definition customFieldNames : list jsstring :=
  [js "upload"; js "download"; js "total"; js "expire"].

Definition userinfoKey : jsstring := js "subscription-userinfo".

(** The [subscription-userinfo] header of a response, if it has one. *)
Definition userinfoOf (x : result Response) : option jsstring :=
  match x with
  | Ok resp => obj_get userinfoKey (headers resp)
  | Throw _ => None
  end.

(** The field a segment of the upstream header gives, if any. *)
Definition segmentPair (part : jsstring) : option (list Z * list Z) :=
  match split (js "=") (trim part) with
  | key :: value :: _ =>
      if truthy (Some key) && truthy (Some value)
      then Some (trim key, trim value) else None
  | _ => None
  end.

(** The fields of the upstream header, in its order. *)
Definition segments (h : jsstring) : jsobj :=
  omap segmentPair (split (js ";") h).

(** ** Sample data *)

(** An engine whose parser reads no other form of date. *)
Definition noHost : list Z -> option Z := fun _ => None.

(** A text record stored under the identifier [abc]. *)
Definition sampleMeta (burn : bool) (expiresAt maxDownloads : option Z)
    (count : Z) : Meta.t :=
  Meta.mk (js "abc") (js "note.txt") (js "text/plain") 5 (js "text") None None
          burn expiresAt maxDownloads count 0.

Definition sampleStore (m : Meta.t) : KV :=
  mkKV {[ js "abc" := m ]} {[ js "abc" := js "hello" ]}.

(** The same record with an overlay whose name is a lone surrogate, as a
    JSON upload can store it. *)
Definition sampleBadName : Meta.t :=
  Meta.mk (js "abc") (js "note.txt") (js "text/plain") 5 (js "text")
          (Some (SubInfo.mk None None None None (Some [55296]))) None
          false None None 0 0.

(** A subscription record with the overlay [i], and an upstream that
    answers 200 with the body [feed] and the given userinfo header. *)
Definition sampleSub (i : SubInfo.t) : Meta.t :=
  Meta.mk (js "abc") (js "text.txt") (js "text/plain") 24 (js "subscription")
          (Some i) (Some (js "https://example.com/feed")) false None None 0 0.

Definition sampleUpstream (userinfo : option jsstring) : Upstream :=
  mkUpstream true 200 (js "OK") (Ok (js "feed")) userinfo None None.

(** ** The rest of the worker: identifiers, the admin handlers and the
    dispatcher [fetch]

    What the environment supplies to one request is gathered in [World]:
    the clock, the values [crypto.getRandomValues] draws and the outcome of
    the upstream fetch.  [METADATA.list] is read like [get], without its
    eventual consistency, and no KV operation fails. *)

(** *** Identifiers *)

Definition idChars : jsstring :=
  js "abcdefghijklmnopqrstuvwxyzABCDEFGHIJKLMNOPQRSTUVWXYZ0123456789".

(** [crypto.getRandomValues(new Uint8Array(len))]: [entropy i] is the value
    drawn for the element [i], kept as a byte. *)
Definition getRandomValues (entropy : nat -> Z) (len : nat) : list Z :=
  map (fun i => entropy i mod 256) (seq 0 len).

(** [chars[i]]: a string of one code unit, or undefined, which [join]
    writes as the empty string. *)
Definition charAt (chars : jsstring) (i : Z) : jsstring :=
  match chars !! Z.to_nat i with
  | Some c => [c]
  | None => []
  end.

(** [generateId(len)] *)
Definition generateId (entropy : nat -> Z) (len : nat) : jsstring :=
  let chars := idChars in
  let arr := getRandomValues entropy len in
  join [] (map (fun v => charAt chars (v mod Z.of_nat (length chars))) arr).

(** *** Requests *)

(** The variables of [Env] beside the namespace; [None] is a variable that
    is not set. *)
Record Vars : Type := mkVars {
  ADMIN_PASSWORD : option (list Z);
  ADMIN_PATH : option (list Z);
  SITE_NAME : option (list Z);
  TELEGRAM_BOT : option (list Z);
  FOOTER_TEXT : option (list Z)
}.

(** What [await req.json()] comes to: a rejection, the value null (on
    which a property read raises TypeError), or a value whose properties
    are read at the types the handlers give them; a value that is not an
    object has none of them. *)
Inductive JsonRead : Type :=
  | JsonRejected
  | JsonNull
  | JsonValue (b : JsonBody) (password : option (list Z))
              (ids : option (list (list Z))).

(** A request: its method; its URL after the origin of the worker, that
    is the path, query and fragment as the client wrote them; the two
    headers the worker reads; and the two readings of its body, [None] for
    a form that does not parse. *)
Record Request : Type := mkRequest {
  req_method : list Z;
  req_target : list Z;
  req_authorization : option (list Z);
  req_contentType : option (list Z);
  req_formData : option FormData;
  req_json : JsonRead
}.

Record World : Type := mkWorld {
  w_now : Z;
  w_entropy : nat -> Z;
  w_fetched : result Upstream
}.

(** The data of the JSON responses of the admin and metadata handlers. *)
Inductive ApiData : Type :=
  | AError (error : list Z)
  | ASuccess
  | AMeta (meta : Meta.t)
  | AConfig (siteName telegramBot footerText : list Z)
  | ARecords (records : list (Meta.t * bool))
  | ADeleted (deleted failed : Z)
  | AStats (total files texts subscriptions totalSize expired : Z)
  | ACleanup (deleted errors : Z).

Record ApiResponse : Type := mkApiResponse {
  api_status : Z;
  api_data : ApiData;
  api_headers : list (list Z * list Z)
}.

(** [json(data, status)] on these data. *)
Definition jsonApi (data : ApiData) (st : Z) : ApiResponse :=
  mkApiResponse st data
    (obj_spread corsHeaders [(js "Content-Type", js "application/json")]).

(** What [fetch] comes to: a response of one of the two kinds, an exception
    that leaves the worker, a rejected or null body whose reading raises
    outside any [try], the preflight response
    [new Response(null, { headers: corsHeaders })], or the request handed
    to [ASSETS]. *)
Inductive Outcome : Type :=
  | Served (r : result Response)
  | Api (r : ApiResponse)
  | BodyError
  | Preflight
  | Assets.

(** *** Listing the namespace *)

(** The code points of a string as a key is sent: a surrogate that is not
    half of a pair is replaced by U+FFFD. *)
Fixpoint codePoints (s : jsstring) : list Z :=
  match s with
  | [] => []
  | c :: r =>
      if isHighSurrogate c then
        match r with
        | c2 :: r2 =>
            if isLowSurrogate c2
            then ((c - 55296) * 1024 + (c2 - 56320) + 65536) :: codePoints r2
            else 65533 :: codePoints r
        | [] => [65533]
        end
      else if isLowSurrogate c then 65533 :: codePoints r
      else c :: codePoints r
  end.

Definition utf8Bytes (s : jsstring) : list Z := concat (map utf8 (codePoints s)).

Fixpoint lexLeb (a b : list Z) : bool :=
  match a, b with
  | [], _ => true
  | _ :: _, [] => false
  | x :: a', y :: b' => (x <? y) || ((x =? y) && lexLeb a' b')
  end.

Definition keyLeb (a b : jsstring) : bool := lexLeb (utf8Bytes a) (utf8Bytes b).

(** A stable sort: [x] goes before the first element it is not after. *)
Fixpoint insertBy {A} (le : A -> A -> bool) (x : A) (l : list A) : list A :=
  match l with
  | [] => [x]
  | y :: l' => if le x y then x :: l else y :: insertBy le x l'
  end.

Definition sortBy {A} (le : A -> A -> bool) (l : list A) : list A :=
  foldr (insertBy le) [] l.

(** [(await env.METADATA.list({ prefix: "meta:" })).keys], each key named
    by its identifier: the first thousand in the order of their UTF-8
    bytes. *)
Definition listMeta (env : KV) : list jsstring :=
  take 1000 (sortBy keyLeb (fst <$> map_to_list (metas env))).

(** *** The handlers *)

(** [handleMetadata(id, env)] *)
Definition handleMetadata (id : jsstring) (env : KV) : ApiResponse :=
  match getMeta env id with
  | None => jsonApi (AError (js "Not found")) 404
  | Some meta => jsonApi (AMeta meta) 200
  end.

Definition defaultFooter : jsstring :=
  [22522; 20110; 32; 67; 108; 111; 117; 100; 102; 108; 97; 114; 101; 32;
   26500; 24314; 30340; 31169; 26377; 25991; 20214; 20998; 20139; 26381;
   21153].

(** [handleSiteConfig(env)] *)
Definition handleSiteConfig (vars : Vars) : ApiResponse :=
  jsonApi (AConfig (orStr (SITE_NAME vars) (js "CloudShare"))
                   (orStr (TELEGRAM_BOT vars) [])
                   (orStr (FOOTER_TEXT vars) defaultFooter)) 200.

(** [verifyAdminAuth(req, env)]; [authHeader.slice(7)] is a string, which
    is never equal to a password that is not set. *)
Definition verifyAdminAuth (req : Request) (vars : Vars) : bool :=
  let authHeader := req_authorization req in
  if negb (truthy authHeader)
     || negb (startsWith (js "Bearer ") (default [] authHeader))
  then false
  else match ADMIN_PASSWORD vars with
       | Some password => str_eqb (drop 7 (default [] authHeader)) password
       | None => false
       end.

Definition unauthorized : ApiResponse := jsonApi (AError (js "Unauthorized")) 401.

(** [handleAdminLogin(req, env)]: [===] holds between two strings that are
    equal and between two undefined values. *)
Definition handleAdminLogin (req : Request) (vars : Vars) : ApiResponse :=
  match req_json req with
  | JsonValue _ password _ =>
      if bool_decide (password = ADMIN_PASSWORD vars)
      then jsonApi ASuccess 200
      else jsonApi (AError (js "Invalid password")) 401
  | _ => jsonApi (AError (js "Invalid request")) 400
  end.

(** The comparison function of the sort of the records, newest first. *)
Definition newerFirst (a b : Meta.t * bool) : bool :=
  Meta.createdAt b.1 <=? Meta.createdAt a.1.

(** [handleAdminRecords(req, env)] *)
Definition handleAdminRecords (req : Request) (vars : Vars) (env : KV)
  : ApiResponse :=
  if negb (verifyAdminAuth req vars) then unauthorized
  else
    let out :=
      omap (fun k =>
              meta ← getMeta env k;
              Some (meta, bool_decide (is_Some (getContent env (Meta.id meta)))))
           (take 100 (listMeta env)) in
    jsonApi (ARecords (sortBy newerFirst out)) 200.

(** The two deletions every removal of a record is made of. *)
Definition deleteRecord (id : jsstring) (env : KV) : KV :=
  deleteContent id (deleteMeta id env).

(** [handleAdminDelete(id, req, env)] *)
Definition handleAdminDelete (id : jsstring) (req : Request) (vars : Vars)
    (env : KV) : ApiResponse * KV :=
  if negb (verifyAdminAuth req vars) then (unauthorized, env)
  else (jsonApi ASuccess 200, deleteRecord id env).

(** [handleAdminBatchDelete(req, env)]; a deletion does not fail, so
    [failCount] stays 0. *)
Definition handleAdminBatchDelete (req : Request) (vars : Vars) (env : KV)
  : ApiResponse * KV :=
  if negb (verifyAdminAuth req vars) then (unauthorized, env)
  else
    match req_json req with
    | JsonValue _ _ (Some ids) =>
        let '(env, successCount) :=
          fold_left (fun '(env, successCount) id =>
                       (deleteRecord id env, successCount + 1))
                    ids (env, 0) in
        (jsonApi (ADeleted successCount 0) 200, env)
    | JsonValue _ _ None =>
        (jsonApi (AError (js "Invalid request: ids array required")) 400, env)
    | _ => (jsonApi (AError (js "Invalid request")) 400, env)
    end.

(** [handleAdminDownload(id, req, env)] *)
Definition handleAdminDownload (id : jsstring) (req : Request) (vars : Vars)
    (env : KV) : Outcome :=
  if negb (verifyAdminAuth req vars) then Api unauthorized
  else
    match getMeta env id with
    | None => Served (Ok (plain (js "Not found") 404))
    | Some meta =>
        match getContent env id with
        | None | Some [] => Served (Ok (plain (js "No content") 404))
        | Some content =>
            if startsWith (js "text/") (Meta.contentType meta) then
              Served (try! cd <- encodeFilename (Meta.filename meta);
                      Ok (mkResponse 200 (BText content)
                            (obj_spread corsHeaders
                               [(js "Content-Type",
                                 Meta.contentType meta ++ js "; charset=utf-8");
                                (js "Content-Disposition", cd)])))
            else
              Served (try! bin <- atob content;
                      try! cd <- encodeFilename (Meta.filename meta);
                      Ok (mkResponse 200 (BBytes bin)
                            (obj_spread corsHeaders
                               [(js "Content-Type", Meta.contentType meta);
                                (js "Content-Disposition", cd)])))
        end
    end.

(** The counters of [handleAdminStats]. *)
Record Stats : Type := mkStats {
  totalFiles : Z;
  totalTexts : Z;
  totalSubscriptions : Z;
  totalSize : Z;
  expiredCount : Z
}.

(** The body of the loop of [handleAdminStats] for one record.  The sizes
    are integers and their sum is exact below 2^53. *)
Definition countRecord (now : Z) (s : Stats) (meta : Meta.t) : Stats :=
  let ty := Meta.type meta in
  mkStats
    (if str_eqb ty (js "file") then totalFiles s + 1 else totalFiles s)
    (if str_eqb ty (js "file") then totalTexts s
     else if str_eqb ty (js "text") then totalTexts s + 1 else totalTexts s)
    (if str_eqb ty (js "file") then totalSubscriptions s
     else if str_eqb ty (js "text") then totalSubscriptions s
     else if str_eqb ty (js "subscription") then totalSubscriptions s + 1
     else totalSubscriptions s)
    (if Meta.size meta =? 0 then totalSize s else totalSize s + Meta.size meta)
    (if isExpired meta now then expiredCount s + 1 else expiredCount s).

Definition gatherStats (now : Z) (env : KV) : Stats :=
  fold_left (fun s k => match getMeta env k with
                        | Some meta => countRecord now s meta
                        | None => s
                        end)
            (listMeta env) (mkStats 0 0 0 0 0).

(** [handleAdminStats(req, env)] *)
Definition handleAdminStats (req : Request) (vars : Vars) (now : Z) (env : KV)
  : ApiResponse :=
  if negb (verifyAdminAuth req vars) then unauthorized
  else
    let s := gatherStats now env in
    jsonApi (AStats (Z.of_nat (length (listMeta env))) (totalFiles s)
                    (totalTexts s) (totalSubscriptions s) (totalSize s)
                    (expiredCount s)) 200.

(** The body of the loop of [cleanupExpiredFiles] for one listed key: the
    record is read from the namespace as it is by then, and what is deleted
    is named by the identifier inside it. *)
Definition cleanupStep (now : Z) (acc : KV * Z) (k : jsstring) : KV * Z :=
  match getMeta acc.1 k with
  | Some meta =>
      if isExpired meta now
      then (deleteRecord (Meta.id meta) acc.1, acc.2 + 1)
      else acc
  | None => acc
  end.

(** [cleanupExpiredFiles(env)]: the namespace afterwards and the count
    [deleted]; nothing raises, so [errors] stays 0. *)
Definition cleanupExpiredFiles (now : Z) (env : KV) : KV * Z :=
  fold_left (cleanupStep now) (listMeta env) (env, 0).

(** [handleAdminCleanup(req, env)] *)
Definition handleAdminCleanup (req : Request) (vars : Vars) (now : Z)
    (env : KV) : ApiResponse * KV :=
  if negb (verifyAdminAuth req vars) then (unauthorized, env)
  else
    let '(env, deleted) := cleanupExpiredFiles now env in
    (jsonApi (ACleanup deleted 0) 200, env).

(** The reading of the body at the head of [handleUpload]: a form when the
    content type includes [multipart/form-data], the JSON value otherwise;
    [None] when the reading raises. *)
Definition readUploadBody (req : Request) : option UploadRequest :=
  let ct := orStr (req_contentType req) [] in
  if includes (js "multipart/form-data") ct
  then Multipart <$> req_formData req
  else match req_json req with
       | JsonValue b _ _ => Some (Json b)
       | _ => None
       end.

(** *** Header values

    [new Response(body, { headers })] fills a [Headers] object from the
    record it is given.  Each value is converted to a byte string, which
    raises TypeError on a code unit above 255; HTTP white space is
    stripped from both its ends; and what is left must hold no NUL, line
    feed or carriage return, or TypeError is raised (Fetch standard).
    The names the worker writes are literals, and header names. *)

Definition isHttpWhitespace (c : Z) : bool :=
  (c =? 9) || (c =? 10) || (c =? 13) || (c =? 32).

Definition normalizeValue (v : jsstring) : jsstring :=
  rev (dropWhile isHttpWhitespace (rev (dropWhile isHttpWhitespace v))).

Definition isHeaderValue (v : jsstring) : bool :=
  forallb (fun c => (0 <=? c) && (c <=? 255)) v
  && forallb (fun c => negb ((c =? 0) || (c =? 10) || (c =? 13)))
             (normalizeValue v).

(** The constructor accepts the headers: it does not raise. *)
Definition headersAccepted (hs : jsobj) : bool :=
  forallb (fun kv => isHeaderValue kv.2) hs.

(** *** The path of a request

    [new URL(req.url).pathname] for a request whose URL is the origin of
    the worker followed by [target]: the path, query and fragment as the
    client wrote them, beginning with a slash.  The URL parser (WHATWG URL
    standard, for the scheme https) strips controls and spaces from the
    end of its input and removes tabs and newlines from it, ends the path
    at the first [?] or [#], reads a backslash as a slash,
    percent-encodes the code points of the path percent-encode set, and
    resolves the segments [.] and [..]. *)

Definition isC0ControlOrSpace (c : Z) : bool := c <=? 32.

Definition isTabOrNewline (c : Z) : bool := (c =? 9) || (c =? 10) || (c =? 13).

(** The path percent-encode set: the C0 controls, every code point above
    [~], and the space, the double quote, [#], [<], [>], [?], [^], the
    backtick, [{] and [}]. *)
Definition inPathPercentEncodeSet (cp : Z) : bool :=
  (cp <=? 31) || (126 <? cp)
  || bool_decide (cp ∈ [32; 34; 35; 60; 62; 63; 94; 96; 123; 125]).

(** What the path state appends to a segment for one code point: its
    UTF-8 bytes as percent escapes, or the code point itself, which is
    then ASCII. *)
Definition encodePathChar (cp : Z) : jsstring :=
  if inPathPercentEncodeSet cp then encodeCodePoint cp else [cp].

Definition lowerAscii (c : Z) : Z :=
  if (65 <=? c) && (c <=? 90) then c + 32 else c.

(** The single-dot and double-dot path segments, [%2e] standing for a dot
    in either case of the [e]. *)
Definition isSingleDot (seg : jsstring) : bool :=
  let seg := map lowerAscii seg in
  str_eqb seg (js ".") || str_eqb seg (js "%2e").

Definition isDoubleDot (seg : jsstring) : bool :=
  let seg := map lowerAscii seg in
  str_eqb seg (js "..") || str_eqb seg (js ".%2e")
  || str_eqb seg (js "%2e.") || str_eqb seg (js "%2e%2e").

(** The path state over the segments of the input, [path] being the path
    of the URL so far: a segment ended by a slash, and the last one, ended
    by the end of the path. *)
Fixpoint pathState (segments path : list jsstring) : list jsstring :=
  match segments with
  | [] => path
  | [seg] =>
      if isDoubleDot seg then removelast path ++ [[]]
      else if isSingleDot seg then path ++ [[]]
      else path ++ [seg]
  | seg :: rest =>
      pathState rest (if isDoubleDot seg then removelast path
                      else if isSingleDot seg then path
                      else path ++ [seg])
  end.

Definition pathname (target : jsstring) : jsstring :=
  let input :=
    filter (fun c => negb (isTabOrNewline c))
           (rev (dropWhile isC0ControlOrSpace (rev target))) in
  let path := takeWhile (fun c => negb ((c =? 63) || (c =? 35))) input in
  let path := map (fun c => if c =? 92 then 47 else c) path in
  let path := match path with
              | 47 :: rest => rest
              | _ => path
              end in
  let segments :=
    map (fun seg => concat (map encodePathChar (codePoints seg)))
        (split (js "/") path) in
  concat (map (fun seg => 47 :: seg) (pathState segments [])).

(** [new URL(req.url).pathname] *)
Definition req_pathname (req : Request) : jsstring := pathname (req_target req).

(** *** The dispatcher *)

Inductive Route : Type :=
  | ToPreflight
  | ToSiteConfig
  | ToUpload
  | ToRaw (id : list Z)
  | ToSub (id : list Z)
  | ToMetadata (id : list Z)
  | ToAdminLogin
  | ToAdminRecords
  | ToAdminDelete (id : list Z)
  | ToAdminBatchDelete
  | ToAdminDownload (id : list Z)
  | ToAdminStats
  | ToAdminCleanup
  | ToAssets.

(** [url.pathname.split("/").pop()] *)
Definition popSegment (pathname : jsstring) : option jsstring :=
  last (split (js "/") pathname).

(** The chain of tests of [fetch], in its order.  The two routes that take
    the last segment as their identifier fall through to the later tests
    when it is empty. *)
Definition route (vars : Vars) (method pathname : jsstring) : Route :=
  if str_eqb method (js "OPTIONS") then ToPreflight
  else if str_eqb pathname (js "/api/config") then ToSiteConfig
  else if str_eqb pathname (js "/api/upload") && str_eqb method (js "POST")
  then ToUpload
  else if startsWith (js "/raw/") pathname then ToRaw (drop 5 pathname)
  else if startsWith (js "/sub/") pathname then ToSub (drop 5 pathname)
  else if startsWith (js "/api/file/") pathname
  then ToMetadata (default (js "undefined") (split (js "/") pathname !! 3%nat))
  else
    let adminPath := orStr (ADMIN_PATH vars) (js "admin") in
    let id := popSegment pathname in
    if str_eqb pathname (js "/api/" ++ adminPath ++ js "/login")
       && str_eqb method (js "POST")
    then ToAdminLogin
    else if str_eqb pathname (js "/api/" ++ adminPath ++ js "/records")
            && str_eqb method (js "GET")
    then ToAdminRecords
    else if startsWith (js "/api/" ++ adminPath ++ js "/delete/") pathname
            && str_eqb method (js "DELETE") && truthy id
    then ToAdminDelete (default [] id)
    else if str_eqb pathname (js "/api/" ++ adminPath ++ js "/batch-delete")
            && str_eqb method (js "POST")
    then ToAdminBatchDelete
    else if startsWith (js "/api/" ++ adminPath ++ js "/download/") pathname
            && str_eqb method (js "GET") && truthy id
    then ToAdminDownload (default [] id)
    else if str_eqb pathname (js "/api/" ++ adminPath ++ js "/stats")
            && str_eqb method (js "GET")
    then ToAdminStats
    else if str_eqb pathname (js "/api/" ++ adminPath ++ js "/cleanup")
            && str_eqb method (js "POST")
    then ToAdminCleanup
    else ToAssets.

(** The handler a route names, run on the request. *)
Definition dispatch (host : jsstring -> option Z) (vars : Vars) (w : World)
    (req : Request) (env : KV) (r : Route) : Outcome * KV :=
  match r with
  | ToPreflight => (Preflight, env)
  | ToSiteConfig => (Api (handleSiteConfig vars), env)
  | ToUpload =>
      match readUploadBody req with
      | None => (BodyError, env)
      | Some body =>
          let '(resp, env) :=
            handleUpload (generateId (w_entropy w) 8) (w_now w) body env in
          (Served resp, env)
      end
  | ToRaw id =>
      let '(resp, env) := handleRaw host id (w_now w) env in (Served resp, env)
  | ToSub id =>
      let '(resp, env) := handleSub host id (w_now w) (w_fetched w) env in
      (Served resp, env)
  | ToMetadata id => (Api (handleMetadata id env), env)
  | ToAdminLogin => (Api (handleAdminLogin req vars), env)
  | ToAdminRecords => (Api (handleAdminRecords req vars env), env)
  | ToAdminDelete id =>
      let '(resp, env) := handleAdminDelete id req vars env in (Api resp, env)
  | ToAdminBatchDelete =>
      let '(resp, env) := handleAdminBatchDelete req vars env in (Api resp, env)
  | ToAdminDownload id => (handleAdminDownload id req vars env, env)
  | ToAdminStats => (Api (handleAdminStats req vars (w_now w) env), env)
  | ToAdminCleanup =>
      let '(resp, env) := handleAdminCleanup req vars (w_now w) env in
      (Api resp, env)
  | ToAssets => (Assets, env)
  end.

(** [fetch(req, env)]: the path is read off the URL of the request and
    the chain of tests is run on it. *)
Definition fetch (host : jsstring -> option Z) (vars : Vars) (w : World)
    (req : Request) (env : KV) : Outcome * KV :=
  dispatch host vars w req env (route vars (req_method req) (req_pathname req)).

(** The namespace after a sequence of requests, each with what the
    environment supplied to it. *)
Definition fetchAll (host : jsstring -> option Z) (vars : Vars)
    (reqs : list (World * Request)) (env : KV) : KV :=
  fold_left (fun env wr => (fetch host vars wr.1 wr.2 env).2) reqs env.

Definition emptyKV : KV := mkKV ∅ ∅.
(** ** The rest of the worker, stated

    The predicates and measures the properties of the handlers below are
    stated with, and the sample data of their instances. *)


(** The byte values for which [generateId] writes the character [c]. *)
Definition drawsOf (c : Z) : list Z :=
  filter (fun v => generateId (fun _ => v) 1 = [c]) (seqZ 0 256).

(** What every handler keeps true of the namespace: a record is stored
    under its own identifier, beside its content, whose length its [size]
    is; its download count is not negative and not above a positive limit;
    and no content is stored without its record. *)
Definition wellKept (env : KV) : Prop :=
  (forall id meta, getMeta env id = Some meta ->
     Meta.id meta = id
     /\ (exists content, getContent env id = Some content
                         /\ Meta.size meta = Z.of_nat (length content))
     /\ 0 <= Meta.downloadCount meta
     /\ (forall n, Meta.maxDownloads meta = Some n -> 0 < n ->
                   Meta.downloadCount meta <= n))
  /\ (forall id, is_Some (getContent env id) -> is_Some (getMeta env id)).

(** The routes whose handlers begin with [verifyAdminAuth]. *)
Definition tokenProtected (r : Route) : bool :=
  match r with
  | ToAdminRecords | ToAdminDelete _ | ToAdminBatchDelete | ToAdminDownload _
  | ToAdminStats | ToAdminCleanup => true
  | _ => false
  end.

(** The routes of the admin interface. *)
Definition adminRoute (r : Route) : bool :=
  match r with
  | ToAdminLogin | ToAdminRecords | ToAdminDelete _ | ToAdminBatchDelete
  | ToAdminDownload _ | ToAdminStats | ToAdminCleanup => true
  | _ => false
  end.

(** A code unit the URL parser leaves where it is in a path segment, and
    an identifier it keeps as it is: made of such code units and not a dot
    segment. *)
Definition isPathChar (c : Z) : bool :=
  negb (inPathPercentEncodeSet c) && negb (c =? 47) && negb (c =? 92).

Definition keptInPath (id : list Z) : bool :=
  forallb isPathChar id && negb (isSingleDot id) && negb (isDoubleDot id).

(** A worker whose admin path is [file]. *)
Definition fileVars : Vars := mkVars (Some (js "secret")) (Some (js "file")) None None None.

(** A record that expired at 500 and has used up its one download. *)
Definition spentMeta : Meta.t := sampleMeta false (Some 500) (Some 1) 1.

(** A record of the store is expired at [now]. *)
Definition expiredAt (now : Z) (env : KV) (id : list Z) : bool :=
  match getMeta env id with
  | Some meta => isExpired meta now
  | None => false
  end.

(** Every record is stored under the identifier it carries. *)
Definition keyedById (env : KV) : Prop :=
  forall id meta, getMeta env id = Some meta -> Meta.id meta = id.

(** The records of a list are in the order newest first. *)
Fixpoint newestFirst (l : list (Meta.t * bool)) : Prop :=
  match l with
  | [] => True
  | a :: l' =>
      Forall (fun b => Meta.createdAt b.1 <= Meta.createdAt a.1) l'
      /\ newestFirst l'
  end.

(** The records behind the listed keys, in the order of the listing. *)
Definition listedRecords (env : KV) : list Meta.t :=
  omap (getMeta env) (listMeta env).

(** The number of records that pass a test, and the sum of the sizes. *)
Definition countWhere (p : Meta.t -> bool) (ms : list Meta.t) : Z :=
  Z.of_nat (length (List.filter p ms)).

Definition hasType (ty : list Z) (meta : Meta.t) : bool :=
  str_eqb (Meta.type meta) ty.

Definition sumSizes (ms : list Meta.t) : Z :=
  foldr Z.add 0 (Meta.size <$> ms).

(** The six-bit values [btoa] writes, without the padding. *)
Fixpoint sextets (bs : list Z) : list Z :=
  match bs with
  | [] => []
  | [a] => [a / 4; a mod 4 * 16]
  | [a; b] => [a / 4; a mod 4 * 16 + b / 16; b mod 16 * 4]
  | a :: b :: c :: r =>
      [a / 4; a mod 4 * 16 + b / 16; b mod 16 * 4 + c / 64; c mod 64]
      ++ sextets r
  end.

(** A byte, as a [Uint8Array] holds it. *)
Definition isByte (b : Z) : Prop := 0 <= b < 256.

(** The padding [btoa] ends with. *)
Fixpoint padding (bs : list Z) : list Z :=
  match bs with
  | [] => []
  | [a] => [61; 61]
  | [a; b] => [61]
  | a :: b :: c :: r => padding r
  end.

(** The record [handleUpload] builds from the fields it has read. *)
Definition uploadedMeta (id : list Z) (u : UploadFields) (expiresAt : option Z)
    (now : Z) : Meta.t :=
  Meta.mk id (u_filename u) (u_mime u) (Z.of_nat (length (u_content u)))
    (u_type u) (u_subscriptionInfo u)
    (if str_eqb (u_type u) (js "subscription") then Some (u_content u) else None)
    (u_burnAfterRead u) expiresAt (storedNumber (u_maxDownloads u)) 0 now.

Definition uploadedUrl (id : list Z) (u : UploadFields) : list Z :=
  if str_eqb (u_type u) (js "subscription") then js "/sub/" ++ id
  else js "/raw/" ++ id.

(** The fields an upload request gives, or the response that rejects it. *)
Definition uploadFields (req : UploadRequest) : Response + UploadFields :=
  match req with
  | Multipart fd => readForm fd
  | Json b => inr (readJson b)
  end.

(** The response both downloads give for a record without overlay. *)
Definition plainDownload (meta : Meta.t) (content : list Z) : result Response :=
  if startsWith (js "text/") (Meta.contentType meta) then
    try! cd <- encodeFilename (Meta.filename meta);
    Ok (mkResponse 200 (BText content)
          (corsHeaders
           ++ [(js "Content-Type", Meta.contentType meta ++ js "; charset=utf-8");
               (js "Content-Disposition", cd)]))
  else
    try! bin <- atob content;
    try! cd <- encodeFilename (Meta.filename meta);
    Ok (mkResponse 200 (BBytes bin)
          (corsHeaders
           ++ [(js "Content-Type", Meta.contentType meta);
               (js "Content-Disposition", cd)])).

(** The characters a [filename*] value may hold as they are (a subset of
    the attr-char of RFC 5987), and the percent sign of an escape. *)
Definition isAttrChar (c : Z) : bool :=
  isAlnum c || bool_decide (c ∈ js "-_.!~%").

(** A UTF-16 code unit. *)
Definition isCodeUnit (c : Z) : Prop := 0 <= c < 65536.

(** The characters [encodeURIComponent] writes. *)
Definition isEncoded (c : Z) : bool := isUnreserved c || (c =? 37).

(** A visible ASCII character or the space. *)
Definition isVisible (c : Z) : bool := (32 <=? c) && (c <=? 126).

(** The two spellings of the disposition header the handlers write. *)
Definition lowerDisposition : list Z := js "content-disposition".
Definition upperDisposition : list Z := js "Content-Disposition".

(** The overlay of a record names the download. *)
Definition namedBy (meta : Meta.t) : option (list Z) :=
  match Meta.subscriptionInfo meta with
  | Some i => if filled (SubInfo.name i) then SubInfo.name i else None
  | None => None
  end.

(** ** Sample data of the instances

    A worker whose password is [secret], one without a password, and a
    moment of the environment: the clock at 1000, a random source that
    gives 0, an upstream that cannot be reached. *)
Definition sampleVars : Vars := mkVars (Some (js "secret")) None None None None.
Definition openVars : Vars := mkVars None None None None None.
Definition sampleWorld : World := mkWorld 1000 (fun _ => 0) (Throw (FetchError [])).
Definition emptyBody : JsonBody :=
  mkJsonBody None None None None None None None None None.
Definition sampleRequest (method target : list Z)
    (authorization : option (list Z)) (json : JsonRead) : Request :=
  mkRequest method target authorization None None json.
Definition adminRequest (method target : list Z) (json : JsonRead) : Request :=
  sampleRequest method target (Some (js "Bearer secret")) json.
(** A store with one record that expired at 500. *)
Definition staleStore : KV := sampleStore (sampleMeta false (Some 500) None 0).
Definition keptStore : KV := sampleStore (sampleMeta false None None 0).

(** A JSON upload under the slug [abc] with a limit of one download. *)
Definition limitedUpload : Request :=
  sampleRequest (js "POST") (js "/api/upload") None
    (JsonValue (mkJsonBody (Some (js "hi")) None None None None None None
                           (Some 1) (Some (js "abc"))) None None).

Definition limitedMeta : Meta.t :=
  Meta.mk (js "abc") (js "text.txt") (js "text/plain") 2 (js "text") None None
          false None (Some 1) 1 1000.

Definition plainUpload : UploadRequest :=
  Json (mkJsonBody (Some (js "hello")) None None None None None None None None).

Definition sampleFile : File := mkFile (js "a.bin") (js "application/zip") [1; 2; 3; 255].

Definition hourUpload : JsonBody :=
  mkJsonBody (Some (js "hello")) None None None None None (Some 1) None None.

Definition slugUpload : JsonBody :=
  mkJsonBody (Some (js "hello")) None None None None None None None
             (Some (js "abc")).

Definition lockedStore : KV := sampleStore (sampleMeta false None (Some (-1)) 0).

Definition namedMeta : Meta.t :=
  Meta.mk (js "abc") (js "note.txt") (js "text/plain") 5 (js "text")
          (Some (SubInfo.mk None None None None (Some (js "My Sub")))) None
          false None None 0 0.

Definition namedUpstream : Upstream :=
  mkUpstream true 200 (js "OK") (Ok (js "feed")) None (Some (js "24"))
             (Some (js "attachment; filename=up.yaml")).

(** * Properties *)

(** ** The record lifecycle *)

(** The keys of the two kinds never meet, and each kind names its record:
    the namespace splits into the two maps of [KV]. *)
Lemma keys_apart (id id' : list Z) : metaKey id <> contentKey id'.
Proof. unfold metaKey, contentKey. discriminate. Qed.

Lemma metaKey_inj (id id' : list Z) : metaKey id = metaKey id' -> id = id'.
Proof. unfold metaKey. apply app_inv_head. Qed.

Lemma contentKey_inj (id id' : list Z) :
  contentKey id = contentKey id' -> id = id'.
Proof. unfold contentKey. apply app_inv_head. Qed.

Section Lifecycle.
Variable host : list Z -> option Z.

(** Both routes run the same checks: one equation for [serve]. *)
Lemma serve_unfold (r : ReadRequest) (env : KV) :
  serve host r env =
  match getMeta env (requestId r) with
  | None => (notFound, env)
  | Some meta =>
      if isExpired meta (requestTime r) then
        (Ok (plain (expiredMessage r) 410),
         deleteContent (requestId r) (deleteMeta (requestId r) env))
      else if limitReached meta then (limitResponse, env)
      else
        match getContent env (requestId r) with
        | None | Some [] => (Ok (plain (js "No content") 404), env)
        | Some content =>
            (deliver host r (countDownload meta) content,
             burnOrPersist (requestId r) (countDownload meta) env)
        end
  end.
Proof.
  destruct r as [id now | id now fetched]; simpl;
    unfold handleRaw, handleSub, notFound, limitResponse;
    destruct (getMeta env id) as [meta|]; try reflexivity;
    destruct (isExpired meta now); try reflexivity;
    destruct (limitReached meta); try reflexivity;
    destruct (getContent env id) as [[|c content]|]; reflexivity.
Qed.

Lemma getMeta_deleteMeta (id id' : list Z) (env : KV) :
  getMeta (deleteMeta id env) id' =
  if decide (id = id') then None else getMeta env id'.
Proof. unfold getMeta, deleteMeta; simpl. apply lookup_delete. Qed.

Lemma getMeta_putMeta (id id' : list Z) (m : Meta.t) (env : KV) :
  getMeta (putMeta id m env) id' =
  if decide (id = id') then Some m else getMeta env id'.
Proof. unfold getMeta, putMeta; simpl. apply lookup_insert. Qed.

Lemma getContent_deleteContent (id id' : list Z) (env : KV) :
  getContent (deleteContent id env) id' =
  if decide (id = id') then None else getContent env id'.
Proof. unfold getContent, deleteContent; simpl. apply lookup_delete. Qed.

(** A read never creates a metadata entry: it writes one only under the
    identifier it has just found. *)
Lemma serve_keeps_absent (r : ReadRequest) (env : KV) (id : list Z) :
  getMeta env id = None -> getMeta (serve host r env).2 id = None.
Proof.
  intros Habs. rewrite serve_unfold.
  destruct (getMeta env (requestId r)) as [meta|] eqn:Hm; [|exact Habs].
  assert (requestId r <> id) as Hne by congruence.
  destruct (isExpired meta (requestTime r)).
  { simpl. unfold getMeta, deleteContent; simpl.
    rewrite lookup_delete_ne by exact Hne. exact Habs. }
  destruct (limitReached meta); [exact Habs|].
  destruct (getContent env (requestId r)) as [[|c content]|];
    try exact Habs.
  simpl. unfold burnOrPersist.
  destruct (Meta.burnAfterRead (countDownload meta)).
  - unfold getMeta, deleteContent; simpl.
    rewrite lookup_delete_ne by exact Hne. exact Habs.
  - rewrite getMeta_putMeta. destruct (decide (requestId r = id)); congruence.
Qed.

Lemma serveAll_keeps_absent (rs : list ReadRequest) (env : KV) (id : list Z) :
  getMeta env id = None -> getMeta (serveAll host rs env) id = None.
Proof.
  revert env. induction rs as [|r rs IH]; intros env Habs; [exact Habs|].
  simpl. apply IH. apply serve_keeps_absent. exact Habs.
Qed.

(** Once the metadata entry is gone, every later read of the identifier is
    answered Not found, whatever reads happen in between. *)
Lemma gone_forever (rs : list ReadRequest) (r : ReadRequest) (env : KV) :
  getMeta env (requestId r) = None ->
  (serve host r (serveAll host rs env)).1 = notFound.
Proof.
  intros Habs. rewrite serve_unfold.
  rewrite (serveAll_keeps_absent rs env _ Habs). reflexivity.
Qed.

Lemma burned_both (id : list Z) (env : KV) :
  getMeta (deleteContent id (deleteMeta id env)) id = None
  /\ getContent (deleteContent id (deleteMeta id env)) id = None.
Proof.
  split.
  - unfold getMeta, deleteContent, deleteMeta; simpl. apply lookup_delete_eq.
  - unfold getContent, deleteContent, deleteMeta; simpl. apply lookup_delete_eq.
Qed.

Lemma countDownload_count (meta : Meta.t) :
  Meta.downloadCount (countDownload meta) = Meta.downloadCount meta + 1.
Proof.
  unfold countDownload, orNum; simpl.
  destruct (Z.eqb_spec (Meta.downloadCount meta) 0); lia.
Qed.

Lemma countDownload_eq (meta : Meta.t) :
  countDownload meta =
  Meta.setDownloadCount (Meta.downloadCount meta + 1) meta.
Proof.
  unfold countDownload, orNum.
  destruct (Z.eqb_spec (Meta.downloadCount meta) 0) as [->|]; reflexivity.
Qed.

(** A delivery is a 200 or a 502 response, or an exception. *)
Lemma deliver_status (r : ReadRequest) (meta : Meta.t) (content : list Z) :
  (exists b, statusOf (deliver host r meta content) = Some (200, b))
  \/ (exists b, statusOf (deliver host r meta content) = Some (502, b))
  \/ statusOf (deliver host r meta content) = None.
Proof.
  destruct r as [id now | id now fetched]; cbn [deliver].
  - unfold deliverRaw.
    destruct (buildSubscriptionHeaders _ _) as [subHeaders|];
      cbn [bind]; [|auto].
    destruct (startsWith (js "text/") (Meta.contentType meta)).
    + destruct (fallbackDisposition _ _); cbn [bind statusOf status payload];
        eauto.
    + destruct (atob _); cbn [bind]; [|auto].
      destruct (fallbackDisposition _ _); cbn [bind statusOf status payload];
        eauto.
  - unfold deliverSub.
    destruct (_ && _); [|cbn [statusOf status payload]; eauto].
    destruct (proxySubscription _ _ _) as [resp|e] eqn:Hp;
      [|cbn [statusOf status payload plain]; eauto].
    unfold proxySubscription in Hp.
    destruct fetched as [up|]; cbn [bind] in Hp; [|discriminate].
    destruct (negb (ok up));
      [injection Hp as <-; cbn [statusOf status payload plain]; eauto|].
    destruct (text up); cbn [bind] in Hp; [|discriminate].
    destruct (buildSubscriptionHeaders _ _); cbn [bind] in Hp; [|discriminate].
    injection Hp as <-. cbn [statusOf status payload]; eauto.
Qed.

(** A read that passes the three checks: the record is counted, then
    burned or persisted, then delivered. *)
Lemma serve_counted (r : ReadRequest) (env : KV) (meta : Meta.t)
    (content : list Z) :
  getMeta env (requestId r) = Some meta ->
  isExpired meta (requestTime r) = false ->
  limitReached meta = false ->
  getContent env (requestId r) = Some content ->
  content <> [] ->
  serve host r env
  = (deliver host r
       (Meta.setDownloadCount (Meta.downloadCount meta + 1) meta) content,
     burnOrPersist (requestId r)
       (Meta.setDownloadCount (Meta.downloadCount meta + 1) meta) env).
Proof.
  intros Hm Hexp Hlim Hc Hne.
  rewrite serve_unfold, Hm, Hexp, Hlim, Hc.
  destruct content as [|c content]; [congruence|].
  rewrite countDownload_eq. reflexivity.
Qed.

(** C1. A read of an existing record that is neither expired nor at its
    limit, and whose content is there, increments [downloadCount] by
    exactly one and then does exactly one of two things.  With
    [burnAfterRead] both entries are deleted, so that any later read of
    the identifier is answered Not found; without it, the store changes
    by one write, the metadata with the incremented count, and the
    content stays.  The response is the delivery of the counted record. *)
Theorem read_counts_then_burns_or_persists
    (r : ReadRequest) (env : KV) (meta : Meta.t) (content : list Z) :
  getMeta env (requestId r) = Some meta ->
  isExpired meta (requestTime r) = false ->
  limitReached meta = false ->
  getContent env (requestId r) = Some content ->
  content <> [] ->
  let id := requestId r in
  let counted := Meta.setDownloadCount (Meta.downloadCount meta + 1) meta in
  let env' := (serve host r env).2 in
  Meta.downloadCount meta < Meta.downloadCount counted
  /\ (serve host r env).1 = deliver host r counted content
  /\ (Meta.burnAfterRead meta = true ->
        getMeta env' id = None /\ getContent env' id = None
        /\ forall rs r', requestId r' = id ->
             (serve host r' (serveAll host rs env')).1 = notFound)
  /\ (Meta.burnAfterRead meta = false ->
        env' = putMeta id counted env
        /\ getMeta env' id = Some counted
        /\ getContent env' id = Some content).
Proof.
  intros Hm Hexp Hlim Hc Hne id counted env'.
  pose proof (serve_counted r env meta content Hm Hexp Hlim Hc Hne) as Hserve.
  fold id counted in Hserve.
  subst env'. rewrite Hserve. simpl.
  split; [simpl; lia|]. split; [reflexivity|].
  unfold burnOrPersist. change (Meta.burnAfterRead counted)
    with (Meta.burnAfterRead meta).
  split; intros Hb; rewrite Hb.
  - destruct (burned_both id env) as [H1 H2].
    split; [exact H1|]. split; [exact H2|].
    intros rs r' Hid. apply gone_forever. rewrite Hid. exact H1.
  - split; [reflexivity|]. split.
    + rewrite getMeta_putMeta. destruct (decide (id = id)); congruence.
    + exact Hc.
Qed.

(** C2, amended. A read of a record that is not expired and whose
    [maxDownloads] is a non-zero number that [downloadCount] has reached
    is answered 410 "Download limit reached" and leaves the store as it
    was: both entries stay and the count is unchanged. *)
Theorem limit_reached_rejects_and_keeps_record
    (r : ReadRequest) (env : KV) (meta : Meta.t) (n : Z) :
  getMeta env (requestId r) = Some meta ->
  isExpired meta (requestTime r) = false ->
  Meta.maxDownloads meta = Some n ->
  n <> 0 ->
  n <= Meta.downloadCount meta ->
  serve host r env = (limitResponse, env)
  /\ getMeta (serve host r env).2 (requestId r) = Some meta
  /\ getContent (serve host r env).2 (requestId r)
     = getContent env (requestId r).
Proof.
  intros Hm Hexp Hmax Hn Hle.
  assert (limitReached meta = true) as Hlim.
  { unfold limitReached. rewrite Hmax.
    destruct (Z.eqb_spec n 0); [contradiction|]. simpl. lia. }
  rewrite serve_unfold, Hm, Hexp, Hlim. simpl. auto.
Qed.

(** C3. A read of a record whose [expiresAt] is before the time of the
    read is answered 410 with the route's expired message and deletes both
    the metadata and the content entry; every later read of that
    identifier, on either route and after any other reads, is answered
    404 Not found. *)
Theorem expired_read_deletes_record
    (r : ReadRequest) (env : KV) (meta : Meta.t) (t : Z) :
  getMeta env (requestId r) = Some meta ->
  Meta.expiresAt meta = Some t ->
  t < requestTime r ->
  let env' := (serve host r env).2 in
  (serve host r env).1 = Ok (plain (expiredMessage r) 410)
  /\ getMeta env' (requestId r) = None
  /\ getContent env' (requestId r) = None
  /\ forall rs r', requestId r' = requestId r ->
       (serve host r' (serveAll host rs env')).1 = notFound.
Proof.
  intros Hm Ht Hlt env'.
  assert (isExpired meta (requestTime r) = true) as Hexp.
  { unfold isExpired. rewrite Ht. lia. }
  subst env'. rewrite serve_unfold, Hm, Hexp. simpl.
  destruct (burned_both (requestId r) env) as [H1 H2].
  split; [reflexivity|]. split; [exact H1|]. split; [exact H2|].
  intros rs r' Hid. apply gone_forever. rewrite Hid. exact H1.
Qed.

(** The record of [id] after [k] further counted reads. *)
Lemma serveAll_unlimited (rs : list ReadRequest) (env : KV)
    (meta : Meta.t) (content : list Z) (id : list Z) :
  Forall (fun r => requestId r = id /\ isExpired meta (requestTime r) = false) rs ->
  getMeta env id = Some meta ->
  getContent env id = Some content ->
  content <> [] ->
  Meta.burnAfterRead meta = false ->
  Meta.maxDownloads meta = None \/ Meta.maxDownloads meta = Some 0 ->
  getMeta (serveAll host rs env) id
    = Some (Meta.setDownloadCount
              (Meta.downloadCount meta + Z.of_nat (length rs)) meta)
  /\ getContent (serveAll host rs env) id = Some content.
Proof.
  revert env meta. induction rs as [|r rs IH]; intros env meta Hall Hm Hc Hne Hb Hmax.
  - simpl. rewrite Z.add_0_r. destruct meta; simpl. auto.
  - apply Forall_cons in Hall as [[Hid Hexp] Hall]. subst id.
    assert (limitReached meta = false) as Hlim.
    { unfold limitReached. destruct Hmax as [-> | ->]; reflexivity. }
    pose proof (serve_counted r env meta content Hm Hexp Hlim Hc Hne) as Hs.
    set (counted := Meta.setDownloadCount (Meta.downloadCount meta + 1) meta) in *.
    assert ((serve host r env).2 = putMeta (requestId r) counted env) as He.
    { rewrite Hs. unfold burnOrPersist. simpl Meta.burnAfterRead.
      rewrite Hb. reflexivity. }
    assert (getMeta (serve host r env).2 (requestId r) = Some counted) as Hm'.
    { rewrite He, getMeta_putMeta.
      destruct (decide (requestId r = requestId r)); congruence. }
    assert (getContent (serve host r env).2 (requestId r) = Some content) as Hc'.
    { rewrite He. exact Hc. }
    simpl serveAll.
    destruct (IH (serve host r env).2 counted) as [IH1 IH2]; auto.
    split; [|exact IH2].
    change (serveAll host (r :: rs) env)
      with (serveAll host rs (serve host r env).2).
    rewrite IH1. f_equal. unfold counted, Meta.setDownloadCount; simpl.
    f_equal. rewrite Nat2Z.inj_succ. lia.
Qed.

(** C10. A record whose [maxDownloads] is null or 0 has no download
    limit: whatever its [downloadCount], no read of it is answered
    "Download limit reached"; and if it is kept after reading, has
    content and does not expire, then after any number of reads the next
    one is again delivered, the count having grown by one per read. *)
Theorem falsy_maxDownloads_means_no_limit
    (r : ReadRequest) (env : KV) (meta : Meta.t) :
  getMeta env (requestId r) = Some meta ->
  Meta.maxDownloads meta = None \/ Meta.maxDownloads meta = Some 0 ->
  limitReached meta = false
  /\ (serve host r env).1 <> limitResponse
  /\ forall (rs : list ReadRequest) (content : list Z),
       Forall (fun r' => requestId r' = requestId r
                         /\ isExpired meta (requestTime r') = false) (r :: rs) ->
       getContent env (requestId r) = Some content ->
       content <> [] ->
       Meta.burnAfterRead meta = false ->
       serve host r (serveAll host rs env)
       = (deliver host r
            (Meta.setDownloadCount
               (Meta.downloadCount meta + Z.of_nat (length rs) + 1) meta)
            content,
          putMeta (requestId r)
            (Meta.setDownloadCount
               (Meta.downloadCount meta + Z.of_nat (length rs) + 1) meta)
            (serveAll host rs env)).
Proof.
  intros Hm Hmax.
  assert (limitReached meta = false) as Hlim.
  { unfold limitReached. destruct Hmax as [-> | ->]; reflexivity. }
  split; [exact Hlim|]. split.
  - rewrite serve_unfold, Hm, Hlim. intros Heq.
    apply (f_equal statusOf) in Heq. revert Heq.
    unfold limitResponse. cbn [statusOf plain status payload].
    destruct (isExpired meta (requestTime r)).
    { cbn [fst statusOf plain status payload]. intros Heq.
      injection Heq as Heq. destruct r; vm_compute in Heq; discriminate. }
    destruct (getContent env (requestId r)) as [[|c content]|];
      cbn [fst statusOf plain status payload]; try discriminate.
    destruct (deliver_status r (countDownload meta) (c :: content))
      as [[b ->] | [[b ->] | ->]]; discriminate.
  - intros rs content Hall Hc Hne Hb.
    apply Forall_cons in Hall as [[_ Hexp] Hall].
    destruct (serveAll_unlimited rs env meta content (requestId r)
                Hall Hm Hc Hne Hb Hmax) as [Hm' Hc'].
    rewrite serve_unfold, Hm', Hc'.
    change (isExpired (Meta.setDownloadCount _ meta) (requestTime r))
      with (isExpired meta (requestTime r)).
    rewrite Hexp.
    assert (limitReached (Meta.setDownloadCount
              (Meta.downloadCount meta + Z.of_nat (length rs)) meta) = false)
      as ->.
    { unfold limitReached; simpl. destruct Hmax as [-> | ->]; reflexivity. }
    destruct content as [|c content]; [congruence|].
    rewrite countDownload_eq. simpl Meta.downloadCount.
    unfold burnOrPersist. simpl Meta.burnAfterRead. rewrite Hb.
    reflexivity.
Qed.
End Lifecycle.

(** The record lifecycle at the sample record. *)

Lemma read_counts_witness :
  getMeta (sampleStore (sampleMeta false None None 0)) (js "abc")
  = Some (sampleMeta false None None 0)
  /\ getMeta (serve noHost (GetRaw (js "abc") 1000)
                (sampleStore (sampleMeta false None None 0))).2 (js "abc")
     = Some (sampleMeta false None None 1).
Proof.
  assert (getMeta (sampleStore (sampleMeta false None None 0)) (js "abc")
          = Some (sampleMeta false None None 0)) as Hm
    by (vm_compute; reflexivity).
  split; [exact Hm|].
  destruct (read_counts_then_burns_or_persists noHost
              (GetRaw (js "abc") 1000)
              (sampleStore (sampleMeta false None None 0))
              (sampleMeta false None None 0) (js "hello") Hm)
    as (_ & _ & _ & Hp);
    [reflexivity | reflexivity | vm_compute; reflexivity | discriminate |].
  apply Hp. reflexivity.
Defined.

Lemma limit_reached_witness :
  getMeta (sampleStore (sampleMeta false None (Some 3) 3)) (js "abc")
  = Some (sampleMeta false None (Some 3) 3)
  /\ serve noHost (GetRaw (js "abc") 1000)
        (sampleStore (sampleMeta false None (Some 3) 3))
     = (limitResponse, sampleStore (sampleMeta false None (Some 3) 3)).
Proof.
  assert (getMeta (sampleStore (sampleMeta false None (Some 3) 3)) (js "abc")
          = Some (sampleMeta false None (Some 3) 3)) as Hm
    by (vm_compute; reflexivity).
  split; [exact Hm|].
  apply (limit_reached_rejects_and_keeps_record noHost
           (GetRaw (js "abc") 1000) _ _ 3 Hm);
    [reflexivity | reflexivity | discriminate | simpl; lia].
Defined.

(** C2 as stated fails on two records that have [maxDownloads] set and
    reached.  One is also expired: the expiry check comes first, so the
    read is answered "File expired" and deletes both entries.  The other has
    [maxDownloads] 0: the limit check is skipped, the content is served and
    the count grows. *)
Lemma limit_reached_counterexample :
  (Meta.maxDownloads (sampleMeta false (Some 500) (Some 1) 1) = Some 1
   /\ 1 <= Meta.downloadCount (sampleMeta false (Some 500) (Some 1) 1)
   /\ (serve noHost (GetRaw (js "abc") 1000)
          (sampleStore (sampleMeta false (Some 500) (Some 1) 1))).1
      = Ok (plain (js "File expired") 410)
   /\ getMeta (serve noHost (GetRaw (js "abc") 1000)
                 (sampleStore (sampleMeta false (Some 500) (Some 1) 1))).2
              (js "abc") = None
   /\ getContent (serve noHost (GetRaw (js "abc") 1000)
                    (sampleStore (sampleMeta false (Some 500) (Some 1) 1))).2
                 (js "abc") = None)
  /\ (Meta.maxDownloads (sampleMeta false None (Some 0) 0) = Some 0
      /\ 0 <= Meta.downloadCount (sampleMeta false None (Some 0) 0)
      /\ statusOf (serve noHost (GetRaw (js "abc") 1000)
                     (sampleStore (sampleMeta false None (Some 0) 0))).1
         = Some (200, BText (js "hello"))
      /\ getMeta (serve noHost (GetRaw (js "abc") 1000)
                    (sampleStore (sampleMeta false None (Some 0) 0))).2
                 (js "abc")
         = Some (sampleMeta false None (Some 0) 1)).
Proof.
  split.
  - split; [reflexivity|]. split; [simpl; lia|].
    split; [vm_compute; reflexivity|].
    split; vm_compute; reflexivity.
  - split; [reflexivity|]. split; [simpl; lia|].
    split; vm_compute; reflexivity.
Qed.

Lemma expired_read_witness :
  getMeta (sampleStore (sampleMeta false (Some 500) None 0)) (js "abc")
  = Some (sampleMeta false (Some 500) None 0)
  /\ (serve noHost (GetSub (js "abc") 1000 (Throw (FetchError [])))
        (sampleStore (sampleMeta false (Some 500) None 0))).1
     = Ok (plain (js "Subscription expired") 410)
  /\ (serve noHost (GetRaw (js "abc") 2000)
        (serveAll noHost []
           (serve noHost (GetSub (js "abc") 1000 (Throw (FetchError [])))
              (sampleStore (sampleMeta false (Some 500) None 0))).2)).1
     = notFound.
Proof.
  assert (getMeta (sampleStore (sampleMeta false (Some 500) None 0)) (js "abc")
          = Some (sampleMeta false (Some 500) None 0)) as Hm
    by (vm_compute; reflexivity).
  split; [exact Hm|].
  destruct (expired_read_deletes_record noHost
              (GetSub (js "abc") 1000 (Throw (FetchError [])))
              _ _ 500 Hm) as (Hr & _ & _ & Hlater);
    [reflexivity | simpl; lia |].
  split; [exact Hr|].
  apply Hlater. reflexivity.
Defined.

Lemma falsy_maxDownloads_witness :
  getMeta (sampleStore (sampleMeta false None (Some 0) 7)) (js "abc")
  = Some (sampleMeta false None (Some 0) 7)
  /\ (serve noHost (GetRaw (js "abc") 1000)
        (sampleStore (sampleMeta false None (Some 0) 7))).1
     <> limitResponse.
Proof.
  assert (getMeta (sampleStore (sampleMeta false None (Some 0) 7)) (js "abc")
          = Some (sampleMeta false None (Some 0) 7)) as Hm
    by (vm_compute; reflexivity).
  split; [exact Hm|].
  apply (falsy_maxDownloads_means_no_limit noHost
           (GetRaw (js "abc") 1000) _ _ Hm).
  right. reflexivity.
Defined.

(** ** Numbers and their printing *)

Lemma decimalDigits_go_value (fuel : nat) (n : Z) (acc : list Z) :
  0 <= n < 10 ^ Z.of_nat fuel ->
  fold_left (fun a c => 10 * a + (c - 48)) (decimalDigits_go fuel n acc) 0
  = fold_left (fun a c => 10 * a + (c - 48)) acc n.
Proof.
  revert n acc. induction fuel as [|f IH]; intros n acc Hn.
  { simpl in *. replace n with 0 by lia. reflexivity. }
  cbn [decimalDigits_go].
  assert (fold_left (fun a c => 10 * a + (c - 48)) ((48 + n mod 10) :: acc) (n / 10)
          = fold_left (fun a c => 10 * a + (c - 48)) acc n) as Hstep.
  { simpl. f_equal. pose proof (Z.div_mod n 10 ltac:(lia)). lia. }
  destruct (Z.ltb_spec n 10) as [Hlt|Hge].
  - rewrite <- Hstep. simpl. rewrite Z.div_small by lia. reflexivity.
  - rewrite IH; [exact Hstep|]. split; [apply Z.div_pos; lia|].
    apply Z.div_lt_upper_bound; [lia|].
    rewrite Nat2Z.inj_succ, Z.pow_succ_r in Hn by lia. lia.
Qed.

(** The digits printed for a non-negative integer read back as it: the
    fuel of [decimalDigits] is enough. *)
Lemma decimalDigits_value (n : Z) : 0 <= n -> digitsValue (decimalDigits n) = n.
Proof.
  intros Hn. unfold digitsValue, decimalDigits.
  rewrite decimalDigits_go_value; [reflexivity|]. split; [exact Hn|].
  destruct (Z.eq_dec n 0) as [->|Hn0]; [reflexivity|].
  rewrite Nat2Z.inj_succ, Z2Nat.id by apply Z.log2_nonneg.
  destruct (Z.log2_spec n ltac:(lia)) as [_ Hhi].
  eapply Z.lt_le_trans; [exact Hhi|].
  apply Z.pow_le_mono_l. lia.
Qed.

(** Doubles as the engine prints them: exact digits up to 2^53, the
    shortest digits that read back beyond, the exponent form from 10^21. *)
Example print_samples :
  numToString (Int 0) = js "0"
  /\ numToString (Int (-15)) = js "-15"
  /\ numToString (Int (2 ^ 53)) = js "9007199254740992"
  /\ numToString (Int (2 ^ 60)) = js "1152921504606847000"
  /\ numToString (Int (2 ^ 70)) = js "1.1805916207174113e+21"
  /\ numToString (Int (10 ^ 21)) = js "1e+21"
  /\ numToString NaN = js "NaN".
Proof. repeat split; vm_compute; reflexivity. Qed.

(** Decimal literals as the engine rounds them. *)
Example parseFloat_samples :
  parseFloat (js "0.1") = DFin 7205759403792794 (-56)
  /\ parseFloat (js "9007199254740993") = DFin 4503599627370496 1
  /\ parseFloat (js "1.2.3") = parseFloat (js "1.2")
  /\ parseFloat (js "5.") = parseFloat (js "5")
  /\ parseFloat (js ".") = DNaN
  /\ parseFloat (js "..5") = DNaN.
Proof. repeat split; vm_compute; reflexivity. Qed.

(** ** The size parser *)

Lemma take_drop_while (p : Z -> bool) (s : list Z) :
  takeWhile p s ++ dropWhile p s = s.
Proof.
  induction s as [|c s IH]; [reflexivity|]. simpl.
  destruct (p c); [simpl; f_equal; exact IH | reflexivity].
Qed.

Lemma takeWhile_Forall (p : Z -> bool) (s : list Z) :
  Forall (fun c => p c = true) (takeWhile p s).
Proof.
  induction s as [|c s IH]; simpl; [constructor|].
  destruct (p c) eqn:Hc; constructor; assumption.
Qed.

Lemma dropWhile_head (p : Z -> bool) (s : list Z) (c : Z) (r : list Z) :
  dropWhile p s = c :: r -> p c = false.
Proof.
  induction s as [|d s IH]; simpl; [discriminate|].
  destruct (p d) eqn:Hd; [exact IH|]. intros [= <- _]. exact Hd.
Qed.

Lemma while_app (p : Z -> bool) (a b : list Z) :
  Forall (fun c => p c = true) a -> stopsAt p b ->
  takeWhile p (a ++ b) = a /\ dropWhile p (a ++ b) = b.
Proof.
  intros Ha Hb. induction Ha as [|c a Hc Ha IH]; simpl.
  - destruct b as [|d b]; simpl in *; [auto|]. rewrite Hb. auto.
  - rewrite Hc. destruct IH as [-> ->]. auto.
Qed.

Lemma dropWhile_stops (p : Z -> bool) (s : list Z) : stopsAt p (dropWhile p s).
Proof.
  destruct (dropWhile p s) as [|c r] eqn:H; simpl; [exact I|].
  eapply dropWhile_head; exact H.
Qed.

(** A unit token begins with one of the letters B, G, K, M, T in either
    case, which is neither a digit, a dot, nor white space. *)
Lemma unit_token_head (u : list Z) :
  toUpperCase u ∈ unitTokens ->
  exists c r, u = c :: r /\ isDigitOrDot c = false /\ isWhiteSpace c = false.
Proof.
  intros Hin. destruct u as [|c r].
  { exfalso. vm_compute in Hin.
    repeat (apply elem_of_cons in Hin as [Hin|Hin]; [discriminate|]).
    inversion Hin. }
  exists c, r. split; [reflexivity|].
  assert (upperUnit c = 71 \/ upperUnit c = 77 \/ upperUnit c = 84
          \/ upperUnit c = 75 \/ upperUnit c = 66) as Hc.
  { unfold unitTokens in Hin. simpl toUpperCase in Hin.
    repeat (apply elem_of_cons in Hin as [Hin|Hin];
            [vm_compute in Hin; injection Hin; intros; tauto|]).
    inversion Hin. }
  unfold upperUnit in Hc. unfold isDigitOrDot, isDigit, isWhiteSpace.
  destruct ((97 <=? c) && (c <=? 122)) eqn:Hlow; lia.
Qed.

Lemma isUnitToken_spec (u : list Z) :
  isUnitToken u = true <-> toUpperCase u ∈ unitTokens.
Proof.
  unfold isUnitToken. rewrite existsb_exists. split.
  - intros (t & Hin & Heq). unfold str_eqb in Heq.
    apply bool_decide_eq_true in Heq. subst t.
    apply list_elem_of_In. exact Hin.
  - intros Hin. exists (toUpperCase u). split.
    + apply list_elem_of_In. exact Hin.
    + unfold str_eqb. apply bool_decide_eq_true. reflexivity.
Qed.

Lemma matchSize_syntax (num ws unit : list Z) :
  sizeSyntax num ws unit ->
  matchSize (num ++ ws ++ unit)
  = Some (num, match unit with [] => None | _ => Some unit end).
Proof.
  intros (Hne & Hnum & Hws & Hunit). unfold matchSize.
  assert (stopsAt isWhiteSpace unit /\ stopsAt isDigitOrDot unit) as [Hu1 Hu2].
  { destruct Hunit as [-> | Hin]; [simpl; auto|].
    destruct (unit_token_head unit Hin) as (c & r & -> & H1 & H2).
    simpl; auto. }
  assert (stopsAt isDigitOrDot (ws ++ unit)) as Hstop.
  { destruct Hws as [|c ws Hc Hws]; [exact Hu2|]. simpl.
    unfold isDigitOrDot, isDigit. unfold isWhiteSpace in Hc. lia. }
  destruct (while_app isDigitOrDot num (ws ++ unit) Hnum Hstop) as [-> ->].
  destruct (while_app isWhiteSpace ws unit Hws Hu1) as [_ ->].
  destruct num as [|c num]; [congruence|].
  destruct unit as [|u unit]; [reflexivity|].
  destruct Hunit as [Hnil | Hin]; [discriminate|].
  apply isUnitToken_spec in Hin. rewrite Hin. reflexivity.
Qed.

Lemma matchSize_inv (s g1 : list Z) (g2 : option (list Z)) :
  matchSize s = Some (g1, g2) ->
  exists ws unit, s = g1 ++ ws ++ unit /\ sizeSyntax g1 ws unit
                  /\ g2 = match unit with [] => None | _ => Some unit end.
Proof.
  unfold matchSize. intros H.
  pose proof (take_drop_while isDigitOrDot s) as Hs.
  pose proof (take_drop_while isWhiteSpace (dropWhile isDigitOrDot s)) as Hr.
  pose proof (takeWhile_Forall isDigitOrDot s) as Hnum.
  pose proof (takeWhile_Forall isWhiteSpace (dropWhile isDigitOrDot s)) as Hws.
  destruct (takeWhile isDigitOrDot s) as [|c num] eqn:Htake; [discriminate|].
  exists (takeWhile isWhiteSpace (dropWhile isDigitOrDot s)),
         (dropWhile isWhiteSpace (dropWhile isDigitOrDot s)).
  destruct (dropWhile isWhiteSpace (dropWhile isDigitOrDot s))
    as [|u unit] eqn:Hdrop.
  - injection H as <- <-. rewrite Hr. split; [symmetry; exact Hs|].
    split; [|reflexivity].
    split; [discriminate|]. split; [exact Hnum|]. split; [exact Hws|].
    left. reflexivity.
  - destruct (isUnitToken (u :: unit)) eqn:Hu; [|discriminate].
    injection H as <- <-. rewrite Hr. split; [symmetry; exact Hs|].
    split; [|reflexivity].
    split; [discriminate|]. split; [exact Hnum|]. split; [exact Hws|].
    right. apply isUnitToken_spec. exact Hu.
Qed.

Lemma unitExponent_default (unit : list Z) :
  unit = [] \/ toUpperCase unit ∈ unitTokens ->
  default 0 (assoc (toUpperCase
                      (default (js "B")
                         match unit with [] => None | _ => Some unit end))
               units)
  = unitExponent unit
  /\ unitExponent unit ∈ [0; 10; 20; 30; 40]
  /\ unitMultiplier unit = 2 ^ unitExponent unit.
Proof.
  unfold unitMultiplier, unitExponent.
  intros [-> | Hin].
  { split; [reflexivity|]. split; [|reflexivity].
    apply list_elem_of_In. vm_compute. tauto. }
  destruct (unit_token_head unit Hin) as (u & rest & -> & _).
  simpl default at 2. split; [reflexivity|].
  unfold unitTokens in Hin.
  repeat (apply elem_of_cons in Hin as [-> | Hin];
          [split; [apply list_elem_of_In; vm_compute; tauto | reflexivity]|]).
  inversion Hin.
Qed.

Lemma roundToDouble_not_NaN (p q : Z) : roundToDouble p q <> DNaN.
Proof.
  unfold roundToDouble. destruct (p <=? 0); [discriminate|].
  cbv zeta. destruct (2 ^ 1024 <=? _); discriminate.
Qed.

Lemma floor_is_integer (x : dyadic) (k : Z) :
  x <> DNaN ->
  Math_floor (mulPow2 x k) = Infinity
  \/ exists z, Math_floor (mulPow2 x k) = Int z.
Proof.
  intros Hx. destruct x as [| |m e]; [congruence | left; reflexivity |].
  simpl. destruct (2 ^ 1024 <=? _); simpl; eauto.
Qed.

Lemma parseFloat_decimal (num : list Z) :
  decimalPrefix num -> parseFloat num <> DNaN.
Proof.
  unfold decimalPrefix, parseFloat. destruct num as [|c rest]; [tauto|].
  intros [Hc | [-> Hd]].
  - simpl. rewrite Hc. apply roundToDouble_not_NaN.
  - destruct rest as [|d rest]; [tauto|].
    change (takeWhile isDigit (46 :: d :: rest)) with (@nil Z).
    change (dropWhile isDigit (46 :: d :: rest)) with (46 :: d :: rest).
    cbv iota beta. simpl takeWhile. rewrite Hd.
    apply roundToDouble_not_NaN.
Qed.

Lemma roundToDouble_int (p : Z) :
  0 < p < 2 ^ 53 ->
  roundToDouble p 1 = DFin (p * 2 ^ (52 - Z.log2 p)) (Z.log2 p - 52).
Proof.
  intros [Hp0 Hp].
  destruct (Z.log2_spec p Hp0) as [Hlo Hhi].
  assert (0 <= Z.log2 p < 53) as HL.
  { split; [apply Z.log2_nonneg|]. apply Z.log2_lt_pow2; lia. }
  set (L := Z.log2 p) in *.
  assert (2 ^ 52 <= p * 2 ^ (52 - L) < 2 ^ 53) as Hm.
  { replace (2 ^ 52) with (2 ^ L * 2 ^ (52 - L))
      by (rewrite <- Z.pow_add_r by lia; f_equal; lia).
    replace (2 ^ 53) with (2 ^ Z.succ L * 2 ^ (52 - L))
      by (rewrite <- Z.pow_add_r by lia; f_equal; lia).
    assert (0 < 2 ^ (52 - L)) by (apply Z.pow_pos_nonneg; lia).
    split; nia. }
  assert (forall e, e = L - 52 -> scaledQuotient p 1 e = p * 2 ^ (52 - L)
                                  /\ roundAt p 1 e = p * 2 ^ (52 - L)) as Hq.
  { intros e ->. unfold scaledQuotient, roundAt.
    destruct (Z.leb_spec 0 (L - 52)) as [Hz|Hz].
    - replace (L - 52) with 0 by lia. replace (52 - L) with 0 by lia.
      change (1 * 2 ^ 0) with 1. cbv zeta.
      rewrite Z.div_1_r, Z.mod_1_r. simpl. split; lia.
    - replace (- (L - 52)) with (52 - L) by lia. cbv zeta.
      rewrite Z.div_1_r, Z.mod_1_r. simpl. split; lia. }
  assert (ulpExponent p 1 = L - 52) as He.
  { unfold ulpExponent. change (Z.log2 1) with 0. fold L. cbv zeta.
    replace (L - 0 - 52) with (L - 52) by lia.
    destruct (Hq (L - 52) eq_refl) as [-> _].
    destruct (Z.ltb_spec (p * 2 ^ (52 - L)) (2 ^ 52)); lia. }
  unfold roundToDouble.
  destruct (Z.leb_spec p 0) as [?|_]; [lia|].
  cbv zeta. rewrite He. destruct (Hq (L - 52) eq_refl) as [_ ->].
  destruct (Z.leb_spec (2 ^ 1024) (p * 2 ^ (52 - L) * 2 ^ (L - 52))) as [Hov|_];
    [|reflexivity].
  exfalso.
  assert (2 ^ (L - 52) <= 1).
  { destruct (Z.eq_dec L 52) as [->|]; [simpl; lia|].
    rewrite Z.pow_neg_r by lia. lia. }
  assert (2 ^ 53 < 2 ^ 1024) by (apply Z.pow_lt_mono_r; lia).
  nia.
Qed.

Lemma floor_int_exact (p k : Z) :
  0 <= p < 2 ^ 53 -> 0 <= k <= 40 ->
  Math_floor (mulPow2 (roundToDouble p 1) k) = Int (p * 2 ^ k).
Proof.
  intros Hp Hk.
  assert (2 ^ 93 < 2 ^ 1024) as Hbig by (apply Z.pow_lt_mono_r; lia).
  destruct (Z.eq_dec p 0) as [->|Hp0].
  { change (roundToDouble 0 1) with (DFin 0 0). unfold mulPow2.
    rewrite Z.mul_0_l. destruct (Z.leb_spec (2 ^ 1024) 0); [lia|].
    unfold Math_floor. rewrite !Z.mul_0_l.
    destruct (Z.leb_spec 0 (0 + k)); [reflexivity|lia]. }
  rewrite roundToDouble_int by lia.
  assert (0 <= Z.log2 p < 53) as HL.
  { split; [apply Z.log2_nonneg|]. apply Z.log2_lt_pow2; lia. }
  set (L := Z.log2 p) in *.
  assert (0 < 2 ^ (52 - L)) as Hpos by (apply Z.pow_pos_nonneg; lia).
  assert (forall j, L - 52 + j >= 0 ->
            p * 2 ^ (52 - L) * 2 ^ (L - 52 + j) = p * 2 ^ j) as Hup.
  { intros j Hj. rewrite <- Z.mul_assoc, <- Z.pow_add_r by lia.
    f_equal. f_equal. lia. }
  unfold mulPow2.
  destruct (Z.leb_spec (2 ^ 1024) (p * 2 ^ (52 - L) * 2 ^ (L - 52 + k)))
    as [Hov|_].
  { exfalso. destruct (Z_lt_le_dec (L - 52 + k) 0) as [Hneg|Hnn].
    - rewrite (Z.pow_neg_r 2 (L - 52 + k)) in Hov by lia. lia.
    - rewrite Hup in Hov by lia.
      assert (2 ^ k <= 2 ^ 40) by (apply Z.pow_le_mono_r; lia).
      assert (2 ^ 53 * 2 ^ 40 = 2 ^ 93) by (rewrite <- Z.pow_add_r; lia).
      assert (0 < 2 ^ k) by (apply Z.pow_pos_nonneg; lia).
      nia. }
  unfold Math_floor. f_equal.
  destruct (Z.leb_spec 0 (L - 52 + k)) as [Hnn|Hneg].
  - apply Hup. lia.
  - replace (52 - L) with (k + (- (L - 52 + k))) by lia.
    rewrite Z.pow_add_r by lia. rewrite Z.mul_assoc.
    apply Z.div_mul. apply Z.pow_nonzero; lia.
Qed.

Lemma digits_fold_nonneg (ds : list Z) (acc : Z) :
  Forall (fun c => isDigit c = true) ds -> 0 <= acc ->
  0 <= fold_left (fun a c => 10 * a + (c - 48)) ds acc.
Proof.
  intros H. revert acc.
  induction H as [|c ds Hc _ IH]; intros acc Hacc; simpl; [lia|].
  apply IH. unfold isDigit in Hc. lia.
Qed.

Lemma digitsValue_nonneg (ds : list Z) :
  Forall (fun c => isDigit c = true) ds -> 0 <= digitsValue ds.
Proof. intros H. apply digits_fold_nonneg; [exact H | lia]. Qed.

Lemma parseFloat_digits (ds : list Z) :
  ds <> [] -> Forall (fun c => isDigit c = true) ds ->
  parseFloat ds = roundToDouble (digitsValue ds) 1.
Proof.
  intros Hne Hds. unfold parseFloat.
  destruct (while_app isDigit ds [] Hds I) as [Ht Hd].
  rewrite app_nil_r in Ht, Hd. rewrite Ht, Hd, app_nil_r.
  destruct ds as [|c ds]; [congruence|]. reflexivity.
Qed.

Lemma parseSize_match (num ws unit : list Z) :
  sizeSyntax num ws unit ->
  parseSize (num ++ ws ++ unit)
  = Math_floor (mulPow2 (parseFloat num) (unitExponent unit)).
Proof.
  intros Hsyn. unfold parseSize.
  rewrite (matchSize_syntax num ws unit Hsyn).
  destruct Hsyn as (Hne & _ & _ & Hunit).
  destruct (unitExponent_default unit Hunit) as [-> _].
  destruct num as [|c num]; [congruence|]. reflexivity.
Qed.

Lemma parseSize_nomatch (s : list Z) :
  (forall num ws unit, s = num ++ ws ++ unit -> ~ sizeSyntax num ws unit) ->
  parseSize s = Int 0.
Proof.
  intros Hno. unfold parseSize. destruct s as [|c s]; [reflexivity|].
  destruct (matchSize (c :: s)) as [[g1 g2]|] eqn:Hm; [|reflexivity].
  destruct (matchSize_inv _ _ _ Hm) as (ws & unit & Hs & Hsyn & _).
  exfalso. exact (Hno g1 ws unit Hs Hsyn).
Qed.

Lemma parseSize_exact (ds ws unit : list Z) :
  sizeSyntax ds ws unit ->
  Forall (fun c => isDigit c = true) ds ->
  digitsValue ds < 2 ^ 53 ->
  parseSize (ds ++ ws ++ unit) = Int (digitsValue ds * unitMultiplier unit).
Proof.
  intros Hsyn Hds Hlt. rewrite (parseSize_match _ _ _ Hsyn).
  destruct Hsyn as (Hne & _ & _ & Hunit).
  destruct (unitExponent_default unit Hunit) as (_ & Hk & ->).
  rewrite (parseFloat_digits ds Hne Hds).
  apply floor_int_exact.
  - split; [apply digitsValue_nonneg; exact Hds | exact Hlt].
  - repeat (apply elem_of_cons in Hk as [-> | Hk]; [lia|]). inversion Hk.
Qed.

(** C7, amended. [parseSize] matches the size syntax against the whole
    string as it is given, without trimming it.  An input outside the
    syntax, the empty string and a string with white space before the
    number or after the unit among them, yields 0.  On an input inside the
    syntax whose run of digits and dots begins with a decimal literal, the
    number read is multiplied by the unit's multiplier and floored: the
    result is an integer, or Infinity past the largest double; when the run
    is a plain integer below 2^53 the result is exactly that integer times
    the unit's power of 1024, bytes when there is no unit. *)
Theorem parseSize_matches_whole_string (s : list Z) :
  ((forall num ws unit, s = num ++ ws ++ unit -> ~ sizeSyntax num ws unit) ->
   parseSize s = Int 0)
  /\ (forall num ws unit,
        s = num ++ ws ++ unit -> sizeSyntax num ws unit ->
        (decimalPrefix num ->
           parseSize s
           = Math_floor (mulPow2 (parseFloat num) (unitExponent unit))
           /\ (parseSize s = Infinity \/ exists z, parseSize s = Int z))
        /\ (Forall (fun c => isDigit c = true) num ->
            digitsValue num < 2 ^ 53 ->
            parseSize s = Int (digitsValue num * unitMultiplier unit)))
  /\ parseSize (js "10GB") = Int (10 * 1024 ^ 3)
  /\ parseSize (js "") = Int 0
  /\ parseSize (js "garbage") = Int 0
  /\ parseSize (js "5") = Int 5.
Proof.
  split; [apply parseSize_nomatch|].
  split; [|repeat split; vm_compute; reflexivity].
  intros num ws unit -> Hsyn. split.
  - intros Hdec. rewrite (parseSize_match _ _ _ Hsyn).
    split; [reflexivity|].
    apply floor_is_integer. apply parseFloat_decimal. exact Hdec.
  - intros Hds Hlt. apply parseSize_exact; assumption.
Qed.

Lemma parseSize_witness :
  sizeSyntax (js "12") (js " ") (js "kb")
  /\ parseSize (js "12 kb") = Int (12 * 1024).
Proof.
  assert (sizeSyntax (js "12") (js " ") (js "kb")) as Hsyn.
  { split; [discriminate|]. split; [repeat constructor|].
    split; [repeat constructor|]. right.
    apply list_elem_of_In. vm_compute. tauto. }
  split; [exact Hsyn|].
  destruct (parseSize_matches_whole_string (js "12 kb")) as (_ & Hm & _).
  destruct (Hm (js "12") (js " ") (js "kb") eq_refl Hsyn) as [_ Hexact].
  apply Hexact; [repeat constructor | vm_compute; reflexivity].
Defined.

(** Sizes as the parser reads them.  The last two: a run of digits and
    dots with no decimal literal in front matches the pattern and is not a
    number, and the result is NaN. *)
Example parseSize_samples :
  parseSize (js "1.5 kb") = Int 1536
  /\ parseSize (js "0.1GB") = Int 107374182
  /\ parseSize (js "5 ") = Int 5
  /\ parseSize (js "GB") = Int 0
  /\ parseSize (js ".") = NaN
  /\ parseSize (js "..5MB") = NaN.
Proof. repeat split; vm_compute; reflexivity. Qed.

(** C7 as stated fails: the string is not trimmed before it is matched.
    White space before the number, or after the unit, makes the result 0,
    where the trimmed string reads as a size.  And what is matched is a run
    of digits and dots, not a decimal number: of [1.2.3MB] the literal
    [1.2] is read, where a malformed input should yield 0. *)
Lemma parseSize_counterexample :
  (trim (js " 5") = js "5" /\ parseSize (js "5") = Int 5
   /\ parseSize (js " 5") = Int 0)
  /\ (trim (js "10GB ") = js "10GB" /\ parseSize (js "10GB") = Int (10 * 1024 ^ 3)
      /\ parseSize (js "10GB ") = Int 0)
  /\ parseSize (js "1.2.3MB") = Int 1258291.
Proof. repeat split; vm_compute; reflexivity. Qed.

(** ** The header builder *)

Section Builder.
Variable host : list Z -> option Z.

(** A field is used when it is present and not blank. *)
Lemma filled_spec (x : option (list Z)) :
  filled x = true <-> exists s, x = Some s /\ trim s <> [].
Proof.
  unfold filled, str_eqb. split.
  - destruct x as [s|]; [|discriminate]. intros H.
    apply andb_true_iff in H as [_ H]. apply negb_true_iff in H.
    apply bool_decide_eq_false in H. eauto.
  - intros (s & -> & Hs). apply andb_true_iff. split; apply negb_true_iff;
      apply bool_decide_eq_false; [|exact Hs].
    intros ->. apply Hs. reflexivity.
Qed.

Lemma filled_keyCount (i : SubInfo.t) :
  filled (SubInfo.upload i) || filled (SubInfo.download i)
  || filled (SubInfo.total i) || filled (SubInfo.expire i) = true ->
  (0 <? keyCount i) = true.
Proof.
  unfold keyCount. destruct i as [u d t e n]; simpl.
  destruct u, d, t, e, n; simpl; try reflexivity; discriminate.
Qed.

Lemma unfilled_parts (i : SubInfo.t) :
  filled (SubInfo.upload i) || filled (SubInfo.download i)
  || filled (SubInfo.total i) || filled (SubInfo.expire i) = false ->
  infoParts host i = [].
Proof.
  intros H. apply orb_false_iff in H as [H He].
  apply orb_false_iff in H as [H Ht]. apply orb_false_iff in H as [Hu Hd].
  unfold infoParts, sizePart, expirePart. rewrite Hu, Hd, Ht, He. reflexivity.
Qed.

Lemma build_unfold (i : SubInfo.t) :
  buildSubscriptionHeaders host (Some i) =
  if filled (SubInfo.name i) then
    try! encodedName <- encodeURIComponent (trim (default [] (SubInfo.name i)));
    Ok (userinfoEntry (infoParts host i)
        ++ [(js "content-disposition",
             js "attachment; filename*=UTF-8''" ++ encodedName)])
  else Ok (userinfoEntry (infoParts host i)).
Proof.
  unfold buildSubscriptionHeaders.
  set (any := filled (SubInfo.upload i) || filled (SubInfo.download i)
              || filled (SubInfo.total i) || filled (SubInfo.expire i)).
  assert ((if (0 <? keyCount i) && any
           then if 0 <? Z.of_nat (length (infoParts host i))
                then obj_set (js "subscription-userinfo")
                       (join (js "; ") (infoParts host i)) []
                else []
           else []) = userinfoEntry (infoParts host i)) as ->.
  { destruct any eqn:Hany; subst any.
    - rewrite (filled_keyCount i Hany). simpl andb.
      destruct (infoParts host i) as [|p ps]; reflexivity.
    - rewrite andb_false_r. rewrite (unfilled_parts i Hany). reflexivity. }
  destruct (filled (SubInfo.name i)); [|reflexivity].
  destruct (encodeURIComponent _) as [enc|e]; [|reflexivity].
  cbn [bind]. f_equal.
  destruct (infoParts host i) as [|p ps]; reflexivity.
Qed.



Lemma filled_trim (x : option (list Z)) :
  filled x = match x with
             | Some s => negb (str_eqb (trim s) [])
             | None => false
             end.
Proof.
  destruct x as [s|]; [|reflexivity]. unfold filled.
  destruct s as [|c s]; reflexivity.
Qed.

Lemma sizePart_spec (field : list Z) (x : option (list Z)) :
  sizePart field x = specSizePart field x.
Proof.
  unfold sizePart, specSizePart. rewrite filled_trim.
  destruct x as [s|]; [|reflexivity].
  destruct (str_eqb (trim s) []); reflexivity.
Qed.

(** What the builder returns when it returns.  For a null overlay, the
    empty mapping.  Otherwise each of upload, download, total gives a part
    [field=parseSize(value)] exactly when its string is non-empty after
    trimming, in that fixed order and before the expire part; the parts,
    if there are any, are joined with ["; "] under
    [subscription-userinfo]; and a name that is non-empty after trimming
    and whose trimmed text has the percent-encoding [enc] gives, whether
    or not there are parts, the [content-disposition] header
    [attachment; filename*=UTF-8''] followed by [enc]. *)
Lemma buildSubscriptionHeaders_contents :
  buildSubscriptionHeaders host None = Ok []
  /\ (forall (i : SubInfo.t) (enc : list Z),
        (forall s, SubInfo.name i = Some s -> trim s <> [] ->
                   encodeURIComponent (trim s) = Ok enc) ->
        buildSubscriptionHeaders host (Some i)
        = Ok (userinfoEntry
                (specSizePart (js "upload") (SubInfo.upload i)
                 ++ specSizePart (js "download") (SubInfo.download i)
                 ++ specSizePart (js "total") (SubInfo.total i)
                 ++ expirePart host (SubInfo.expire i))
              ++ dispositionEntry (SubInfo.name i) enc))
  /\ buildSubscriptionHeaders host
       (Some (SubInfo.mk (Some (js "1GB")) (Some (js "2GB")) None None None))
     = Ok [(js "subscription-userinfo",
            js "upload=1073741824; download=2147483648")]
  /\ buildSubscriptionHeaders host
       (Some (SubInfo.mk None None None None (Some (js "My Sub"))))
     = Ok [(js "content-disposition",
            js "attachment; filename*=UTF-8''My%20Sub")].
Proof.
  split; [reflexivity|]. split; [|split; vm_compute; reflexivity].
  intros i enc Henc. rewrite build_unfold. unfold infoParts.
  rewrite !sizePart_spec. rewrite filled_trim. unfold dispositionEntry.
  destruct (SubInfo.name i) as [s|]; [|rewrite app_nil_r; reflexivity].
  destruct (str_eqb (trim s) []) eqn:Hs; simpl negb; cbv iota.
  - rewrite app_nil_r. reflexivity.
  - change (default [] (Some s)) with s.
    rewrite (Henc s eq_refl); [reflexivity|].
    intros Ht. rewrite Ht in Hs. discriminate Hs.
Qed.

Lemma unreserved_not_surrogate (c : Z) :
  isUnreserved c = true -> isLowSurrogate c = false /\ isHighSurrogate c = false.
Proof.
  unfold isUnreserved, isLowSurrogate, isHighSurrogate. intros H.
  assert (c < 128); [|lia].
  apply orb_true_iff in H as [H | H].
  - unfold isAlnum, isDigit in H. lia.
  - apply bool_decide_eq_true_1 in H. unfold js in H. simpl in H.
    repeat (apply elem_of_cons in H as [-> | H]; [lia|]). inversion H.
Qed.

(** [encodeURIComponent] raises exactly on the strings that are not
    well formed. *)
Lemma encode_wellFormed_bounded (n : nat) (s : list Z) :
  (length s <= n)%nat ->
  if wellFormed s then exists enc, encodeURIComponent s = Ok enc
  else encodeURIComponent s = Throw URIError.
Proof.
  revert s. induction n as [|n IH]; intros s Hlen.
  { destruct s; [simpl; eauto | simpl in Hlen; lia]. }
  destruct s as [|c r]; [simpl; eauto|]. simpl in Hlen.
  cbn [wellFormed encodeURIComponent].
  destruct (isUnreserved c) eqn:Hu.
  - destruct (unreserved_not_surrogate c Hu) as [-> ->].
    specialize (IH r ltac:(lia)).
    destruct (wellFormed r); [destruct IH as [enc ->]; simpl; eauto|].
    rewrite IH. reflexivity.
  - destruct (isLowSurrogate c); [reflexivity|].
    destruct (isHighSurrogate c).
    + destruct r as [|c2 r2]; [reflexivity|]. simpl in Hlen.
      destruct (isLowSurrogate c2); [|reflexivity]. simpl andb.
      specialize (IH r2 ltac:(lia)).
      destruct (wellFormed r2); [destruct IH as [enc ->]; simpl; eauto|].
      rewrite IH. reflexivity.
    + specialize (IH r ltac:(lia)).
      destruct (wellFormed r); [destruct IH as [enc ->]; simpl; eauto|].
      rewrite IH. reflexivity.
Qed.

Lemma encode_wellFormed (s : list Z) :
  wellFormed s = true -> exists enc, encodeURIComponent s = Ok enc.
Proof.
  intros H. pose proof (encode_wellFormed_bounded (length s) s (le_n _)) as He.
  rewrite H in He. exact He.
Qed.

Lemma encode_illFormed (s : list Z) :
  wellFormed s = false -> encodeURIComponent s = Throw URIError.
Proof.
  intros H. pose proof (encode_wellFormed_bounded (length s) s (le_n _)) as He.
  rewrite H in He. exact He.
Qed.

(** The builder raises exactly when the name is used and its trimmed
    text is not well formed; no other field can make it raise. *)
Lemma build_raises_iff (i : SubInfo.t) :
  (exists e, buildSubscriptionHeaders host (Some i) = Throw e)
  <-> filled (SubInfo.name i) = true
      /\ wellFormed (trim (default [] (SubInfo.name i))) = false.
Proof.
  rewrite build_unfold. destruct (filled (SubInfo.name i)).
  - destruct (wellFormed (trim (default [] (SubInfo.name i)))) eqn:Hw.
    + destruct (encode_wellFormed _ Hw) as [enc ->]. simpl. split.
      * intros [e He]. discriminate.
      * intros [_ H]. discriminate.
    + rewrite (encode_illFormed _ Hw). simpl. split; eauto.
  - split; [intros [e He]; discriminate | intros [H _]; discriminate].
Qed.

(** C5, at the failing input.  The overlay [{upload: "1GB"}] gives the
    header [subscription-userinfo: upload=1073741824].  With a name that
    holds a lone surrogate beside it, the builder returns no mapping at
    all: [encodeURIComponent] raises URIError on the name and the upload
    part, already computed, is lost with the [content-disposition] header.
    So it is for every overlay whose name is used and is not well formed,
    whatever its other fields. *)
Theorem unencodable_name_loses_the_parts :
  buildSubscriptionHeaders host
    (Some (SubInfo.mk (Some (js "1GB")) None None None None))
  = Ok [(userinfoKey, js "upload=1073741824")]
  /\ buildSubscriptionHeaders host
       (Some (SubInfo.mk (Some (js "1GB")) None None None (Some [55296])))
     = Throw URIError
  /\ (forall i : SubInfo.t,
        filled (SubInfo.name i) = true ->
        wellFormed (trim (default [] (SubInfo.name i))) = false ->
        buildSubscriptionHeaders host (Some i) = Throw URIError).
Proof.
  split; [vm_compute; reflexivity|]. split; [vm_compute; reflexivity|].
  intros i Hn Hw. rewrite build_unfold, Hn.
  rewrite (encode_illFormed _ Hw). reflexivity.
Qed.

(** C8, at the failing input. A name holding a lone surrogate makes the
    builder raise URIError, alone or beside other fields, which are then
    lost with it; a read of a record with such a name on [/raw] raises
    after the count has been written, and on [/sub] it is answered 502 as
    if the upstream had failed. *)
Theorem buildSubscriptionHeaders_raises_on_lone_surrogate :
  buildSubscriptionHeaders host
    (Some (SubInfo.mk None None None None (Some [55296])))
  = Throw URIError
  /\ buildSubscriptionHeaders host
       (Some (SubInfo.mk (Some (js "1GB")) None None None (Some [55296])))
     = Throw URIError
  /\ (serve host (GetRaw (js "abc") 1000) (sampleStore sampleBadName)).1
     = Throw URIError
  /\ Meta.downloadCount <$>
       getMeta (serve host (GetRaw (js "abc") 1000)
                  (sampleStore sampleBadName)).2 (js "abc")
     = Some 1
  /\ deliverSub host
       (sampleSub (SubInfo.mk (Some (js "1GB")) None None None (Some [55296])))
       (js "https://example.com/feed") (Ok (sampleUpstream None))
     = Ok (plain (js "Failed to fetch subscription: URI malformed") 502).
Proof. repeat split; vm_compute; reflexivity. Qed.
End Builder.

(** An overlay with a blank field and a name with white space around it. *)
Example buildSubscriptionHeaders_sample :
  buildSubscriptionHeaders noHost
    (Some (SubInfo.mk (Some (js "1GB")) (Some (js " ")) None None
                      (Some (js " My Sub "))))
  = Ok [(js "subscription-userinfo", js "upload=1073741824");
        (js "content-disposition",
         js "attachment; filename*=UTF-8''My%20Sub")].
Proof. vm_compute. reflexivity. Qed.

(** ** The expire field *)

Lemma forallb_allDigits (s : list Z) : forallb isDigit s = true <-> allDigits s.
Proof.
  unfold allDigits. rewrite forallb_forall, Forall_forall.
  split; intros H x Hx; apply H; apply list_elem_of_In; exact Hx.
Qed.

Lemma readDigits_sound (n : nat) (s r : list Z) (v : Z) :
  readDigits n s = Some (v, r) ->
  exists ds, s = ds ++ r /\ length ds = n /\ allDigits ds /\ v = digitsValue ds.
Proof.
  unfold readDigits. intros H.
  destruct (bool_decide_reflect (length (take n s) = n)) as [Hlen|]; [|discriminate].
  destruct (forallb isDigit (take n s)) eqn:Hd; [|discriminate].
  injection H as <- <-. exists (take n s).
  split; [symmetry; apply take_drop|]. split; [exact Hlen|].
  split; [apply forallb_allDigits; exact Hd | reflexivity].
Qed.

Lemma readDigits_complete (ds r : list Z) :
  allDigits ds ->
  readDigits (length ds) (ds ++ r) = Some (digitsValue ds, r).
Proof.
  intros Hd. unfold readDigits.
  rewrite take_app_length, drop_app_length.
  rewrite bool_decide_eq_true_2 by reflexivity.
  apply forallb_allDigits in Hd. rewrite Hd. reflexivity.
Qed.

Lemma expect_sound (c : Z) (s r : list Z) : expect c s = Some r -> s = c :: r.
Proof.
  destruct s as [|c' s]; [discriminate|]. simpl.
  destruct (Z.eqb_spec c' c) as [->|]; [|discriminate]. intros [= ->]. reflexivity.
Qed.

Lemma expect_here (c : Z) (r : list Z) : expect c (c :: r) = Some r.
Proof. simpl. rewrite Z.eqb_refl. reflexivity. Qed.

Lemma digits12_sound (s r : list Z) :
  digits12 s = Some r ->
  exists m, s = m ++ r /\ (length m = 1%nat \/ length m = 2%nat) /\ allDigits m.
Proof.
  unfold digits12, allDigits. destruct s as [|a [|b s]]; [discriminate| |].
  - destruct (isDigit a) eqn:Ha; [|discriminate]. intros [= <-].
    exists [a]. repeat split; auto.
  - destruct (isDigit a) eqn:Ha; [|discriminate].
    destruct (isDigit b) eqn:Hb; simpl; intros [= <-].
    + exists [a; b]. repeat split; auto.
    + exists [a]. repeat split; auto.
Qed.

Lemma digits12_complete (m r : list Z) :
  length m = 1%nat \/ length m = 2%nat -> allDigits m -> stopsAt isDigit r ->
  digits12 (m ++ r) = Some r.
Proof.
  unfold allDigits. intros Hlen Hm Hr.
  destruct m as [|a [|b [|c m]]]; simpl in Hlen; try lia.
  - apply Forall_cons in Hm as [Ha _]. simpl.
    destruct r as [|c r]; simpl in *; rewrite Ha; [reflexivity|].
    rewrite Hr. reflexivity.
  - apply Forall_cons in Hm as [Ha Hm]. apply Forall_cons in Hm as [Hb _].
    simpl. rewrite Ha, Hb. reflexivity.
Qed.

Lemma testYMD_spec (s : list Z) : testYMD s = true <-> ymdSyntax s.
Proof.
  unfold testYMD, restYMD. rewrite bool_decide_eq_true. split.
  - intros H.
    destruct (readDigits 4 s) as [[v r]|] eqn:Hy; [|discriminate].
    destruct (readDigits_sound _ _ _ _ Hy) as (y & -> & Hylen & Hyd & _).
    simpl in H.
    destruct (expect 45 r) as [r1|] eqn:H1; [|discriminate].
    apply expect_sound in H1 as ->. simpl in H.
    destruct (digits12 r1) as [r2|] eqn:H2; [|discriminate].
    destruct (digits12_sound _ _ H2) as (m & -> & Hmlen & Hmd). simpl in H.
    destruct (expect 45 r2) as [r3|] eqn:H3; [|discriminate].
    apply expect_sound in H3 as ->. simpl in H.
    destruct (digits12_sound _ _ H) as (d & -> & Hdlen & Hdd).
    exists y, m, d. rewrite app_nil_r. auto 10.
  - intros (y & m & d & -> & Hylen & Hyd & Hmlen & Hmd & Hdlen & Hdd).
    rewrite <- Hylen. rewrite (readDigits_complete y _ Hyd).
    cbn [mbind option_bind]. rewrite expect_here. cbn [mbind option_bind].
    rewrite (digits12_complete m (45 :: d) Hmlen Hmd eq_refl).
    cbn [mbind option_bind]. rewrite expect_here. cbn [mbind option_bind].
    rewrite <- (app_nil_r d).
    apply (digits12_complete d [] Hdlen Hdd I).
Qed.

Section Expire.
Variable host : list Z -> option Z.

Lemma expirePart_unfold (e : list Z) :
  trim e <> [] ->
  expirePart host (Some e)
  = datePart (if testYMD (trim e)
              then dateParse host (trim e ++ js "T23:59:59+08:00")
              else dateParse host (trim e)).
Proof.
  intros He. unfold expirePart.
  assert (filled (Some e) = true) as ->.
  { unfold filled. destruct e as [|c e]; [contradiction He; reflexivity|].
    simpl. unfold str_eqb. rewrite bool_decide_eq_false_2 by exact He.
    reflexivity. }
  simpl default. destruct (testYMD (trim e)); reflexivity.
Qed.

(** A full date [YYYY-MM-DD], with the suffix the builder appends, is an
    instance of the date-time string format: the rest of the engine's
    parser is not asked. *)
Lemma end_of_day_value (y m d : list Z) :
  length y = 4%nat -> length m = 2%nat -> length d = 2%nat ->
  allDigits y -> allDigits m -> allDigits d ->
  1 <= digitsValue m <= 12 ->
  1 <= digitsValue d <= 31 ->
  dateParse host ((y ++ 45 :: m ++ 45 :: d) ++ js "T23:59:59+08:00")
  = Some (endOfDayUTC8 (digitsValue y) (digitsValue m) (digitsValue d)).
Proof.
  intros Hly Hlm Hld Hy Hm Hd Hmo Hday.
  unfold dateParse, isoDateTime.
  rewrite <- !app_assoc. rewrite <- Hly at 1.
  rewrite (readDigits_complete y _ Hy). cbn [mbind option_bind].
  rewrite <- app_comm_cons, expect_here. cbn [mbind option_bind].
  rewrite <- !app_assoc. rewrite <- Hlm at 1.
  rewrite (readDigits_complete m _ Hm). cbn [mbind option_bind].
  rewrite <- app_comm_cons, expect_here. cbn [mbind option_bind].
  rewrite <- Hld at 1.
  rewrite (readDigits_complete d _ Hd). cbn [mbind option_bind].
  change (expect 84 (js "T23:59:59+08:00")) with (Some (js "23:59:59+08:00")).
  cbn [mbind option_bind].
  change (isoTime (js "23:59:59+08:00")) with (Some (86399000, 480)).
  cbn [mbind option_bind].
  assert ((1 <=? digitsValue m) && (digitsValue m <=? 12)
          && (1 <=? digitsValue d) && (digitsValue d <=? 31)
          = true) as -> by lia.
  unfold endOfDayUTC8. f_equal.
Qed.

(** What the builder does with the expire field: a blank field gives no
    part; a bare date is read with [T23:59:59+08:00] appended, any other
    text as it stands; a date that does not parse gives no part and one
    that parses gives [expire=] and the floor of its Unix seconds, the
    parts of the other fields being the same either way.  For a two-digit
    month from 01 to 12 and a two-digit day from 01 to 31 the part is the
    Unix time of 23:59:59 that day in UTC+8. *)
Lemma expire_part_by_date (x : option (list Z)) :
  (filled x = false -> expirePart host x = [])
  /\ (forall e, x = Some e -> trim e <> [] ->
        (ymdSyntax (trim e) ->
           expirePart host x
           = datePart (dateParse host (trim e ++ js "T23:59:59+08:00")))
        /\ (~ ymdSyntax (trim e) ->
             expirePart host x = datePart (dateParse host (trim e)))
        /\ (forall y m d,
              trim e = y ++ 45 :: m ++ 45 :: d ->
              length y = 4%nat -> length m = 2%nat -> length d = 2%nat ->
              allDigits y -> allDigits m -> allDigits d ->
              1 <= digitsValue m <= 12 ->
              1 <= digitsValue d <= 31 ->
              expirePart host x
              = [js "expire="
                 ++ numToString
                      (Int (endOfDayUTC8 (digitsValue y) (digitsValue m)
                                         (digitsValue d) / 1000))]))
  /\ datePart None = []
  /\ (forall i, infoParts host i
                = sizePart (js "upload") (SubInfo.upload i)
                  ++ sizePart (js "download") (SubInfo.download i)
                  ++ sizePart (js "total") (SubInfo.total i)
                  ++ expirePart host (SubInfo.expire i))
  /\ expirePart host (Some (js "2025-01-01")) = [js "expire=1735747199"]
  /\ isoDateTime (js "2025-01-01T23:59:59+08:00") = Some (1735747199 * 1000).
Proof.
  split; [intros Hx; unfold expirePart; rewrite Hx; reflexivity|].
  split; [|repeat split; vm_compute; reflexivity].
  intros e -> He. rewrite (expirePart_unfold e He).
  split; [|split].
  - intros Hs. apply (proj2 (testYMD_spec _)) in Hs. rewrite Hs. reflexivity.
  - intros Hs. destruct (testYMD (trim e)) eqn:Ht; [|reflexivity].
    apply (proj1 (testYMD_spec _)) in Ht. contradiction.
  - intros y m d Hes Hly Hlm Hld Hy Hm Hd Hmo Hday.
    assert (ymdSyntax (trim e)) as Hs.
    { exists y, m, d. rewrite Hlm, Hld. auto 10. }
    apply (proj2 (testYMD_spec _)) in Hs. rewrite Hs, Hes.
    rewrite (end_of_day_value y m d Hly Hlm Hld Hy Hm Hd Hmo Hday).
    reflexivity.
Qed.

(** *** A month or a day of one digit *)

Lemma readDigits12_complete (m r : list Z) :
  length m = 1%nat \/ length m = 2%nat -> allDigits m -> stopsAt isDigit r ->
  readDigits12 (m ++ r) = Some (m, r).
Proof.
  unfold allDigits. intros Hlen Hm Hr.
  destruct m as [|a [|b [|c m]]]; simpl in Hlen; try lia.
  - apply Forall_cons in Hm as [Ha _]. simpl.
    destruct r as [|c r]; simpl in *; rewrite Ha; [reflexivity|].
    rewrite Hr. reflexivity.
  - apply Forall_cons in Hm as [Ha Hm]. apply Forall_cons in Hm as [Hb _].
    simpl. rewrite Ha, Hb. reflexivity.
Qed.

(** Two digits are not read where one digit stands before a hyphen or a
    letter. *)
Lemma readDigits_one (m : list Z) (c : Z) (r : list Z) :
  length m = 1%nat -> isDigit c = false -> readDigits 2 (m ++ c :: r) = None.
Proof.
  intros Hlen Hc. destruct m as [|a [|b m]]; simpl in Hlen; try lia.
  unfold readDigits. cbn [app take forallb].
  rewrite Hc, andb_false_r, andb_false_r. reflexivity.
Qed.

Lemma fixedField_one (m : list Z) (lo hi : Z) :
  length m = 1%nat -> fixedField m lo hi = false.
Proof.
  intros Hlen. unfold fixedField.
  rewrite bool_decide_eq_false_2 by lia. reflexivity.
Qed.

(** A bare date whose month or day has one digit, with the suffix the
    builder appends, is no date-time string, and the legacy parser rejects
    it at the [T]. *)
Lemma one_digit_date_invalid (y m d : list Z) :
  length y = 4%nat -> allDigits y -> allDigits m -> allDigits d ->
  length m = 1%nat \/ length m = 2%nat ->
  length d = 1%nat \/ length d = 2%nat ->
  length m = 1%nat \/ length d = 1%nat ->
  dateParse host ((y ++ 45 :: m ++ 45 :: d) ++ js "T23:59:59+08:00") = None.
Proof.
  intros Hly Hy Hm Hd Hlm Hld Hone.
  assert (Hiso : isoDateTime ((y ++ 45 :: m ++ 45 :: d) ++ js "T23:59:59+08:00")
                 = None).
  { unfold isoDateTime.
    rewrite <- !app_assoc. rewrite <- Hly at 1.
    rewrite (readDigits_complete y _ Hy). cbn [mbind option_bind].
    rewrite <- app_comm_cons, expect_here. cbn [mbind option_bind].
    rewrite <- !app_assoc.
    destruct Hlm as [Hlm|Hlm].
    { rewrite <- app_comm_cons.
      rewrite (readDigits_one m 45 _ Hlm eq_refl). reflexivity. }
    rewrite <- Hlm at 1.
    rewrite (readDigits_complete m _ Hm). cbn [mbind option_bind].
    rewrite <- app_comm_cons, expect_here. cbn [mbind option_bind].
    destruct Hone as [Hone|Hone]; [lia|].
    change (js "T23:59:59+08:00") with (84 :: js "23:59:59+08:00").
    rewrite (readDigits_one d 84 _ Hone eq_refl). reflexivity. }
  unfold dateParse. rewrite Hiso.
  assert (legacyRejects ((y ++ 45 :: m ++ 45 :: d) ++ js "T23:59:59+08:00")
          = true) as ->; [|reflexivity].
  unfold legacyRejects.
  rewrite <- !app_assoc. rewrite <- Hly at 1.
  rewrite (readDigits_complete y _ Hy). cbn [mbind option_bind].
  rewrite <- app_comm_cons, expect_here. cbn [mbind option_bind].
  rewrite <- !app_assoc, <- app_comm_cons.
  rewrite (readDigits12_complete m (45 :: d ++ js "T23:59:59+08:00") Hlm Hm eq_refl).
  cbn [mbind option_bind].
  rewrite expect_here. cbn [mbind option_bind].
  rewrite (readDigits12_complete d (js "T23:59:59+08:00") Hld Hd eq_refl).
  cbn [mbind option_bind].
  change (js "T23:59:59+08:00") with (84 :: js "23:59:59+08:00").
  rewrite expect_here. cbn [mbind option_bind].
  destruct Hone as [Hone|Hone]; rewrite (fixedField_one _ _ _ Hone);
    [reflexivity | now rewrite andb_false_r].
Qed.

Lemma digit_not_space (c : Z) : isDigit c = true -> isWhiteSpace c = false.
Proof. unfold isDigit, isWhiteSpace. lia. Qed.

(** A text that begins and ends with a digit is its own trimmed text. *)
Lemma trim_digits (a b : Z) (s : list Z) :
  isDigit a = true -> isDigit b = true ->
  trim (a :: s ++ [b]) = a :: s ++ [b].
Proof.
  intros Ha Hb. unfold trim. cbn [dropWhile].
  rewrite (digit_not_space a Ha).
  change (a :: s ++ [b]) with ((a :: s) ++ [b]).
  rewrite rev_app_distr. cbn [rev app dropWhile].
  rewrite (digit_not_space b Hb).
  change (b :: rev s ++ [a]) with (rev [b] ++ rev (a :: s)).
  rewrite <- rev_app_distr. apply rev_involutive.
Qed.

Lemma trim_bare_date (y m d : list Z) :
  length y = 4%nat -> allDigits y -> allDigits d -> d <> [] ->
  trim (y ++ 45 :: m ++ 45 :: d) = y ++ 45 :: m ++ 45 :: d.
Proof.
  unfold allDigits. intros Hly Hy Hd Hne.
  destruct y as [|a y]; [discriminate|].
  apply Forall_cons in Hy as [Ha _].
  destruct (exists_last Hne) as (d' & b & ->).
  apply Forall_app in Hd as [_ Hb]. apply Forall_cons in Hb as [Hb _].
  replace ((a :: y) ++ 45 :: m ++ 45 :: d' ++ [b])
    with (a :: (y ++ 45 :: m ++ 45 :: d') ++ [b]).
  - apply trim_digits; assumption.
  - cbn [app]. f_equal. rewrite <- !app_assoc. cbn [app].
    rewrite <- !app_assoc. reflexivity.
Qed.

(** C6, at the failing input.  The pattern of the builder admits a month
    and a day of one digit, as its comment says ([YYYY-M-D]), and
    [T23:59:59+08:00] is appended to such a date as to any other; but the
    text that results is no date-time string, the engine gives an invalid
    date for it, and the expire part is left out: [2025-1-1] gives no
    part, alone or beside other fields, where [2025-01-01] gives
    [expire=1735747199], the end of that day at eight hours east of UTC.
    The same holds of every bare date whose month or day has one digit. *)
Theorem one_digit_date_gives_no_expire_part :
  testYMD (js "2025-1-1") = true
  /\ expirePart host (Some (js "2025-1-1")) = []
  /\ expirePart host (Some (js "2025-01-01")) = [js "expire=1735747199"]
  /\ buildSubscriptionHeaders host
       (Some (SubInfo.mk (Some (js "1GB")) None None (Some (js "2025-1-1")) None))
     = Ok [(userinfoKey, js "upload=1073741824")]
  /\ (forall y m d,
        length y = 4%nat -> allDigits y -> allDigits m -> allDigits d ->
        length m = 1%nat \/ length m = 2%nat ->
        length d = 1%nat \/ length d = 2%nat ->
        length m = 1%nat \/ length d = 1%nat ->
        testYMD (y ++ 45 :: m ++ 45 :: d) = true
        /\ expirePart host (Some (y ++ 45 :: m ++ 45 :: d)) = []).
Proof.
  split; [vm_compute; reflexivity|].
  split; [vm_compute; reflexivity|].
  split; [vm_compute; reflexivity|].
  split; [vm_compute; reflexivity|].
  intros y m d Hly Hy Hm Hd Hlm Hld Hone.
  assert (Hne : d <> []) by (intros ->; simpl in Hld; lia).
  assert (Hs : testYMD (y ++ 45 :: m ++ 45 :: d) = true).
  { apply testYMD_spec. exists y, m, d. auto 10. }
  split; [exact Hs|].
  assert (Ht := trim_bare_date y m d Hly Hy Hd Hne).
  rewrite expirePart_unfold; rewrite Ht.
  - rewrite Hs. now rewrite one_digit_date_invalid.
  - destruct y; discriminate.
Qed.
End Expire.

(** A date the engine cannot read leaves the other parts as they are. *)
Example expire_invalid_is_omitted :
  buildSubscriptionHeaders noHost
    (Some (SubInfo.mk (Some (js "1GB")) None None (Some (js "next week")) None))
  = Ok [(userinfoKey, js "upload=1073741824")]
  /\ buildSubscriptionHeaders noHost
       (Some (SubInfo.mk (Some (js "1GB")) None None (Some (js "2025-06-30")) None))
     = Ok [(userinfoKey, js "upload=1073741824; expire=1751299199")].
Proof. split; vm_compute; reflexivity. Qed.

(** A leap day, with white space around it; and a day past the end of
    its month, which runs on into the next month. *)
Example expire_part_leap_day :
  expirePart noHost (Some (js " 2024-02-29 ")) = [js "expire=1709222399"]
  /\ expirePart noHost (Some (js "2025-02-30"))
     = expirePart noHost (Some (js "2025-03-02")).
Proof. split; vm_compute; reflexivity. Qed.

(** ** The upstream merge *)

(** *** Splitting and joining *)

Lemma startsWith_head (sep s : list Z) (a c : Z) :
  a <> c -> startsWith (a :: sep) (c :: s) = false.
Proof. intros H. simpl. destruct (Z.eqb_spec a c); [contradiction|reflexivity]. Qed.

Lemma startsWith_app (sep s : list Z) : startsWith sep (sep ++ s) = true.
Proof.
  induction sep as [|a sep IH]; [destruct s; reflexivity|].
  simpl. rewrite Z.eqb_refl. exact IH.
Qed.

(** Passing over the rest of a recognised separator. *)
Lemma split_go_skip (sep rest cur s : list Z) :
  split_go sep (length rest) cur (rest ++ s) = split_go sep 0 cur s.
Proof.
  induction rest as [|c rest IH]; [destruct s; reflexivity|]. simpl. exact IH.
Qed.

(** Reading a piece that holds no first code unit of the separator. *)
Lemma split_go_piece (a : Z) (sep p cur s : list Z) :
  a ∉ p ->
  split_go (a :: sep) 0 cur (p ++ s) = split_go (a :: sep) 0 (rev p ++ cur) s.
Proof.
  revert cur. induction p as [|c p IH]; intros cur Hp; [reflexivity|].
  apply not_elem_of_cons in Hp as [Hc Hp].
  rewrite <- app_comm_cons. cbn [split_go].
  rewrite startsWith_head by exact Hc.
  rewrite IH by exact Hp. simpl rev. rewrite <- app_assoc. reflexivity.
Qed.

Lemma split_go_end (sep cur : list Z) : split_go sep 0 cur [] = [rev cur].
Proof. reflexivity. Qed.

Lemma split_go_sep (a : Z) (sep cur s : list Z) :
  split_go (a :: sep) 0 cur ((a :: sep) ++ s)
  = rev cur :: split_go (a :: sep) 0 [] s.
Proof.
  rewrite <- app_comm_cons. cbn [split_go].
  change (a :: sep ++ s) with ((a :: sep) ++ s).
  rewrite startsWith_app. f_equal.
  replace (length (a :: sep) - 1)%nat with (length sep) by (simpl; lia).
  apply split_go_skip.
Qed.

(** Pieces that hold no first code unit of the separator come back from
    the joined string. *)
Lemma split_join (a : Z) (sep : list Z) (parts : list (list Z)) :
  parts <> [] -> Forall (fun p => a ∉ p) parts ->
  split (a :: sep) (join (a :: sep) parts) = parts.
Proof.
  intros Hne Hall. unfold split.
  induction Hall as [|p parts Hp Hall IH]; [congruence|].
  destruct parts as [|q parts].
  - simpl join. rewrite <- (app_nil_r p) at 1.
    rewrite split_go_piece by exact Hp. rewrite split_go_end.
    rewrite app_nil_r, rev_involutive. reflexivity.
  - change (join (a :: sep) (p :: q :: parts))
      with (p ++ (a :: sep) ++ join (a :: sep) (q :: parts)).
    rewrite split_go_piece by exact Hp. rewrite split_go_sep.
    rewrite app_nil_r, rev_involutive. f_equal. apply IH. discriminate.
Qed.

(** The key of a part [key=value]. *)
Lemma split_key (key value : list Z) :
  61 ∉ key ->
  head (split (js "=") (key ++ js "=" ++ value)) = Some key.
Proof.
  intros Hk. unfold split. change (js "=") with [61].
  rewrite split_go_piece by exact Hk. rewrite split_go_sep.
  rewrite app_nil_r, rev_involutive. reflexivity.
Qed.

(** *** The characters of a printed number *)


Lemma decimalDigits_go_plain (fuel : nat) (n : Z) (acc : list Z) :
  Forall plainChar acc -> Forall plainChar (decimalDigits_go fuel n acc).
Proof.
  revert n acc. induction fuel as [|f IH]; intros n acc Hacc; [exact Hacc|].
  simpl.
  assert (plainChar (48 + n mod 10)) as Hd.
  { pose proof (Z.mod_pos_bound n 10 ltac:(lia)). unfold plainChar. lia. }
  destruct (n <? 10); [constructor; assumption|].
  apply IH. constructor; assumption.
Qed.

Lemma decimalDigits_plain (n : Z) : Forall plainChar (decimalDigits n).
Proof. apply decimalDigits_go_plain. constructor. Qed.

Lemma stripZeros_plain (l : list Z) :
  Forall plainChar l -> Forall plainChar (stripZeros l).
Proof.
  induction 1 as [|c l Hc Hl IH]; simpl; [constructor|].
  destruct (c =? 48); [exact IH | constructor; assumption].
Qed.

Lemma natToString_plain (z : Z) : Forall plainChar (natToString z).
Proof.
  unfold natToString.
  set (c := if z <? 2 ^ 53 then z else shortestDecimal z).
  pose proof (decimalDigits_plain c) as Hds.
  destruct (c <? 10 ^ 21); [exact Hds|].
  assert (Forall plainChar (js "e+" ++ decimalDigits (Z.of_nat (length (decimalDigits c)) - 1))) as Hex.
  { apply Forall_app. split; [|apply decimalDigits_plain].
    repeat constructor; discriminate. }
  assert (Forall plainChar (rev (stripZeros (rev (decimalDigits c))))) as Hsig.
  { apply Forall_rev, stripZeros_plain, Forall_rev. exact Hds. }
  destruct (rev (stripZeros (rev (decimalDigits c)))) as [|d [|d' more]];
    [exact Hds | |].
  - apply Forall_cons in Hsig as [Hd _]. constructor; assumption.
  - apply Forall_cons in Hsig as [Hd Hmore].
    constructor; [exact Hd|]. constructor; [split; discriminate|].
    apply Forall_app. split; assumption.
Qed.

Lemma numToString_plain (x : number) : Forall plainChar (numToString x).
Proof.
  destruct x as [| | |z]; try (repeat constructor; discriminate).
  simpl. destruct (z <? 0); [|apply natToString_plain].
  constructor; [split; discriminate | apply natToString_plain].
Qed.

(** *** The custom parts as fields and values *)





Section Merge.
Variable host : list Z -> option Z.

Lemma infoParts_pairs (i : SubInfo.t) :
  infoParts host i = map renderPair (infoPairs host i).
Proof.
  unfold infoParts, infoPairs. rewrite !map_app.
  assert (forall f x, sizePart f x = map renderPair (sizePair f x)) as Hs.
  { intros f x. unfold sizePart, sizePair. destruct (filled x); reflexivity. }
  rewrite !Hs. do 3 f_equal. unfold expirePart, expirePair.
  destruct (filled (SubInfo.expire i)); [|reflexivity].
  cbv zeta. destruct (if testYMD _ then _ else _); reflexivity.
Qed.

Lemma infoPairs_plain (i : SubInfo.t) :
  Forall (fun kv => kv.1 ∈ customFieldNames /\ Forall plainChar kv.2)
         (infoPairs host i).
Proof.
  assert (forall f x, f ∈ customFieldNames ->
            Forall (fun kv => kv.1 ∈ customFieldNames /\ Forall plainChar kv.2)
                   (sizePair f x)) as Hs.
  { intros f x Hf. unfold sizePair. destruct (filled x); constructor;
      [|constructor]. split; [exact Hf | apply numToString_plain]. }
  unfold infoPairs. repeat (apply Forall_app; split).
  - apply Hs. apply list_elem_of_In. simpl. tauto.
  - apply Hs. apply list_elem_of_In. simpl. tauto.
  - apply Hs. apply list_elem_of_In. simpl. tauto.
  - unfold expirePair. destruct (filled (SubInfo.expire i)); [|constructor].
    cbv zeta. destruct (if testYMD _ then _ else _); constructor;
      [|constructor].
    split; [apply list_elem_of_In; simpl; tauto|].
    apply numToString_plain.
Qed.

Lemma customField_plain (f : list Z) :
  f ∈ customFieldNames -> Forall plainChar f.
Proof.
  intros Hf. unfold customFieldNames in Hf.
  repeat (apply elem_of_cons in Hf as [-> | Hf];
          [repeat constructor; discriminate|]).
  inversion Hf.
Qed.

Lemma plain_no (c : Z) (s : list Z) :
  c = 59 \/ c = 61 -> Forall plainChar s -> c ∉ s.
Proof.
  intros Hc Hs Hin. rewrite Forall_forall in Hs.
  destruct (Hs c Hin) as [H1 H2]. lia.
Qed.

Lemma renderPair_plain (kv : list Z * list Z) :
  kv.1 ∈ customFieldNames /\ Forall plainChar kv.2 ->
  (59 ∉ renderPair kv)
  /\ head (split (js "=") (renderPair kv)) = Some kv.1.
Proof.
  intros [Hf Hv]. pose proof (customField_plain _ Hf) as Hk. split.
  - unfold renderPair. intros Hin.
    apply elem_of_app in Hin as [Hin | Hin];
      [exact (plain_no 59 _ (or_introl eq_refl) Hk Hin)|].
    apply elem_of_cons in Hin as [Hin | Hin]; [discriminate|].
    exact (plain_no 59 _ (or_introl eq_refl) Hv Hin).
  - apply split_key. apply plain_no; auto.
Qed.

(** What [split] and the key extraction recover from the header the
    builder wrote: its parts, and the names of their fields. *)
Lemma custom_parts_back (i : SubInfo.t) :
  infoParts host i <> [] ->
  split (js "; ") (join (js "; ") (infoParts host i)) = infoParts host i
  /\ map (fun p => default [] (head (split (js "=") p))) (infoParts host i)
     = map fst (infoPairs host i).
Proof.
  intros Hne. pose proof (infoPairs_plain i) as Hp.
  rewrite infoParts_pairs in *. split.
  - change (js "; ") with (59 :: [32]). apply split_join; [exact Hne|].
    apply Forall_map. eapply Forall_impl; [exact Hp|].
    intros kv Hkv. apply (renderPair_plain kv Hkv).
  - rewrite map_map. apply Forall_fmap_ext_1.
    eapply Forall_impl; [exact Hp|]. intros kv Hkv. cbv beta.
    destruct (renderPair_plain kv Hkv) as [_ ->]. reflexivity.
Qed.

Lemma fillGaps_spec (keys : list (list Z)) (parts : list (list Z))
    (o : list (list Z * list Z)) :
  fillGaps keys parts o = parts ++ gapParts keys (obj_entries o).
Proof.
  unfold fillGaps, gapParts. generalize (obj_entries o) as entries.
  intros entries. revert parts.
  induction entries as [|kv entries IH]; intros parts; simpl.
  - rewrite app_nil_r. reflexivity.
  - rewrite IH. rewrite filter_cons.
    destruct (bool_decide_reflect (kv.1 ∈ keys)) as [Hin|Hin].
    + destruct (decide (kv.1 ∉ keys)); [contradiction|]. reflexivity.
    + destruct (decide (kv.1 ∉ keys)); [|contradiction].
      rewrite <- app_assoc. reflexivity.
Qed.

(** *** Objects *)

Lemma str_eqb_refl (k : list Z) : str_eqb k k = true.
Proof. unfold str_eqb. apply bool_decide_eq_true_2. reflexivity. Qed.

Lemma str_eqb_ne (k k' : list Z) : k <> k' -> str_eqb k k' = false.
Proof. intros H. unfold str_eqb. apply bool_decide_eq_false_2. exact H. Qed.

Lemma str_eqb_eq (k k' : list Z) : str_eqb k k' = true -> k = k'.
Proof. unfold str_eqb. apply bool_decide_eq_true_1. Qed.

Lemma assoc_app {A} (k : list Z) (o1 o2 : list (list Z * A)) :
  assoc k (o1 ++ o2) = match assoc k o1 with
                       | Some v => Some v
                       | None => assoc k o2
                       end.
Proof.
  induction o1 as [|[k' v'] o1 IH]; [reflexivity|]. simpl.
  destruct (str_eqb k k'); [reflexivity | exact IH].
Qed.

Lemma assoc_absent {A} (k : list Z) (o : list (list Z * A)) :
  k ∉ map fst o -> assoc k o = None.
Proof.
  induction o as [|[k' v'] o IH]; [reflexivity|]. simpl. intros Hk.
  apply not_elem_of_cons in Hk as [Hne Hk].
  rewrite (str_eqb_ne _ _ Hne). exact (IH Hk).
Qed.

Lemma assoc_update (k k' : list Z) (v : list Z) (o : list (list Z * list Z)) :
  assoc k (obj_update k' v o)
  = if str_eqb k k' then (fun _ => v) <$> assoc k o else assoc k o.
Proof.
  induction o as [|[k1 v1] o IH]; simpl; [destruct (str_eqb k k'); reflexivity|].
  destruct (decide (k' = k1)) as [->|Hne1].
  - rewrite str_eqb_refl. simpl. destruct (str_eqb k k1); reflexivity.
  - rewrite (str_eqb_ne k' k1 Hne1). simpl.
    destruct (decide (k = k1)) as [->|Hne].
    + rewrite str_eqb_refl, (str_eqb_ne k1 k') by congruence. reflexivity.
    + rewrite (str_eqb_ne k k1 Hne). exact IH.
Qed.

Lemma obj_get_set_eq (k v : list Z) (o : list (list Z * list Z)) :
  k <> js "__proto__" -> obj_get k (obj_set k v o) = Some v.
Proof.
  intros Hk. unfold obj_get, obj_set.
  rewrite (str_eqb_ne _ _ Hk).
  destruct (assoc k o) as [w|] eqn:Hw.
  - rewrite assoc_update, Hw, str_eqb_refl. reflexivity.
  - rewrite assoc_app, Hw. simpl. rewrite str_eqb_refl. reflexivity.
Qed.

Lemma obj_get_set_ne (k k' v : list Z) (o : list (list Z * list Z)) :
  k <> k' -> obj_get k (obj_set k' v o) = obj_get k o.
Proof.
  intros Hk. unfold obj_get, obj_set.
  destruct (str_eqb k' (js "__proto__")); [reflexivity|].
  destruct (assoc k' o) as [w|] eqn:Hw.
  - rewrite assoc_update, (str_eqb_ne _ _ Hk). reflexivity.
  - rewrite assoc_app. destruct (assoc k o); [reflexivity|]. simpl.
    rewrite (str_eqb_ne _ _ Hk). reflexivity.
Qed.

(** *** The upstream header as a list of fields *)

Lemma parseUserInfo_segments (h : list Z) :
  h <> [] ->
  parseUserInfo (Some h)
  = fold_left (fun o kv => obj_set kv.1 kv.2 o) (segments h) [].
Proof.
  intros Hh. unfold parseUserInfo, segments.
  assert (truthy (Some h) = true) as -> by (destruct h; [congruence|reflexivity]).
  change (default [] (Some h)) with h.
  generalize (@nil (list Z * list Z)) as acc.
  induction (split (js ";") h) as [|part parts IH]; intros acc; [reflexivity|].
  cbn [fold_left omap list_omap]. rewrite IH. unfold segmentPair at 2.
  destruct (split (js "=") (trim part)) as [|key [|value rest]];
    try reflexivity.
  destruct (truthy (Some key) && truthy (Some value)); reflexivity.
Qed.

Lemma set_fresh (segs acc : list (list Z * list Z)) :
  NoDup (map fst (acc ++ segs)) ->
  Forall (fun kv => kv.1 <> js "__proto__") segs ->
  fold_left (fun o kv => obj_set kv.1 kv.2 o) segs acc = acc ++ segs.
Proof.
  revert acc. induction segs as [|[k v] segs IH]; intros acc Hnd Hp.
  - rewrite app_nil_r. reflexivity.
  - apply Forall_cons in Hp as [Hk Hp]. simpl fold_left.
    assert (obj_set k v acc = acc ++ [(k, v)]) as ->.
    { unfold obj_set. simpl in Hk. rewrite (str_eqb_ne _ _ Hk).
      rewrite assoc_absent; [reflexivity|].
      rewrite map_app in Hnd. apply NoDup_app in Hnd as (_ & Hdis & _).
      intros Hin. apply (Hdis k Hin). simpl. left. }
    rewrite IH; [rewrite <- app_assoc; reflexivity | | exact Hp].
    rewrite <- app_assoc. exact Hnd.
Qed.

Lemma entries_in_order (o : list (list Z * list Z)) :
  Forall (fun kv => arrayIndex kv.1 = None) o -> obj_entries o = o.
Proof.
  intros Ho. unfold obj_entries.
  assert (omap (fun kv => (fun i => (i, kv)) <$> arrayIndex kv.1) o = []) as ->.
  { induction Ho as [|kv o Hkv Ho IH]; [reflexivity|]. simpl.
    rewrite Hkv. exact IH. }
  simpl. induction Ho as [|kv o Hkv Ho IH]; [reflexivity|].
  rewrite filter_cons. destruct (decide _); [|contradiction].
  f_equal. exact IH.
Qed.

(** When the upstream names each field once and none of the names is an
    array index (or [__proto__]), its parsed map lists the fields in the
    header's own order. *)
Lemma upstream_order (h : list Z) :
  h <> [] ->
  NoDup (map fst (segments h)) ->
  Forall (fun kv => arrayIndex kv.1 = None /\ kv.1 <> js "__proto__")
         (segments h) ->
  obj_entries (parseUserInfo (Some h)) = segments h.
Proof.
  intros Hh Hnd Hall. rewrite parseUserInfo_segments by exact Hh.
  rewrite set_fresh; [| exact Hnd |].
  - apply entries_in_order. eapply Forall_impl; [exact Hall|].
    intros kv [H _]. exact H.
  - eapply Forall_impl; [exact Hall|]. intros kv [_ H]. exact H.
Qed.

(** *** The merged header *)

Lemma join_truthy (sep : list Z) (parts : list (list Z * list Z)) :
  parts <> [] -> truthy (Some (join sep (map renderPair parts))) = true.
Proof.
  destruct parts as [|kv parts]; [congruence|]. intros _.
  assert (exists c r, renderPair kv = c :: r) as (c & r & Hr).
  { unfold renderPair. destruct kv as [k v]; simpl.
    destruct k as [|c k]; simpl; eauto. }
  simpl map. rewrite Hr. destruct (map renderPair parts); reflexivity.
Qed.

(** The userinfo entry of the headers the builder returned. *)
Lemma built_userinfo (i : SubInfo.t) (hs : list (list Z * list Z)) :
  buildSubscriptionHeaders host (Some i) = Ok hs ->
  obj_get userinfoKey hs
  = match infoParts host i with
    | [] => None
    | _ => Some (join (js "; ") (infoParts host i))
    end.
Proof.
  rewrite build_unfold. unfold obj_get.
  assert (forall tail,
            assoc userinfoKey tail = None ->
            assoc userinfoKey (userinfoEntry (infoParts host i) ++ tail)
            = match infoParts host i with
              | [] => None
              | _ => Some (join (js "; ") (infoParts host i))
              end) as Hget.
  { intros tail Ht. rewrite assoc_app.
    destruct (infoParts host i) as [|p ps]; [exact Ht | reflexivity]. }
  destruct (filled (SubInfo.name i)).
  - destruct (encodeURIComponent _) as [enc|e]; [|discriminate].
    intros [= <-]. apply Hget. reflexivity.
  - intros [= <-]. rewrite <- (app_nil_r (userinfoEntry _)).
    apply Hget. reflexivity.
Qed.

Lemma merge_custom (i : SubInfo.t) (hs rh : list (list Z * list Z))
    (upstream : option (list Z)) :
  buildSubscriptionHeaders host (Some i) = Ok hs ->
  infoParts host i <> [] ->
  mergeUserInfo hs upstream rh
  = obj_set userinfoKey
      (join (js "; ")
         (infoParts host i
          ++ gapParts (map fst (infoPairs host i))
                      (obj_entries (parseUserInfo upstream))))
      rh.
Proof.
  intros Hb Hne. unfold mergeUserInfo. fold userinfoKey.
  assert (obj_get userinfoKey hs = Some (join (js "; ") (infoParts host i)))
    as ->.
  { rewrite (built_userinfo i hs Hb).
    destruct (infoParts host i); [congruence | reflexivity]. }
  destruct (custom_parts_back i Hne) as [Hsplit Hkeys].
  change (default [] (Some ?x)) with x.
  assert (truthy (Some (join (js "; ") (infoParts host i))) = true) as ->.
  { rewrite infoParts_pairs. apply join_truthy.
    intros Hnil. apply Hne. rewrite infoParts_pairs, Hnil. reflexivity. }
  rewrite Hsplit, Hkeys, fillGaps_spec. reflexivity.
Qed.

Lemma merge_passthrough (hs rh : list (list Z * list Z))
    (upstream : option (list Z)) :
  obj_get userinfoKey hs = None ->
  mergeUserInfo hs upstream rh
  = if truthy upstream then obj_set userinfoKey (default [] upstream) rh
    else rh.
Proof.
  intros Hnone. unfold mergeUserInfo. fold userinfoKey. rewrite Hnone.
  reflexivity.
Qed.

Lemma later_steps_keep (k k' : list Z) (c : bool) (v : list Z)
    (o : list (list Z * list Z)) :
  k <> k' ->
  obj_get k (if c then obj_set k' v o else o) = obj_get k o.
Proof. intros Hk. destruct c; [apply obj_get_set_ne; exact Hk | reflexivity]. Qed.

(** The response of a successful proxy read, with its merged header. *)
Lemma proxy_userinfo (meta : Meta.t) (up : Upstream) (subContent : list Z)
    (hs : list (list Z * list Z)) :
  ok up = true -> text up = Ok subContent ->
  buildSubscriptionHeaders host (Meta.subscriptionInfo meta) = Ok hs ->
  exists resp,
    proxySubscription host meta (Ok up) = Ok resp
    /\ status resp = 200 /\ payload resp = BText subContent
    /\ obj_get userinfoKey (headers resp)
       = obj_get userinfoKey
           (mergeUserInfo hs (userinfo up)
              (obj_spread corsHeaders
                 [(js "Content-Type", js "text/plain; charset=utf-8")])).
Proof.
  intros Hok Htext Hb. unfold proxySubscription. cbn [bind].
  rewrite Hok. simpl negb. cbv iota. rewrite Htext. cbn [bind].
  rewrite Hb. cbn [bind]. eexists. split; [reflexivity|].
  split; [reflexivity|]. split; [reflexivity|]. cbn [headers].
  destruct (truthy (obj_get (js "content-disposition") hs)).
  - rewrite obj_get_set_ne by discriminate.
    apply later_steps_keep. discriminate.
  - rewrite later_steps_keep by discriminate.
    apply later_steps_keep. discriminate.
Qed.

(** C4, amended. On a successful proxy read the body is the upstream's.
    If the builder produced a [subscription-userinfo] value, the response
    carries the custom parts in their order, followed by [field=value]
    for every field of the upstream's parsed map that is not the field of
    a custom part, in the order in which the parsed map lists its fields;
    that order is the upstream's own whenever the upstream names each
    field once and no name is an array index or [__proto__].  If the
    builder produced none, the upstream's header is passed through
    unchanged when it is present and non-empty.  Upstream
    [upload=100; download=200; total=300; expire=999] under custom
    [upload=1; total=3] gives
    [upload=1; total=3; download=200; expire=999]. *)
Theorem merge_custom_wins_upstream_fills :
  (forall (meta : Meta.t) (content : list Z) (up : Upstream)
          (subContent : list Z) (hs : list (list Z * list Z)),
      Meta.type meta = js "subscription" ->
      startsWith (js "http") content = true ->
      ok up = true -> text up = Ok subContent ->
      buildSubscriptionHeaders host (Meta.subscriptionInfo meta) = Ok hs ->
      exists resp,
        deliverSub host meta content (Ok up) = Ok resp
        /\ status resp = 200 /\ payload resp = BText subContent
        /\ (forall i,
              Meta.subscriptionInfo meta = Some i -> infoParts host i <> [] ->
              infoParts host i = map renderPair (infoPairs host i)
              /\ obj_get userinfoKey (headers resp)
                 = Some (join (js "; ")
                           (infoParts host i
                            ++ gapParts (map fst (infoPairs host i))
                                 (obj_entries (parseUserInfo (userinfo up))))))
        /\ ((forall i, Meta.subscriptionInfo meta = Some i ->
                       infoParts host i = []) ->
            obj_get userinfoKey (headers resp)
            = if truthy (userinfo up) then userinfo up else None)
        /\ (forall h,
              userinfo up = Some h -> h <> [] ->
              NoDup (map fst (segments h)) ->
              Forall (fun kv => arrayIndex kv.1 = None
                                /\ kv.1 <> js "__proto__") (segments h) ->
              obj_entries (parseUserInfo (userinfo up)) = segments h))
  /\ userinfoOf
       (deliverSub host
          (sampleSub (SubInfo.mk (Some (js "1")) None (Some (js "3")) None None))
          (js "https://example.com/feed")
          (Ok (sampleUpstream
                 (Some (js "upload=100; download=200; total=300; expire=999")))))
     = Some (js "upload=1; total=3; download=200; expire=999").
Proof.
  split; [|vm_compute; reflexivity].
  intros meta content up subContent hs Htype Hhttp Hok Htext Hb.
  destruct (proxy_userinfo meta up subContent hs Hok Htext Hb)
    as (resp & Hresp & Hst & Hpay & Hui).
  exists resp. unfold deliverSub. rewrite Htype, str_eqb_refl, Hhttp.
  simpl andb. cbv iota. rewrite Hresp.
  split; [reflexivity|]. split; [exact Hst|]. split; [exact Hpay|].
  rewrite Hui. split; [|split].
  - intros i Hi Hne. split; [apply infoParts_pairs|].
    rewrite Hi in Hb. rewrite (merge_custom i hs _ _ Hb Hne).
    apply obj_get_set_eq. discriminate.
  - intros Hnone.
    assert (obj_get userinfoKey hs = None) as Hget.
    { destruct (Meta.subscriptionInfo meta) as [i|] eqn:Hi.
      - rewrite (built_userinfo i hs Hb), (Hnone i eq_refl). reflexivity.
      - injection Hb as <-. reflexivity. }
    rewrite (merge_passthrough hs _ _ Hget).
    destruct (userinfo up) as [[|c h]|];
      first [reflexivity | apply obj_get_set_eq; discriminate].
  - intros h -> Hh Hnd Hall. apply upstream_order; assumption.
Qed.
End Merge.

Lemma merge_witness :
  buildSubscriptionHeaders noHost
    (Some (SubInfo.mk (Some (js "1")) None (Some (js "3")) None None))
  = Ok [(userinfoKey, js "upload=1; total=3")]
  /\ userinfoOf
       (deliverSub noHost
          (sampleSub (SubInfo.mk (Some (js "1")) None (Some (js "3")) None None))
          (js "https://example.com/feed")
          (Ok (sampleUpstream (Some (js "total=9; expire=999; download=7")))))
     = Some (js "upload=1; total=3; expire=999; download=7").
Proof.
  assert (buildSubscriptionHeaders noHost
            (Some (SubInfo.mk (Some (js "1")) None (Some (js "3")) None None))
          = Ok [(userinfoKey, js "upload=1; total=3")]) as Hb
    by (vm_compute; reflexivity).
  split; [exact Hb|].
  destruct (merge_custom_wins_upstream_fills noHost) as [Hm _].
  destruct (Hm (sampleSub (SubInfo.mk (Some (js "1")) None (Some (js "3")) None None))
               (js "https://example.com/feed")
               (sampleUpstream (Some (js "total=9; expire=999; download=7")))
               (js "feed") _ eq_refl eq_refl eq_refl eq_refl Hb)
    as (resp & -> & _ & _ & Hcustom & _).
  cbn [userinfoOf]. destruct (Hcustom _ eq_refl) as [_ ->].
  - vm_compute. discriminate.
  - vm_compute. reflexivity.
Defined.

(** C4 as stated fails on the order of the appended fields: a field the
    upstream names by an array index is listed first by the parsed map, so
    it is appended before the fields that precede it in the upstream
    header.  And an upstream header that is present but empty is not
    passed through: no header is set. *)
Lemma merge_order_counterexample :
  (segments (js "total=300; 0=5; expire=999")
   = [(js "total", js "300"); (js "0", js "5"); (js "expire", js "999")]
   /\ userinfoOf
        (deliverSub noHost
           (sampleSub (SubInfo.mk (Some (js "1")) None None None None))
           (js "https://example.com/feed")
           (Ok (sampleUpstream (Some (js "total=300; 0=5; expire=999")))))
      = Some (js "upload=1; 0=5; total=300; expire=999")
   /\ js "upload=1; 0=5; total=300; expire=999"
      <> js "upload=1; total=300; 0=5; expire=999")
  /\ (buildSubscriptionHeaders noHost
        (Some (SubInfo.mk None None None None None)) = Ok []
      /\ userinfoOf
           (deliverSub noHost
              (sampleSub (SubInfo.mk None None None None None))
              (js "https://example.com/feed")
              (Ok (sampleUpstream (Some []))))
         = None).
Proof.
  split; [split; [vm_compute; reflexivity|]|split; vm_compute; reflexivity].
  split; [vm_compute; reflexivity|]. vm_compute. discriminate.
Qed.
(** ** The upload handler *)

(** A multipart upload whose file is over the ceiling, or whose type is an
    image, a video or an audio type, is answered 400 and writes nothing. *)
Lemma multipart_rejects (fresh : list Z) (now : Z) (fd : FormData)
    (file : File) (env : KV) :
  fd_file fd = Some file ->
  25 * 1024 * 1024 < Z.of_nat (length (file_bytes file))
  \/ startsWith (js "image/") (file_type file) = true
  \/ startsWith (js "video/") (file_type file) = true
  \/ startsWith (js "audio/") (file_type file) = true ->
  exists msg,
    handleUpload fresh now (Multipart fd) env
    = (Ok (json [(js "error", msg)] 400), env).
Proof.
  intros Hfile Hbad. unfold handleUpload, readForm. rewrite Hfile.
  destruct (Z.ltb_spec (25 * 1024 * 1024) (Z.of_nat (length (file_bytes file))))
    as [Hbig|Hsmall]; [eauto|].
  unfold isAllowedFile.
  destruct Hbad as [Hbig | [Hm | [Hm | Hm]]]; [lia| | |];
    rewrite Hm, ?orb_true_r; simpl; eauto.
Qed.

(** The JSON branch runs neither check: whatever the content and its
    declared type, the record is written. *)
Lemma json_upload_unchecked (fresh content mime : list Z) (now : Z) :
  handleUpload fresh now
    (Json (mkJsonBody (Some content) None (Some mime) None None None None
                      None None))
    (mkKV ∅ ∅)
  = (Ok (json [(js "id", fresh); (js "url", js "/raw/" ++ fresh)] 200),
     mkKV {[ fresh :=
               Meta.mk fresh (js "text.txt") (orStr (Some mime) (js "text/plain"))
                 (Z.of_nat (length (orStr (Some content) []))) (js "text")
                 None None false None None 0 now ]}
          {[ fresh := orStr (Some content) [] ]}).
Proof. reflexivity. Qed.

(** C9, at the failing input. A JSON upload that declares an image type
    is answered 200 and its record is created, where the multipart branch
    answers 400 to a file of the same type and creates nothing; and once
    stored, the content is served back under that type. *)
Theorem json_upload_accepts_blocked_type :
  (handleUpload (js "Ab3dE9xz") 1000
     (Json (mkJsonBody (Some (js "aGk=")) (Some (js "a.png"))
                       (Some (js "image/png")) None None None None None None))
     (mkKV ∅ ∅)).1
  = Ok (json [(js "id", js "Ab3dE9xz"); (js "url", js "/raw/Ab3dE9xz")] 200)
  /\ Meta.contentType <$>
       getMeta
         (handleUpload (js "Ab3dE9xz") 1000
            (Json (mkJsonBody (Some (js "aGk=")) (Some (js "a.png"))
                              (Some (js "image/png")) None None None None
                              None None))
            (mkKV ∅ ∅)).2 (js "Ab3dE9xz")
     = Some (js "image/png")
  /\ handleUpload (js "Ab3dE9xz") 1000
       (Multipart (mkFormData (Some (mkFile (js "a.png") (js "image/png") (js "hi")))
                              None None None None None None))
       (mkKV ∅ ∅)
     = (Ok (json [(js "error", js "File type blocked")] 400), mkKV ∅ ∅)
  /\ statusOf
       (handleRaw noHost (js "Ab3dE9xz") 2000
          (handleUpload (js "Ab3dE9xz") 1000
             (Json (mkJsonBody (Some (js "aGk=")) (Some (js "a.png"))
                               (Some (js "image/png")) None None None None
                               None None))
             (mkKV ∅ ∅)).2).1
     = Some (200, BBytes (js "hi")).
Proof. repeat split; vm_compute; reflexivity. Qed.

(** A JSON upload can store a name that is a lone surrogate, the input on
    which the header builder raises. *)
Lemma json_upload_stores_lone_surrogate :
  Meta.subscriptionInfo <$>
    getMeta
      (handleUpload (js "abc") 0
         (Json (mkJsonBody (Some (js "hello")) (Some (js "note.txt")) None None
                  (Some (SubInfo.mk None None None None (Some [55296])))
                  None None None None))
         (mkKV ∅ ∅)).2 (js "abc")
  = Some (Meta.subscriptionInfo sampleBadName).
Proof. vm_compute. reflexivity. Qed.

(** A multipart upload can store [maxDownloads] 0, a JSON upload cannot:
    [parseInt] keeps the 0 that [||] turns into null. *)
Lemma multipart_stores_zero_limit :
  Meta.maxDownloads <$>
    getMeta
      (handleUpload (js "abc") 0
         (Multipart (mkFormData (Some (mkFile (js "a.txt") (js "text/plain") (js "hi")))
                                None None None (Some (js "0")) None None))
         (mkKV ∅ ∅)).2 (js "abc")
  = Some (Some 0)
  /\ Meta.maxDownloads <$>
       getMeta
         (handleUpload (js "abc") 0
            (Json (mkJsonBody (Some (js "hi")) None None None None None None
                              (Some 0) None))
            (mkKV ∅ ∅)).2 (js "abc")
     = Some None.
Proof. split; vm_compute; reflexivity. Qed.

Lemma multipart_rejects_witness :
  startsWith (js "video/") (js "video/mp4") = true
  /\ exists msg,
       handleUpload (js "Ab3dE9xz") 1000
         (Multipart (mkFormData (Some (mkFile (js "a.mp4") (js "video/mp4") (js "hi")))
                                None None None None None None))
         (mkKV ∅ ∅)
       = (Ok (json [(js "error", msg)] 400), mkKV ∅ ∅).
Proof.
  split; [reflexivity|].
  apply (multipart_rejects _ _ _ (mkFile (js "a.mp4") (js "video/mp4") (js "hi")));
    [reflexivity|].
  right. right. left. reflexivity.
Defined.
(** * Properties of the rest of the worker *)

(** ** Identifiers *)

Lemma join_nil_concat (parts : list (list Z)) : join [] parts = concat parts.
Proof.
  induction parts as [|p [|q rest] IH]; simpl in *.
  - reflexivity.
  - now rewrite app_nil_r.
  - now rewrite IH.
Qed.

Lemma idChars_at (i : Z) :
  0 <= i < 62 -> exists c, charAt idChars i = [c] /\ isAlnum c = true.
Proof.
  intros Hi. unfold charAt.
  assert (Hn : (Z.to_nat i < 62)%nat) by lia.
  revert Hn. generalize (Z.to_nat i). intros n Hn.
  do 62 (destruct n as [|n]; [eexists; split; reflexivity|]).
  lia.
Qed.

(** X1.  An identifier [generateId] draws has exactly [len] code units, each a
    letter or a digit, whatever values the random source gives. *)
Theorem generateId_alphanumeric (entropy : nat -> Z) (len : nat) :
  length (generateId entropy len) = len
  /\ Forall (fun c => isAlnum c = true) (generateId entropy len).
Proof.
  unfold generateId, getRandomValues. rewrite join_nil_concat, map_map.
  change (Z.of_nat (length idChars)) with 62.
  assert (H : forall l : list nat,
             length (concat (map (fun i => charAt idChars ((entropy i mod 256) mod 62)) l))
             = length l
             /\ Forall (fun c => isAlnum c = true)
                       (concat (map (fun i => charAt idChars ((entropy i mod 256) mod 62)) l))).
  { induction l as [|i l [IH1 IH2]]; simpl.
    - split; [reflexivity | constructor].
    - destruct (idChars_at ((entropy i mod 256) mod 62)) as (c & -> & Hc).
      { apply Z.mod_pos_bound. lia. }
      simpl. split; [now rewrite IH1 | now constructor]. }
  destruct (H (seq 0 len)) as [H1 H2]. split; [|exact H2].
  rewrite H1. apply length_seq.
Qed.

(** X2.  The characters of an identifier are not drawn evenly: of the 256
    values of a random byte, five give each of the letters [a] to [h] and
    four give each of the other 54 characters. *)
Theorem generateId_bias :
  Forall (fun c => length (drawsOf c)
                   = if bool_decide (c ∈ js "abcdefgh") then 5%nat else 4%nat)
         idChars.
Proof.
  unfold idChars. 
  repeat (apply Forall_cons; split; [vm_compute; reflexivity|]).
  apply Forall_nil; exact I.
Qed.

(** ** The admin token and the login *)

Lemma startsWith_prefix (p s : list Z) :
  startsWith p s = true <-> s = p ++ drop (length p) s.
Proof.
  revert s. induction p as [|a p IH]; intros s; simpl.
  - rewrite drop_0. tauto.
  - destruct s as [|b s']; simpl.
    + split; discriminate.
    + rewrite andb_true_iff, Z.eqb_eq, IH. split.
      * intros [-> H]. now rewrite <- H.
      * intros H. injection H as -> H. split; [reflexivity | exact H].
Qed.

Lemma truthy_spec (x : option (list Z)) :
  truthy x = true <-> exists s, x = Some s /\ s <> [].
Proof.
  destruct x as [[|c s]|]; simpl; split; try discriminate.
  - intros (s & H1 & H2). congruence.
  - intros _. eexists. split; [reflexivity | discriminate].
  - reflexivity.
  - intros (s & H & _). discriminate.
Qed.

Lemma verifyAdminAuth_sound (req : Request) (vars : Vars) :
  verifyAdminAuth req vars = true ->
  exists password,
    ADMIN_PASSWORD vars = Some password
    /\ req_authorization req = Some (js "Bearer " ++ password).
Proof.
  unfold verifyAdminAuth; cbv zeta.
  destruct (truthy (req_authorization req)) eqn:Ht; cbn [negb orb];
    [|intros [=]].
  apply truthy_spec in Ht as (h & Hh & _). rewrite Hh.
  change (default [] (Some h)) with h.
  destruct (startsWith (js "Bearer ") h) eqn:Hs; cbn [negb];
    [|intros [=]].
  apply startsWith_prefix in Hs.
  destruct (ADMIN_PASSWORD vars) as [password|]; [|intros [=]].
  intros He. apply str_eqb_eq in He. exists password. split; [reflexivity|].
  rewrite Hs at 1. f_equal. f_equal. exact He.
Qed.

(** X3.  [verifyAdminAuth] accepts a request exactly when a password is set
    and the Authorization header is [Bearer ] followed by that password,
    code unit for code unit. *)
Theorem verifyAdminAuth_accepts_the_bearer_password (req : Request)
    (vars : Vars) :
  verifyAdminAuth req vars = true
  <-> exists password,
        ADMIN_PASSWORD vars = Some password
        /\ req_authorization req = Some (js "Bearer " ++ password).
Proof.
  split; [apply verifyAdminAuth_sound|].
  intros (password & Hp & Hh). unfold verifyAdminAuth; cbv zeta.
  rewrite Hp, Hh.
  change (default [] (Some (js "Bearer " ++ password)))
    with (js "Bearer " ++ password).
  rewrite startsWith_app. cbn [truthy negb orb app js]. apply str_eqb_refl.
Qed.

(** X4.  The login handler answers [{ success: true }] exactly when the body
    parses to a value whose [password] is identical to ADMIN_PASSWORD; two
    missing values are identical too. *)
Theorem admin_login_accepts_the_password (req : Request) (vars : Vars) :
  handleAdminLogin req vars = jsonApi ASuccess 200
  <-> exists b ids, req_json req = JsonValue b (ADMIN_PASSWORD vars) ids.
Proof.
  unfold handleAdminLogin. split.
  - destruct (req_json req) as [| |b password ids]; try discriminate.
    destruct (bool_decide (password = ADMIN_PASSWORD vars)) eqn:Hp;
      [|discriminate].
    apply bool_decide_eq_true in Hp as ->. eauto.
  - intros (b & ids & ->). now rewrite bool_decide_eq_true_2.
Qed.

(** X5.  When ADMIN_PASSWORD is not set, a login whose body has no [password]
    succeeds, yet no request at all passes [verifyAdminAuth]. *)
Theorem unset_password_opens_login_only (req : Request) (vars : Vars)
    (b : JsonBody) (ids : option (list (list Z))) :
  ADMIN_PASSWORD vars = None ->
  req_json req = JsonValue b None ids ->
  handleAdminLogin req vars = jsonApi ASuccess 200
  /\ forall req', verifyAdminAuth req' vars = false.
Proof.
  intros Hp Hj. split.
  - unfold handleAdminLogin. rewrite Hj, Hp. reflexivity.
  - intros req'. destruct (verifyAdminAuth req' vars) eqn:Ha; [|reflexivity].
    apply verifyAdminAuth_sound in Ha as (password & Hq & _). congruence.
Qed.

(** ** What the handlers keep true of the namespace *)

Lemma getMeta_deleteRecord (id id' : list Z) (env : KV) :
  getMeta (deleteRecord id env) id' =
  if decide (id = id') then None else getMeta env id'.
Proof. unfold getMeta, deleteRecord, deleteContent, deleteMeta; simpl. apply lookup_delete. Qed.

Lemma getContent_deleteRecord (id id' : list Z) (env : KV) :
  getContent (deleteRecord id env) id' =
  if decide (id = id') then None else getContent env id'.
Proof. unfold getContent, deleteRecord, deleteContent, deleteMeta; simpl. apply lookup_delete. Qed.

Lemma getContent_putMeta (id id' : list Z) (m : Meta.t) (env : KV) :
  getContent (putMeta id m env) id' = getContent env id'.
Proof. reflexivity. Qed.

Lemma getMeta_putContent (id id' c : list Z) (env : KV) :
  getMeta (putContent id c env) id' = getMeta env id'.
Proof. reflexivity. Qed.

Lemma getContent_putContent (id id' c : list Z) (env : KV) :
  getContent (putContent id c env) id' =
  if decide (id = id') then Some c else getContent env id'.
Proof. unfold getContent, putContent; simpl. apply lookup_insert. Qed.

Lemma wellKept_empty : wellKept emptyKV.
Proof.
  split.
  - intros id meta H. unfold getMeta, emptyKV in H. simpl in H.
    rewrite lookup_empty in H. discriminate.
  - intros id [c H]. unfold getContent, emptyKV in H. simpl in H.
    rewrite lookup_empty in H. discriminate.
Qed.

Lemma wellKept_deleteRecord (id : list Z) (env : KV) :
  wellKept env -> wellKept (deleteRecord id env).
Proof.
  intros [Hm Hc]. split.
  - intros id' meta. rewrite getMeta_deleteRecord, getContent_deleteRecord.
    destruct (decide (id = id')); [discriminate|]. apply Hm.
  - intros id'. rewrite getMeta_deleteRecord, getContent_deleteRecord.
    destruct (decide (id = id')); [intros [c [=]]|]. apply Hc.
Qed.

Lemma wellKept_counted (id : list Z) (meta : Meta.t) (env : KV) :
  wellKept env -> getMeta env id = Some meta -> limitReached meta = false ->
  wellKept (putMeta id (countDownload meta) env).
Proof.
  intros [Hm Hc] Hg Hl. destruct (Hm id meta Hg) as (Hid & Hcont & Hcnt & Hmax).
  split.
  - intros id' meta'. rewrite getMeta_putMeta, getContent_putMeta.
    destruct (decide (id = id')) as [<-|]; [|apply Hm].
    intros [= <-]. rewrite countDownload_eq. simpl.
    split; [assumption|]. split; [assumption|]. split; [lia|].
    intros n Hn Hpos. unfold limitReached in Hl. rewrite Hn in Hl.
    apply andb_false_iff in Hl as [Hl|Hl]; [apply negb_false_iff in Hl|]; lia.
  - intros id'. rewrite getMeta_putMeta, getContent_putMeta.
    destruct (decide (id = id')); [eauto|]. apply Hc.
Qed.

Lemma wellKept_stored (id content : list Z) (meta : Meta.t) (env : KV) :
  wellKept env -> Meta.id meta = id ->
  Meta.size meta = Z.of_nat (length content) ->
  Meta.downloadCount meta = 0 ->
  wellKept (putMeta id meta (putContent id content env)).
Proof.
  intros [Hm Hc] Hid Hsize Hcnt. split.
  - intros id' meta'.
    rewrite getMeta_putMeta, getContent_putMeta, getMeta_putContent,
      getContent_putContent.
    destruct (decide (id = id')) as [<-|]; [|apply Hm].
    intros [= <-]. split; [assumption|].
    split; [eexists; split; [reflexivity | assumption]|].
    split; [lia | intros; lia].
  - intros id'.
    rewrite getMeta_putMeta, getContent_putMeta, getMeta_putContent,
      getContent_putContent.
    destruct (decide (id = id')); [eauto|]. apply Hc.
Qed.

Section Invariant.
Variable host : list Z -> option Z.
Variable vars : Vars.

Lemma serve_wellKept (r : ReadRequest) (env : KV) :
  wellKept env -> wellKept (serve host r env).2.
Proof.
  intros Hk. rewrite serve_unfold.
  destruct (getMeta env (requestId r)) as [meta|] eqn:Hg; [|exact Hk].
  destruct (isExpired meta (requestTime r)).
  { apply (wellKept_deleteRecord _ _ Hk). }
  destruct (limitReached meta) eqn:Hl; [exact Hk|].
  destruct (getContent env (requestId r)) as [[|c content]|]; try exact Hk.
  simpl. unfold burnOrPersist.
  destruct (Meta.burnAfterRead (countDownload meta)).
  - apply (wellKept_deleteRecord _ _ Hk).
  - now apply wellKept_counted.
Qed.

Lemma handleUpload_wellKept (fresh : list Z) (now : Z) (req : UploadRequest)
    (env : KV) :
  wellKept env -> wellKept (handleUpload fresh now req env).2.
Proof.
  intros Hk. unfold handleUpload.
  destruct (match req with Multipart fd => readForm fd | Json b => inr (readJson b) end)
    as [rejected|u]; [exact Hk|].
  destruct (truthy (u_customSlug u) && _); [exact Hk|].
  destruct (computeExpiresAt (u_expiresIn u) now); [|exact Hk].
  simpl. now apply wellKept_stored.
Qed.

Lemma batch_wellKept (ids : list (list Z)) (env : KV) (n : Z) :
  wellKept env ->
  wellKept (fold_left (fun '(env, successCount) id =>
                         (deleteRecord id env, successCount + 1))
                      ids (env, n)).1.
Proof.
  revert env n. induction ids as [|id ids IH]; intros env n Hk; simpl.
  - exact Hk.
  - apply IH. now apply wellKept_deleteRecord.
Qed.

Lemma cleanup_wellKept (now : Z) (ks : list (list Z)) (acc : KV * Z) :
  wellKept acc.1 -> wellKept (fold_left (cleanupStep now) ks acc).1.
Proof.
  revert acc. induction ks as [|k ks IH]; intros acc Hk; simpl.
  - exact Hk.
  - apply IH. unfold cleanupStep.
    destruct (getMeta acc.1 k) as [meta|]; [|exact Hk].
    destruct (isExpired meta now); [|exact Hk].
    simpl. now apply wellKept_deleteRecord.
Qed.

Lemma fetch_wellKept (w : World) (req : Request) (env : KV) :
  wellKept env -> wellKept (fetch host vars w req env).2.
Proof.
  intros Hk. unfold fetch.
  destruct (route vars (req_method req) (req_pathname req)); simpl;
    try exact Hk.
  - destruct (readUploadBody req) as [body|]; [|exact Hk].
    pose proof (handleUpload_wellKept (generateId (w_entropy w) 8) (w_now w)
                  body env Hk) as H.
    destruct (handleUpload _ _ _ _). exact H.
  - pose proof (serve_wellKept (GetRaw id (w_now w)) env Hk) as H.
    simpl in H. destruct (handleRaw _ _ _ _). exact H.
  - pose proof (serve_wellKept (GetSub id (w_now w) (w_fetched w)) env Hk) as H.
    simpl in H. destruct (handleSub _ _ _ _ _). exact H.
  - unfold handleAdminDelete. destruct (negb _); simpl; [exact Hk|].
    now apply wellKept_deleteRecord.
  - unfold handleAdminBatchDelete. destruct (negb _); simpl; [exact Hk|].
    destruct (req_json req) as [| |b password [ids|]]; simpl; try exact Hk.
    pose proof (batch_wellKept ids env 0 Hk) as H.
    destruct (fold_left _ ids (env, 0)). exact H.
  - unfold handleAdminCleanup. destruct (negb _); simpl; [exact Hk|].
    pose proof (cleanup_wellKept (w_now w) (listMeta env) (env, 0) Hk) as H.
    unfold cleanupExpiredFiles. destruct (fold_left _ _ _). exact H.
Qed.

Lemma fetchAll_wellKept (reqs : list (World * Request)) (env : KV) :
  wellKept env -> wellKept (fetchAll host vars reqs env).
Proof.
  revert env. induction reqs as [|[w req] reqs IH]; intros env Hk; simpl.
  - exact Hk.
  - apply IH. now apply fetch_wellKept.
Qed.

End Invariant.

(** ** What a request without the token can do *)

Section Frame.
Variable host : list Z -> option Z.
Variable vars : Vars.

Lemma serve_frame (r : ReadRequest) (env : KV) (id : list Z) :
  id <> requestId r ->
  getMeta (serve host r env).2 id = getMeta env id
  /\ getContent (serve host r env).2 id = getContent env id.
Proof.
  intros Hne. rewrite serve_unfold.
  destruct (getMeta env (requestId r)) as [meta|]; [|split; reflexivity].
  destruct (isExpired meta (requestTime r)).
  { change (deleteContent (requestId r) (deleteMeta (requestId r) env))
      with (deleteRecord (requestId r) env). simpl.
    rewrite getMeta_deleteRecord, getContent_deleteRecord.
    destruct (decide (requestId r = id)); [congruence | split; reflexivity]. }
  destruct (limitReached meta); [split; reflexivity|].
  destruct (getContent env (requestId r)) as [[|c content]|];
    try (split; reflexivity).
  simpl. unfold burnOrPersist.
  destruct (Meta.burnAfterRead (countDownload meta)).
  - change (deleteContent (requestId r) (deleteMeta (requestId r) env))
      with (deleteRecord (requestId r) env).
    rewrite getMeta_deleteRecord, getContent_deleteRecord.
    destruct (decide (requestId r = id)); [congruence | split; reflexivity].
  - rewrite getMeta_putMeta, getContent_putMeta.
    destruct (decide (requestId r = id)); [congruence | split; reflexivity].
Qed.

Lemma serve_survives (r : ReadRequest) (env : KV) (id : list Z)
    (meta : Meta.t) (content : list Z) :
  getMeta env id = Some meta -> getContent env id = Some content ->
  isExpired meta (requestTime r) = false -> Meta.burnAfterRead meta = false ->
  getContent (serve host r env).2 id = Some content
  /\ (getMeta (serve host r env).2 id = Some meta
      \/ getMeta (serve host r env).2 id = Some (countDownload meta)).
Proof.
  intros Hm Hc He Hb.
  destruct (decide (id = requestId r)) as [->|Hne].
  - rewrite serve_unfold, Hm, He, Hc.
    destruct (limitReached meta); [simpl; auto|].
    destruct content as [|c content]; [simpl; auto|].
    simpl. unfold burnOrPersist.
    replace (Meta.burnAfterRead (countDownload meta)) with false
      by (rewrite countDownload_eq; symmetry; exact Hb).
    rewrite getMeta_putMeta, getContent_putMeta.
    destruct (decide (requestId r = requestId r)); [auto | congruence].
  - destruct (serve_frame r env id Hne) as [-> ->]. auto.
Qed.

Lemma handleUpload_survives (fresh : list Z) (now : Z) (req : UploadRequest)
    (env : KV) (id : list Z) (meta : Meta.t) :
  getMeta env id = Some meta -> fresh <> id ->
  getMeta (handleUpload fresh now req env).2 id = getMeta env id
  /\ getContent (handleUpload fresh now req env).2 id = getContent env id.
Proof.
  intros Hm Hne. unfold handleUpload.
  destruct (match req with Multipart fd => readForm fd | Json b => inr (readJson b) end)
    as [rejected|u]; [split; reflexivity|].
  destruct (truthy (u_customSlug u) && _) eqn:Hslug; [split; reflexivity|].
  destruct (computeExpiresAt (u_expiresIn u) now); [|split; reflexivity].
  simpl.
  assert (Hid : orStr (u_customSlug u) fresh <> id).
  { unfold orStr in *. destruct (truthy (u_customSlug u)); [|exact Hne].
    simpl in Hslug. apply bool_decide_eq_false in Hslug.
    intros Heq. apply Hslug. rewrite Heq, Hm. eauto. }
  rewrite getMeta_putMeta, getContent_putMeta, getMeta_putContent,
    getContent_putContent.
  destruct (decide (orStr (u_customSlug u) fresh = id)); [congruence|].
  split; reflexivity.
Qed.

Lemma fetch_unauthorized (w : World) (req : Request) (env : KV) :
  tokenProtected (route vars (req_method req) (req_pathname req)) = true ->
  verifyAdminAuth req vars = false ->
  fetch host vars w req env = (Api unauthorized, env).
Proof.
  intros Hr Ha. unfold fetch.
  destruct (route vars (req_method req) (req_pathname req));
    try discriminate Hr; simpl;
    unfold handleAdminRecords, handleAdminDelete, handleAdminBatchDelete,
      handleAdminDownload, handleAdminStats, handleAdminCleanup;
    rewrite Ha; reflexivity.
Qed.

(** X6.  Without the admin token no request removes or alters a record that
    is neither expired nor burn-after-read, unless an upload draws its
    identifier: after any such request the content is the same and the
    metadata is the same or has one more download counted. *)
Theorem record_survives_unauthorized (w : World) (req : Request) (env : KV)
    (id : list Z) (meta : Meta.t) (content : list Z) :
  verifyAdminAuth req vars = false ->
  getMeta env id = Some meta ->
  getContent env id = Some content ->
  isExpired meta (w_now w) = false ->
  Meta.burnAfterRead meta = false ->
  generateId (w_entropy w) 8 <> id ->
  getContent (fetch host vars w req env).2 id = Some content
  /\ (getMeta (fetch host vars w req env).2 id = Some meta
      \/ getMeta (fetch host vars w req env).2 id = Some (countDownload meta)).
Proof.
  intros Ha Hm Hc He Hb Hfresh.
  destruct (tokenProtected (route vars (req_method req) (req_pathname req)))
    eqn:Hp.
  { rewrite (fetch_unauthorized w req env Hp Ha). simpl. auto. }
  unfold fetch.
  destruct (route vars (req_method req) (req_pathname req)) as
    [ | | |rid|sid|mid| | |did| |did| | | ]; try discriminate Hp; simpl; auto.
  - destruct (readUploadBody req) as [body|]; [|simpl; auto].
    destruct (handleUpload_survives (generateId (w_entropy w) 8) (w_now w)
                body env id meta Hm Hfresh) as [H1 H2].
    destruct (handleUpload _ _ _ _). simpl in *. rewrite H1, H2. auto.
  - pose proof (serve_survives (GetRaw rid (w_now w)) env id meta content
                  Hm Hc He Hb) as H.
    simpl in H. destruct (handleRaw _ _ _ _). exact H.
  - pose proof (serve_survives (GetSub sid (w_now w) (w_fetched w)) env id meta
                  content Hm Hc He Hb) as H.
    simpl in H. destruct (handleSub _ _ _ _ _). exact H.
Qed.

End Frame.

(** ** Reads and the records they touch *)

Section Locked.
Variable host : list Z -> option Z.

Lemma serve_locked (r : ReadRequest) (env : KV) (id : list Z) (meta : Meta.t)
    (n : Z) :
  getMeta env id = Some meta ->
  Meta.maxDownloads meta = Some n -> n < 0 ->
  0 <= Meta.downloadCount meta ->
  Meta.expiresAt meta = None ->
  getMeta (serve host r env).2 id = Some meta
  /\ (requestId r = id -> serve host r env = (limitResponse, env)).
Proof.
  intros Hm Hn Hneg Hc He.
  assert (Hexp : forall t, isExpired meta t = false).
  { intros t. unfold isExpired. now rewrite He. }
  assert (Hlim : limitReached meta = true).
  { unfold limitReached. rewrite Hn.
    replace (negb (n =? 0) && (n <=? Meta.downloadCount meta)) with true by lia.
    reflexivity. }
  assert (Hsame : requestId r = id -> serve host r env = (limitResponse, env)).
  { intros Hr. rewrite serve_unfold, Hr, Hm, Hexp, Hlim. reflexivity. }
  split; [|exact Hsame].
  destruct (decide (id = requestId r)) as [Heq|Hne].
  - rewrite Hsame by congruence. exact Hm.
  - destruct (serve_frame host r env id Hne) as [-> _]. exact Hm.
Qed.

(** X7.  A negative [maxDownloads] is a limit that is reached at once: a
    record without expiry that carries one stays as it is through any
    sequence of reads, and every read of it is answered 410
    [Download limit reached]. *)
Theorem negative_limit_locks_record (rs : list ReadRequest) (r : ReadRequest)
    (env : KV) (meta : Meta.t) (n : Z) :
  getMeta env (requestId r) = Some meta ->
  Meta.maxDownloads meta = Some n ->
  n < 0 ->
  0 <= Meta.downloadCount meta ->
  Meta.expiresAt meta = None ->
  getMeta (serveAll host rs env) (requestId r) = Some meta
  /\ serve host r (serveAll host rs env) = (limitResponse, serveAll host rs env).
Proof.
  intros Hm Hn Hneg Hc He.
  assert (H : getMeta (serveAll host rs env) (requestId r) = Some meta).
  { revert env Hm. induction rs as [|r' rs IH]; intros env Hm; [exact Hm|].
    cbn [serveAll fold_left]. apply IH.
    now destruct (serve_locked r' env (requestId r) meta n Hm Hn Hneg Hc He). }
  split; [exact H|].
  destruct (serve_locked r (serveAll host rs env) (requestId r) meta n
              H Hn Hneg Hc He) as [_ Hs].
  now apply Hs.
Qed.

(** X8.  A read on either route leaves the metadata and content of every
    other identifier as they were, and never creates or changes a content
    entry: any content found afterwards was there before. *)
Theorem read_touches_only_its_record (r : ReadRequest) (env : KV)
    (id : list Z) :
  (id <> requestId r ->
   getMeta (serve host r env).2 id = getMeta env id
   /\ getContent (serve host r env).2 id = getContent env id)
  /\ (forall content, getContent (serve host r env).2 id = Some content ->
                      getContent env id = Some content).
Proof.
  split; [apply serve_frame|].
  intros content. destruct (decide (id = requestId r)) as [->|Hne].
  - rewrite serve_unfold.
    destruct (getMeta env (requestId r)) as [meta|]; [|auto].
    destruct (isExpired meta (requestTime r)).
    { change (deleteContent (requestId r) (deleteMeta (requestId r) env))
        with (deleteRecord (requestId r) env). cbn [snd].
      rewrite getContent_deleteRecord. destruct (decide _); [discriminate | auto]. }
    destruct (limitReached meta); [auto|].
    destruct (getContent env (requestId r)) as [[|c cs]|] eqn:Hc;
      try (cbn [snd]; congruence).
    cbn [snd]. unfold burnOrPersist.
    destruct (Meta.burnAfterRead (countDownload meta)).
    + change (deleteContent (requestId r) (deleteMeta (requestId r) env))
        with (deleteRecord (requestId r) env).
      rewrite getContent_deleteRecord. destruct (decide _); [discriminate | congruence].
    + rewrite getContent_putMeta. congruence.
  - destruct (serve_frame host r env id Hne) as [_ ->]. auto.
Qed.

End Locked.

(** ** The dispatcher *)

(** *** What the URL parser keeps *)

Lemma pathChar_range (c : Z) :
  isPathChar c = true -> 32 < c <= 126 /\ c <> 35 /\ c <> 47 /\ c <> 63 /\ c <> 92.
Proof.
  unfold isPathChar, inPathPercentEncodeSet. intros H.
  apply andb_true_iff in H as [H H92]. apply andb_true_iff in H as [H H47].
  apply negb_true_iff in H. apply orb_false_iff in H as [H Hin].
  apply bool_decide_eq_false in Hin. rewrite !elem_of_cons in Hin.
  lia.
Qed.

Lemma strip_end_keeps (p : Z -> bool) (s : list Z) :
  Forall (fun c => p c = false) s -> rev (dropWhile p (rev s)) = s.
Proof.
  intros H. destruct s as [|a s] using rev_ind; [reflexivity|].
  apply Forall_app in H as [_ H]. apply Forall_cons in H as [H _].
  rewrite rev_app_distr. cbn [rev app dropWhile]. rewrite H.
  change (a :: rev s) with (rev [a] ++ rev s).
  rewrite <- rev_app_distr. apply rev_involutive.
Qed.

Lemma filter_all (p : Z -> bool) (s : list Z) :
  Forall (fun c => p c = true) s -> filter (fun c => p c) s = s.
Proof.
  induction s as [|c s IH]; intros H; [reflexivity|].
  apply Forall_cons in H as [Hc H].
  rewrite filter_cons_True by (rewrite Hc; exact I).
  now rewrite IH.
Qed.

Lemma takeWhile_all (p : Z -> bool) (s : list Z) :
  Forall (fun c => p c = true) s -> takeWhile p s = s.
Proof.
  induction s as [|c s IH]; intros H; [reflexivity|].
  apply Forall_cons in H as [Hc H]. simpl. rewrite Hc. now rewrite IH.
Qed.

Lemma map_keeps (f : Z -> Z) (s : list Z) :
  Forall (fun c => f c = c) s -> map f s = s.
Proof.
  induction s as [|c s IH]; intros H; [reflexivity|].
  apply Forall_cons in H as [Hc H]. simpl. now rewrite Hc, IH.
Qed.

Lemma encode_path_keeps (seg : list Z) :
  forallb isPathChar seg = true ->
  concat (map encodePathChar (codePoints seg)) = seg.
Proof.
  induction seg as [|c seg IH]; intros H; [reflexivity|].
  cbn [forallb] in H. apply andb_true_iff in H as [Hc H].
  pose proof (pathChar_range c Hc) as Hr.
  cbn [codePoints].
  replace (isHighSurrogate c) with false by (unfold isHighSurrogate; lia).
  replace (isLowSurrogate c) with false by (unfold isLowSurrogate; lia).
  cbn [map concat]. rewrite (IH H). unfold encodePathChar.
  unfold isPathChar in Hc. apply andb_true_iff in Hc as [Hc _].
  apply andb_true_iff in Hc as [Hc _]. apply negb_true_iff in Hc.
  now rewrite Hc.
Qed.

(** The parser keeps a path of two segments it has nothing to do on. *)
Lemma pathname_kept (p id : list Z) :
  keptInPath p = true -> keptInPath id = true ->
  pathname (47 :: p ++ 47 :: id) = 47 :: p ++ 47 :: id.
Proof.
  unfold keptInPath. intros Hp Hid.
  apply andb_true_iff in Hp as [Hp Hp2]. apply andb_true_iff in Hp as [Hp Hp1].
  apply andb_true_iff in Hid as [Hid Hid2]. apply andb_true_iff in Hid as [Hid Hid1].
  apply negb_true_iff in Hp1, Hp2, Hid1, Hid2.
  assert (Hall : Forall (fun c => 32 < c <= 126 /\ c <> 35 /\ c <> 63 /\ c <> 92)
                        (47 :: p ++ 47 :: id)).
  { rewrite forallb_forall in Hp, Hid.
    constructor; [lia|]. apply Forall_app. split; [|constructor; [lia|]].
    - apply Forall_forall. intros c Hc.
      apply list_elem_of_In, Hp, pathChar_range in Hc. lia.
    - apply Forall_forall. intros c Hc.
      apply list_elem_of_In, Hid, pathChar_range in Hc. lia. }
  unfold pathname.
  rewrite strip_end_keeps
    by (eapply Forall_impl; [exact Hall|]; unfold isC0ControlOrSpace; intros; lia).
  rewrite (filter_all (fun c => negb (isTabOrNewline c)))
    by (eapply Forall_impl; [exact Hall|]; unfold isTabOrNewline; intros; lia).
  rewrite takeWhile_all
    by (eapply Forall_impl; [exact Hall|]; cbv beta; intros; lia).
  rewrite map_keeps.
  2:{ eapply Forall_impl; [exact Hall|]. cbv beta. intros c Hc.
      destruct (Z.eqb_spec c 92); [lia | reflexivity]. }
  change (js "/") with [47].
  change (p ++ 47 :: id) with (join [47] [p; id]).
  rewrite split_join.
  - cbn [map]. rewrite (encode_path_keeps p Hp), (encode_path_keeps id Hid).
    cbn [pathState]. rewrite Hp1, Hp2. cbn [app]. rewrite Hid1, Hid2.
    cbn [app map concat]. now rewrite app_nil_r.
  - discriminate.
  - rewrite forallb_forall in Hp, Hid.
    repeat constructor; intros Hc; apply list_elem_of_In in Hc.
    + apply Hp, pathChar_range in Hc. lia.
    + apply Hid, pathChar_range in Hc. lia.
Qed.

Lemma alnum_pathChar (c : Z) : isAlnum c = true -> isPathChar c = true.
Proof.
  unfold isAlnum, isDigit, isPathChar, inPathPercentEncodeSet. intros H.
  assert (Hin : bool_decide (c ∈ [32; 34; 35; 60; 62; 63; 94; 96; 123; 125]) = false).
  { apply bool_decide_eq_false. rewrite !elem_of_cons, elem_of_nil. lia. }
  rewrite Hin. lia.
Qed.

Lemma alnum_no_dot (id : list Z) :
  Forall (fun c => isAlnum c = true) id ->
  isSingleDot id = false /\ isDoubleDot id = false.
Proof.
  intros H. destruct id as [|c id]; [split; reflexivity|].
  apply Forall_cons in H as [Hc _].
  assert (Hl : lowerAscii c <> 46 /\ lowerAscii c <> 37).
  { unfold lowerAscii, isAlnum, isDigit in *.
    destruct ((65 <=? c) && (c <=? 90)) eqn:Hu; lia. }
  unfold isSingleDot, isDoubleDot. cbn [map].
  rewrite !str_eqb_ne; [split; reflexivity|..];
    intros Heq; injection Heq as Heq _; lia.
Qed.

(** A drawn identifier is made of letters and digits. *)
Lemma generateId_alnum (entropy : nat -> Z) (len : nat) :
  Forall (fun c => isAlnum c = true) (generateId entropy len).
Proof.
  unfold generateId, getRandomValues. rewrite join_nil_concat, map_map.
  change (Z.of_nat (length idChars)) with 62.
  induction (seq 0 len) as [|i l IH]; [constructor|].
  cbn [map concat].
  destruct (idChars_at ((entropy i mod 256) mod 62)) as (c & -> & Hc).
  { apply Z.mod_pos_bound. lia. }
  now constructor.
Qed.

Lemma alnum_kept (id : list Z) :
  Forall (fun c => isAlnum c = true) id -> keptInPath id = true.
Proof.
  intros H. unfold keptInPath.
  destruct (alnum_no_dot id H) as [-> ->].
  rewrite !andb_true_r. apply forallb_forall. intros c Hc.
  apply alnum_pathChar. rewrite Forall_forall in H. apply H.
  now apply list_elem_of_In.
Qed.

Section Dispatch.
Variable host : list Z -> option Z.
Variable vars : Vars.

Lemma route_raw (method id : list Z) :
  method <> js "OPTIONS" -> route vars method (js "/raw/" ++ id) = ToRaw id.
Proof.
  intros Hm. unfold route. rewrite (str_eqb_ne _ _ Hm).
  rewrite (str_eqb_ne (js "/raw/" ++ id) (js "/api/config"))
    by (intros H; apply (f_equal (take 2)) in H; vm_compute in H; discriminate H).
  rewrite (str_eqb_ne (js "/raw/" ++ id) (js "/api/upload"))
    by (intros H; apply (f_equal (take 2)) in H; vm_compute in H; discriminate H).
  cbn [andb]. rewrite startsWith_app. reflexivity.
Qed.

Lemma route_sub (method id : list Z) :
  method <> js "OPTIONS" -> route vars method (js "/sub/" ++ id) = ToSub id.
Proof.
  intros Hm. unfold route. rewrite (str_eqb_ne _ _ Hm).
  rewrite (str_eqb_ne (js "/sub/" ++ id) (js "/api/config"))
    by (intros H; apply (f_equal (take 2)) in H; vm_compute in H; discriminate H).
  rewrite (str_eqb_ne (js "/sub/" ++ id) (js "/api/upload"))
    by (intros H; apply (f_equal (take 2)) in H; vm_compute in H; discriminate H).
  cbn [andb].
  change (startsWith (js "/raw/") (js "/sub/" ++ id)) with false.
  rewrite startsWith_app. reflexivity.
Qed.

(** X9.  Every request to [/raw/<id>] or [/sub/<id>] whose method is not
    OPTIONS is served as a read of [id], whatever the method: a POST or a
    DELETE counts a download and burns or expires the record like a GET. *)
Theorem read_routes_ignore_method (w : World) (req : Request) (env : KV)
    (id : list Z) :
  req_method req <> js "OPTIONS" ->
  (req_pathname req = js "/raw/" ++ id ->
   fetch host vars w req env
   = (Served (serve host (GetRaw id (w_now w)) env).1,
      (serve host (GetRaw id (w_now w)) env).2))
  /\ (req_pathname req = js "/sub/" ++ id ->
      fetch host vars w req env
      = (Served (serve host (GetSub id (w_now w) (w_fetched w)) env).1,
         (serve host (GetSub id (w_now w) (w_fetched w)) env).2)).
Proof.
  intros Hm. unfold fetch. split; intros ->.
  - rewrite route_raw by exact Hm. cbn [dispatch serve].
    now destruct (handleRaw _ _ _ _).
  - rewrite route_sub by exact Hm. cbn [dispatch serve].
    now destruct (handleSub _ _ _ _ _).
Qed.

Lemma readForm_rejects (fd : FormData) (resp : Response) :
  readForm fd = inl resp -> status resp = 400.
Proof.
  unfold readForm. destruct (fd_file fd) as [file|]; [|intros [= <-]; reflexivity].
  destruct (_ <? _); [intros [= <-]; reflexivity|].
  destruct (negb _); [intros [= <-]; reflexivity | discriminate].
Qed.

(** X10.  The [url] a successful upload answers, asked for at the origin of
    the worker, is routed to the read handler of the record just stored
    under the answered [id], [handleSub] for a subscription and
    [handleRaw] otherwise, and both entries of that record exist; this for
    an [id] the URL parser keeps as it is: no slash or backslash, nothing
    of the path percent-encode set (so no [?], [#], space or character
    beyond ASCII), and not a dot segment.  Every drawn identifier is such
    an [id] ([generateId_alnum], [alnum_kept]). *)
Theorem upload_url_routes_to_its_record (fresh : list Z) (now : Z)
    (req : UploadRequest) (env env' : KV) (id url : list Z) :
  handleUpload fresh now req env
  = (Ok (json [(js "id", id); (js "url", url)] 200), env') ->
  keptInPath id = true ->
  exists meta content,
    getMeta env' id = Some meta /\ getContent env' id = Some content
    /\ route vars (js "GET") (pathname url)
       = if str_eqb (Meta.type meta) (js "subscription")
         then ToSub id else ToRaw id.
Proof.
  unfold handleUpload.
  destruct (match req with Multipart fd => readForm fd | Json b => inr (readJson b) end)
    as [rejected|u] eqn:Hu.
  { destruct req as [fd|b]; [|discriminate].
    apply readForm_rejects in Hu. intros [= ->]. discriminate Hu. }
  destruct (truthy (u_customSlug u) && _); [intros [=]|].
  destruct (computeExpiresAt (u_expiresIn u) now); [|intros [=]].
  intros [= <- <- <-] Hid.
  eexists. eexists. split; [|split].
  - rewrite getMeta_putMeta.
    destruct (decide (orStr (u_customSlug u) fresh = orStr (u_customSlug u) fresh));
      [reflexivity | congruence].
  - rewrite getContent_putMeta, getContent_putContent.
    destruct (decide (orStr (u_customSlug u) fresh = orStr (u_customSlug u) fresh));
      [reflexivity | congruence].
  - cbn [Meta.type]. destruct (str_eqb (u_type u) (js "subscription")).
    + change (route vars (js "GET")
                (pathname (47 :: js "sub" ++ 47 :: orStr (u_customSlug u) fresh))
              = ToSub (orStr (u_customSlug u) fresh)).
      rewrite (pathname_kept (js "sub") _ eq_refl Hid).
      apply route_sub. discriminate.
    + change (route vars (js "GET")
                (pathname (47 :: js "raw" ++ 47 :: orStr (u_customSlug u) fresh))
              = ToRaw (orStr (u_customSlug u) fresh)).
      rewrite (pathname_kept (js "raw") _ eq_refl Hid).
      apply route_raw. discriminate.
Qed.

(** A slug with a question mark is accepted and stored, and the url that
    is answered leads to another record: the parser ends the path at the
    question mark. *)
Example slug_with_query_is_not_reached :
  (handleUpload (js "Ab3dE9xz") 1000
     (Json (mkJsonBody (Some (js "hello")) None None None None None None None
                       (Some (js "a?b")))) emptyKV).1
  = Ok (json [(js "id", js "a?b"); (js "url", js "/raw/a?b")] 200)
  /\ route vars (js "GET") (pathname (js "/raw/a?b")) = ToRaw (js "a").
Proof.
  split; [vm_compute; reflexivity|].
  change (pathname (js "/raw/a?b")) with (js "/raw/" ++ js "a").
  apply route_raw. discriminate.
Qed.
(** X11.  A request routed to one of the six token-protected admin handlers
    (records, delete, batch-delete, download, stats, cleanup) whose
    Authorization header is not [Bearer ] followed by the password is
    answered 401 [Unauthorized], and the namespace is left as it was. *)
Theorem admin_routes_require_token (w : World) (req : Request) (env : KV) :
  tokenProtected (route vars (req_method req) (req_pathname req)) = true ->
  (forall password, ADMIN_PASSWORD vars = Some password ->
                    req_authorization req <> Some (js "Bearer " ++ password)) ->
  fetch host vars w req env = (Api unauthorized, env).
Proof.
  intros Hr Hh. apply fetch_unauthorized; [exact Hr|].
  destruct (verifyAdminAuth req vars) eqn:Ha; [|reflexivity].
  apply verifyAdminAuth_sound in Ha as (password & Hp & Hq).
  now destruct (Hh password Hp).
Qed.

End Dispatch.

(** ** The namespaces that can be reached *)

Section Reachable.
Variable host : list Z -> option Z.
Variable vars : Vars.

(** X12.  In every namespace reached from the empty one by any sequence of
    requests, an identifier has a metadata entry exactly when it has a
    content entry, the record stored under an identifier carries that
    identifier, and its [size] is the length of the content. *)
Theorem stored_records_are_consistent (reqs : list (World * Request))
    (id : list Z) :
  let env := fetchAll host vars reqs emptyKV in
  (is_Some (getMeta env id) <-> is_Some (getContent env id))
  /\ forall meta, getMeta env id = Some meta ->
       Meta.id meta = id
       /\ exists content, getContent env id = Some content
                          /\ Meta.size meta = Z.of_nat (length content).
Proof.
  intros env. destruct (fetchAll_wellKept host vars reqs emptyKV wellKept_empty)
    as [Hm Hc]. fold env in Hm, Hc. split; [split|].
  - intros [meta H]. destruct (Hm id meta H) as (_ & (c & Hc' & _) & _). eauto.
  - apply Hc.
  - intros meta H. destruct (Hm id meta H) as (Hid & Hcont & _). auto.
Qed.

(** X13.  In every namespace reached from the empty one by any sequence of
    requests (served one after the other), the download count of a record
    with a positive [maxDownloads] is between 0 and that limit. *)
Theorem downloads_never_exceed_limit (reqs : list (World * Request))
    (id : list Z) (meta : Meta.t) (n : Z) :
  getMeta (fetchAll host vars reqs emptyKV) id = Some meta ->
  Meta.maxDownloads meta = Some n ->
  0 < n ->
  0 <= Meta.downloadCount meta <= n.
Proof.
  intros Hg Hn Hpos.
  destruct (fetchAll_wellKept host vars reqs emptyKV wellKept_empty) as [Hm _].
  destruct (Hm id meta Hg) as (_ & _ & H0 & Hmax). split; [exact H0 | eauto].
Qed.

End Reachable.

Section Shadow.
Variable vars : Vars.
Hypothesis Hfile :
  startsWith (js "file/") (orStr (ADMIN_PATH vars) (js "admin") ++ js "/") = true.

Lemma under_file (pathname rest : list Z) :
  startsWith (js "/api/" ++ orStr (ADMIN_PATH vars) (js "admin") ++ js "/" ++ rest)
             pathname = true ->
  startsWith (js "/api/file/") pathname = true.
Proof.
  intros H. apply startsWith_prefix in H. apply startsWith_prefix in Hfile.
  rewrite H. rewrite (app_assoc (orStr _ _) (js "/") rest), Hfile.
  rewrite <- !app_assoc.
  change (js "/api/" ++ js "file/" ++ ?t) with (js "/api/file/" ++ t).
  apply startsWith_app.
Qed.

Lemma at_file (pathname rest : list Z) :
  str_eqb pathname
          (js "/api/" ++ orStr (ADMIN_PATH vars) (js "admin") ++ js "/" ++ rest)
  = true ->
  startsWith (js "/api/file/") pathname = true.
Proof.
  intros H. apply str_eqb_eq in H. apply (under_file pathname rest).
  rewrite H. rewrite <- (app_nil_r (js "/api/" ++ _)) at 2.
  apply startsWith_app.
Qed.

(** X14.  When ADMIN_PATH is [file] or begins with [file/], no request is ever
    routed to a handler of the admin interface, the login included: the
    test for [/api/file/] comes first and takes every path under
    [/api/<ADMIN_PATH>/]. *)
Theorem admin_path_file_is_shadowed (method pathname : list Z) :
  adminRoute (route vars method pathname) = false.
Proof.
  unfold route.
  destruct (str_eqb method (js "OPTIONS")); [reflexivity|].
  destruct (str_eqb pathname (js "/api/config")); [reflexivity|].
  destruct (str_eqb pathname (js "/api/upload") && _); [reflexivity|].
  destruct (startsWith (js "/raw/") pathname); [reflexivity|].
  destruct (startsWith (js "/sub/") pathname); [reflexivity|].
  destruct (startsWith (js "/api/file/") pathname) eqn:Hf; [reflexivity|].
  cbv zeta.
  assert (Hat : forall rest,
             str_eqb pathname
               (js "/api/" ++ orStr (ADMIN_PATH vars) (js "admin") ++ js "/" ++ rest)
             = false).
  { intros rest.
    destruct (str_eqb pathname
                (js "/api/" ++ orStr (ADMIN_PATH vars) (js "admin") ++ js "/" ++ rest))
      eqn:H; [|reflexivity].
    apply at_file in H. congruence. }
  assert (Hunder : forall rest,
             startsWith
               (js "/api/" ++ orStr (ADMIN_PATH vars) (js "admin") ++ js "/" ++ rest)
               pathname = false).
  { intros rest.
    destruct (startsWith
                (js "/api/" ++ orStr (ADMIN_PATH vars) (js "admin") ++ js "/" ++ rest)
                pathname) eqn:H; [|reflexivity].
    apply under_file in H. congruence. }
  change (js "/login") with (js "/" ++ js "login").
  change (js "/records") with (js "/" ++ js "records").
  change (js "/delete/") with (js "/" ++ js "delete/").
  change (js "/batch-delete") with (js "/" ++ js "batch-delete").
  change (js "/download/") with (js "/" ++ js "download/").
  change (js "/stats") with (js "/" ++ js "stats").
  change (js "/cleanup") with (js "/" ++ js "cleanup").
  rewrite !Hat, !Hunder. reflexivity.
Qed.

End Shadow.

Lemma admin_path_file_witness :
  adminRoute (route fileVars (js "POST") (js "/api/file/login")) = false
  /\ route fileVars (js "POST") (js "/api/file/login") = ToMetadata (js "login").
Proof.
  split.
  - apply (admin_path_file_is_shadowed fileVars). reflexivity.
  - vm_compute. reflexivity.
Defined.

Section Metadata.
Variable host : list Z -> option Z.
Variable vars : Vars.

Lemma route_metadata (method id : list Z) (more : list (list Z)) :
  method <> js "OPTIONS" ->
  47 ∉ id ->
  Forall (fun p => 47 ∉ p) more ->
  route vars method (join (js "/") ([] :: js "api" :: js "file" :: id :: more))
  = ToMetadata id.
Proof.
  intros Hm Hid Hmore.
  assert (Hpath : join (js "/") ([] :: js "api" :: js "file" :: id :: more)
                  = js "/api/file/" ++ join (js "/") (id :: more))
    by reflexivity.
  unfold route. rewrite (str_eqb_ne _ _ Hm).
  rewrite (str_eqb_ne _ (js "/api/config"))
    by (rewrite Hpath; intros H; apply (f_equal (take 6)) in H;
        vm_compute in H; discriminate H).
  rewrite (str_eqb_ne _ (js "/api/upload"))
    by (rewrite Hpath; intros H; apply (f_equal (take 6)) in H;
        vm_compute in H; discriminate H).
  cbn [andb].
  assert (Hraw : startsWith (js "/raw/")
                   (join (js "/") ([] :: js "api" :: js "file" :: id :: more))
                 = false) by (rewrite Hpath; reflexivity).
  assert (Hsub : startsWith (js "/sub/")
                   (join (js "/") ([] :: js "api" :: js "file" :: id :: more))
                 = false) by (rewrite Hpath; reflexivity).
  rewrite Hraw, Hsub.
  assert (Hfile : startsWith (js "/api/file/")
                    (join (js "/") ([] :: js "api" :: js "file" :: id :: more))
                  = true) by (rewrite Hpath; apply startsWith_app).
  rewrite Hfile.
  change (js "/") with [47]. rewrite split_join.
  - reflexivity.
  - discriminate.
  - repeat (apply Forall_cons; split);
      try (intros H; vm_compute in H; repeat (apply elem_of_cons in H as [H|H]; [discriminate H|]); now apply elem_of_nil in H);
      assumption.
Qed.

(** X15.  Every request that is not OPTIONS to [/api/file/<id>], with any
    further segments after it, is a metadata lookup of [<id>], the fourth
    segment of the path: the stored record is answered as it is, whatever
    its expiry and its download count, and the namespace is left as it
    was. *)
Theorem metadata_route_ignores_expiry (w : World) (req : Request) (env : KV)
    (id : list Z) (more : list (list Z)) (meta : Meta.t) :
  req_method req <> js "OPTIONS" ->
  47 ∉ id ->
  Forall (fun p => 47 ∉ p) more ->
  req_pathname req = join (js "/") ([] :: js "api" :: js "file" :: id :: more) ->
  getMeta env id = Some meta ->
  fetch host vars w req env = (Api (jsonApi (AMeta meta) 200), env).
Proof.
  intros Hm Hid Hmore Hp Hg. unfold fetch. rewrite Hp.
  rewrite route_metadata by assumption.
  cbn [dispatch]. unfold handleMetadata. now rewrite Hg.
Qed.

End Metadata.

Lemma metadata_route_witness :
  fetch noHost sampleVars sampleWorld
    (sampleRequest (js "GET") (js "/api/file/abc/extra") None JsonRejected)
    (sampleStore spentMeta)
  = (Api (jsonApi (AMeta spentMeta) 200), sampleStore spentMeta).
Proof.
  apply (metadata_route_ignores_expiry noHost sampleVars sampleWorld
           (sampleRequest (js "GET") (js "/api/file/abc/extra") None JsonRejected)
           (sampleStore spentMeta) (js "abc") [js "extra"] spentMeta).
  - intros H. vm_compute in H. discriminate H.
  - intros H. vm_compute in H.
    repeat (apply elem_of_cons in H as [H|H]; [discriminate H|]).
    now apply elem_of_nil in H.
  - repeat constructor. intros H. vm_compute in H.
    repeat (apply elem_of_cons in H as [H|H]; [discriminate H|]).
    now apply elem_of_nil in H.
  - reflexivity.
  - vm_compute. reflexivity.
Defined.

(** ** The listing *)

Lemma insertBy_perm {A} (le : A -> A -> bool) (x : A) (l : list A) :
  insertBy le x l ≡ₚ x :: l.
Proof.
  induction l as [|y l IH]; simpl; [reflexivity|].
  destruct (le x y); [reflexivity|].
  rewrite IH. apply Permutation_swap.
Qed.

Lemma sortBy_perm {A} (le : A -> A -> bool) (l : list A) : sortBy le l ≡ₚ l.
Proof.
  induction l as [|x l IH]; simpl; [reflexivity|].
  unfold sortBy in *. simpl. rewrite insertBy_perm. now rewrite IH.
Qed.

Lemma listMeta_NoDup (env : KV) : NoDup (listMeta env).
Proof.
  unfold listMeta. eapply sublist_NoDup; [|apply sublist_take].
  rewrite sortBy_perm. apply NoDup_fst_map_to_list.
Qed.

Lemma listMeta_stored (env : KV) (id : list Z) :
  id ∈ listMeta env -> is_Some (getMeta env id).
Proof.
  unfold listMeta. intros H. apply elem_of_take in H as (i & H & _).
  apply list_elem_of_lookup_2 in H. rewrite sortBy_perm in H.
  apply list_elem_of_fmap in H as ([k m] & -> & H).
  apply elem_of_map_to_list in H. unfold getMeta. simpl. eauto.
Qed.

Lemma listMeta_all (env : KV) (id : list Z) :
  (size (metas env) <= 1000)%nat ->
  is_Some (getMeta env id) -> id ∈ listMeta env.
Proof.
  unfold listMeta. intros Hs [m H].
  rewrite take_ge.
  - rewrite sortBy_perm. apply list_elem_of_fmap. exists (id, m).
    split; [reflexivity|]. now apply elem_of_map_to_list.
  - rewrite sortBy_perm, length_fmap, length_map_to_list. exact Hs.
Qed.

Lemma listMeta_length (env : KV) :
  length (listMeta env) = Nat.min 1000 (size (metas env)).
Proof.
  unfold listMeta. rewrite length_take, sortBy_perm, length_fmap, length_map_to_list.
  reflexivity.
Qed.

Lemma keyedById_deleteRecord (id : list Z) (env : KV) :
  keyedById env -> keyedById (deleteRecord id env).
Proof.
  intros Hk id' meta. rewrite getMeta_deleteRecord.
  destruct (decide (id = id')); [discriminate | apply Hk].
Qed.

Lemma expiredAt_deleteRecord (now : Z) (k id : list Z) (env : KV) :
  id <> k -> expiredAt now (deleteRecord k env) id = expiredAt now env id.
Proof.
  intros Hne. unfold expiredAt. rewrite getMeta_deleteRecord.
  destruct (decide (k = id)); [congruence | reflexivity].
Qed.

Lemma filter_expired_deleteRecord (now : Z) (k : list Z) (ks : list (list Z))
    (env : KV) :
  k ∉ ks ->
  List.filter (expiredAt now (deleteRecord k env)) ks
  = List.filter (expiredAt now env) ks.
Proof.
  induction ks as [|a ks IH]; intros Hk; simpl; [reflexivity|].
  apply not_elem_of_cons in Hk as [Hne Hk].
  rewrite expiredAt_deleteRecord by congruence. now rewrite IH.
Qed.

Lemma cleanup_fold (now : Z) (ks : list (list Z)) (env : KV) (n : Z) :
  keyedById env -> NoDup ks ->
  (forall id,
      getMeta (fold_left (cleanupStep now) ks (env, n)).1 id
      = (if bool_decide (id ∈ ks) && expiredAt now env id
         then None else getMeta env id)
      /\ getContent (fold_left (cleanupStep now) ks (env, n)).1 id
         = (if bool_decide (id ∈ ks) && expiredAt now env id
            then None else getContent env id))
  /\ (fold_left (cleanupStep now) ks (env, n)).2
     = n + Z.of_nat (length (List.filter (expiredAt now env) ks)).
Proof.
  revert env n. induction ks as [|k ks IH]; intros env n Hk Hnd.
  - simpl. split; [intros id; split; reflexivity | lia].
  - apply NoDup_cons in Hnd as [Hnotin Hnd]. cbn [fold_left].
    assert (Hstep : cleanupStep now (env, n) k
                    = if expiredAt now env k then (deleteRecord k env, n + 1)
                      else (env, n)).
    { unfold cleanupStep, expiredAt. simpl.
      destruct (getMeta env k) as [meta|] eqn:Hg; [|reflexivity].
      destruct (isExpired meta now); [|reflexivity].
      now rewrite (Hk k meta Hg). }
    rewrite Hstep. cbn [List.filter].
    destruct (expiredAt now env k) eqn:He.
    + destruct (IH (deleteRecord k env) (n + 1)
                  (keyedById_deleteRecord k env Hk) Hnd) as [IH1 IH2].
      split.
      * intros id. destruct (IH1 id) as [-> ->].
        rewrite getMeta_deleteRecord, getContent_deleteRecord.
        destruct (decide (k = id)) as [<-|Hne].
        -- rewrite (bool_decide_eq_true_2 (k ∈ k :: ks)) by (apply elem_of_cons; auto).
           rewrite He. simpl. destruct (_ && _); split; reflexivity.
        -- rewrite expiredAt_deleteRecord by congruence.
           assert (Hin : bool_decide (id ∈ k :: ks) = bool_decide (id ∈ ks)).
           { apply bool_decide_ext. rewrite elem_of_cons. intuition congruence. }
           rewrite Hin. split; reflexivity.
      * rewrite IH2, filter_expired_deleteRecord by exact Hnotin.
        simpl length. lia.
    + destruct (IH env n Hk Hnd) as [IH1 IH2]. split; [|exact IH2].
      intros id. destruct (IH1 id) as [-> ->].
      destruct (decide (k = id)) as [<-|Hne].
      * rewrite He, !andb_false_r. split; reflexivity.
      * assert (Hin : bool_decide (id ∈ k :: ks) = bool_decide (id ∈ ks)).
        { apply bool_decide_ext. rewrite elem_of_cons. intuition congruence. }
        rewrite Hin. split; reflexivity.
Qed.

(** ** The admin records *)

Lemma insertBy_newest (x : Meta.t * bool) (l : list (Meta.t * bool)) :
  newestFirst l -> newestFirst (insertBy newerFirst x l).
Proof.
  induction l as [|y l IH]; intros Hs; simpl.
  - split; [constructor | exact I].
  - destruct Hs as [Hy Hl]. unfold newerFirst at 1.
    destruct (Z.leb_spec (Meta.createdAt y.1) (Meta.createdAt x.1)) as [Hle|Hlt].
    + split; [|split; assumption]. constructor; [exact Hle|].
      eapply Forall_impl; [exact Hy|]. simpl. intros b Hb. lia.
    + simpl. split; [|apply IH; exact Hl].
      rewrite insertBy_perm. constructor; [lia | exact Hy].
Qed.

Lemma sortBy_newest (l : list (Meta.t * bool)) : newestFirst (sortBy newerFirst l).
Proof.
  induction l as [|x l IH]; simpl; [exact I|]. now apply insertBy_newest.
Qed.

Lemma newestFirst_lookup (l : list (Meta.t * bool)) (i j : nat)
    (a b : Meta.t * bool) :
  newestFirst l -> (i < j)%nat -> l !! i = Some a -> l !! j = Some b ->
  Meta.createdAt b.1 <= Meta.createdAt a.1.
Proof.
  revert i j. induction l as [|x l IH]; intros i j Hs Hij Hi Hj.
  - discriminate.
  - destruct Hs as [Hx Hl]. destruct j as [|j]. { exfalso. clear -Hij. lia. } simpl in Hj.
    destruct i as [|i].
    + injection Hi as <-. rewrite Forall_forall in Hx. apply Hx.
      eapply list_elem_of_lookup_2; exact Hj.
    + simpl in Hi. apply (IH i j Hl); [lia | exact Hi | exact Hj].
Qed.

Lemma length_omap_le {A B} (f : A -> option B) (l : list A) :
  (length (omap f l) <= length l)%nat.
Proof.
  induction l as [|x l IH]; [reflexivity|].
  change (omap f (x :: l))
    with (match f x with Some y => y :: omap f l | None => omap f l end).
  destruct (f x); cbn [length]; lia.
Qed.

(** X16.  The records an authorized request gets are at most 100, each the
    stored record of a listed key with [hasContent] telling whether its
    content entry exists, and they are ordered newest first by
    [createdAt]. *)
Theorem admin_records_newest_first (req : Request) (vars : Vars) (env : KV) :
  verifyAdminAuth req vars = true ->
  exists records,
    handleAdminRecords req vars env = jsonApi (ARecords records) 200
    /\ (length records <= 100)%nat
    /\ (forall i j a b, (i < j)%nat -> records !! i = Some a ->
                        records !! j = Some b ->
                        Meta.createdAt b.1 <= Meta.createdAt a.1)
    /\ (forall a, a ∈ records ->
          exists k, k ∈ listMeta env /\ getMeta env k = Some a.1
                    /\ a.2 = bool_decide (is_Some (getContent env (Meta.id a.1)))).
Proof.
  intros Ha. unfold handleAdminRecords. rewrite Ha. cbn [negb].
  eexists. split; [reflexivity|]. split; [|split].
  - rewrite sortBy_perm.
    etransitivity; [apply length_omap_le|]. rewrite length_take. lia.
  - intros i j a b. apply newestFirst_lookup, sortBy_newest.
  - intros a Hin. rewrite sortBy_perm in Hin.
    apply list_elem_of_omap in Hin as (k & Hk & Hf).
    exists k. split; [eapply elem_of_sublist; [exact Hk | apply sublist_take]|].
    destruct (getMeta env k) as [meta|]; [|discriminate].
    simpl in Hf. injection Hf as <-. split; reflexivity.
Qed.

(** ** The statistics *)

Lemma gather_omap (now : Z) (env : KV) (ks : list (list Z)) (s : Stats) :
  fold_left (fun s k => match getMeta env k with
                        | Some meta => countRecord now s meta
                        | None => s
                        end) ks s
  = fold_left (countRecord now) (omap (getMeta env) ks) s.
Proof.
  revert s. induction ks as [|k ks IH]; intros s; [reflexivity|].
  cbn [fold_left].
  change (omap (getMeta env) (k :: ks))
    with (match getMeta env k with
          | Some y => y :: omap (getMeta env) ks
          | None => omap (getMeta env) ks
          end).
  rewrite IH. destruct (getMeta env k); reflexivity.
Qed.

Lemma count_fold (now : Z) (ms : list Meta.t) (s : Stats) :
  let r := fold_left (countRecord now) ms s in
  totalFiles r = totalFiles s + countWhere (hasType (js "file")) ms
  /\ totalTexts r = totalTexts s + countWhere (hasType (js "text")) ms
  /\ totalSubscriptions r
     = totalSubscriptions s + countWhere (hasType (js "subscription")) ms
  /\ totalSize r = totalSize s + sumSizes ms
  /\ expiredCount r
     = expiredCount s + countWhere (fun meta => isExpired meta now) ms.
Proof.
  revert s. induction ms as [|m ms IH]; intros s.
  - cbn. unfold countWhere, sumSizes. cbn. lia.
  - cbn [fold_left]. destruct (IH (countRecord now s m)) as (H1 & H2 & H3 & H4 & H5).
    cbv zeta. rewrite H1, H2, H3, H4, H5. clear IH H1 H2 H3 H4 H5.
    unfold countWhere, sumSizes, hasType, countRecord. cbn [List.filter fmap list_fmap foldr
      totalFiles totalTexts totalSubscriptions totalSize expiredCount].
    destruct (str_eqb (Meta.type m) (js "file")) eqn:Hf.
    { apply str_eqb_eq in Hf. rewrite Hf.
      change (str_eqb (js "file") (js "text")) with false.
      change (str_eqb (js "file") (js "subscription")) with false.
      destruct (isExpired m now), (Z.eqb_spec (Meta.size m) 0);
        cbn [length]; repeat split; lia. }
    destruct (str_eqb (Meta.type m) (js "text")) eqn:Ht.
    { apply str_eqb_eq in Ht. rewrite Ht.
      change (str_eqb (js "text") (js "subscription")) with false.
      destruct (isExpired m now), (Z.eqb_spec (Meta.size m) 0);
        cbn [length]; repeat split; lia. }
    destruct (str_eqb (Meta.type m) (js "subscription")),
      (isExpired m now), (Z.eqb_spec (Meta.size m) 0);
      cbn [length]; repeat split; lia.
Qed.

Lemma listedRecords_length (env : KV) :
  length (listedRecords env) = length (listMeta env).
Proof.
  unfold listedRecords.
  assert (H : forall ks, (forall k, k ∈ ks -> is_Some (getMeta env k)) ->
                         length (omap (getMeta env) ks) = length ks).
  { induction ks as [|k ks IH]; intros Hk; [reflexivity|].
    change (omap (getMeta env) (k :: ks))
      with (match getMeta env k with
            | Some y => y :: omap (getMeta env) ks
            | None => omap (getMeta env) ks
            end).
    destruct (Hk k) as [m ->]; [apply elem_of_cons; auto|].
    cbn [length]. rewrite IH; [reflexivity|].
    intros k' Hk'. apply Hk. apply elem_of_cons; auto. }
  apply H. intros k. apply listMeta_stored.
Qed.

Lemma filter_length_le {A} (p : A -> bool) (l : list A) :
  (length (List.filter p l) <= length l)%nat.
Proof.
  induction l as [|x l IH]; simpl; [lia|]. destruct (p x); simpl; lia.
Qed.

Lemma types_apart (ms : list Meta.t) :
  countWhere (hasType (js "file")) ms + countWhere (hasType (js "text")) ms
  + countWhere (hasType (js "subscription")) ms <= Z.of_nat (length ms).
Proof.
  unfold countWhere, hasType. induction ms as [|m ms IH]; [cbn; lia|].
  cbn [List.filter].
  destruct (str_eqb (Meta.type m) (js "file")) eqn:Hf.
  { apply str_eqb_eq in Hf. rewrite Hf.
    change (str_eqb (js "file") (js "text")) with false.
    change (str_eqb (js "file") (js "subscription")) with false.
    cbn [length]. lia. }
  destruct (str_eqb (Meta.type m) (js "text")) eqn:Ht.
  { apply str_eqb_eq in Ht. rewrite Ht.
    change (str_eqb (js "text") (js "subscription")) with false.
    cbn [length]. lia. }
  destruct (str_eqb (Meta.type m) (js "subscription")); cbn [length]; lia.
Qed.

(** X17.  The statistics count the listed records (at most 1000): [total] is
    their number, [files], [texts] and [subscriptions] the numbers of each
    type (together never more than [total]), [totalSize] the sum of their
    sizes and [expired] the number of those past their expiry. *)
Theorem admin_stats_count_the_listing (req : Request) (vars : Vars) (now : Z)
    (env : KV) :
  verifyAdminAuth req vars = true ->
  let ms := listedRecords env in
  handleAdminStats req vars now env
  = jsonApi (AStats (Z.of_nat (length ms))
                    (countWhere (hasType (js "file")) ms)
                    (countWhere (hasType (js "text")) ms)
                    (countWhere (hasType (js "subscription")) ms)
                    (sumSizes ms)
                    (countWhere (fun meta => isExpired meta now) ms)) 200
  /\ length ms = Nat.min 1000 (size (metas env))
  /\ countWhere (hasType (js "file")) ms + countWhere (hasType (js "text")) ms
     + countWhere (hasType (js "subscription")) ms <= Z.of_nat (length ms).
Proof.
  intros Ha ms. subst ms. unfold handleAdminStats. rewrite Ha. cbn [negb].
  unfold gatherStats. rewrite gather_omap. fold (listedRecords env).
  destruct (count_fold now (listedRecords env) (mkStats 0 0 0 0 0))
    as (H1 & H2 & H3 & H4 & H5).
  cbv zeta in *. rewrite H1, H2, H3, H4, H5. cbn [totalFiles totalTexts
    totalSubscriptions totalSize expiredCount]. rewrite !Z.add_0_l.
  rewrite listedRecords_length. split; [reflexivity|].
  split; [apply listMeta_length|].
  rewrite <- listedRecords_length. apply types_apart.
Qed.

(** ** Cleaning up and deleting *)

(** X18.  On a namespace whose records are stored under their own identifiers,
    the cleanup removes both entries of exactly the listed records that
    are expired, leaves every other entry as it was, and reports their
    number as [deleted]. *)
Theorem cleanup_removes_listed_expired (req : Request) (vars : Vars) (now : Z)
    (env : KV) :
  keyedById env ->
  verifyAdminAuth req vars = true ->
  let env' := (cleanupExpiredFiles now env).1 in
  let deleted := (cleanupExpiredFiles now env).2 in
  handleAdminCleanup req vars now env = (jsonApi (ACleanup deleted 0) 200, env')
  /\ deleted = Z.of_nat (length (List.filter (expiredAt now env) (listMeta env)))
  /\ forall id,
       getMeta env' id
       = (if bool_decide (id ∈ listMeta env) && expiredAt now env id
          then None else getMeta env id)
       /\ getContent env' id
          = (if bool_decide (id ∈ listMeta env) && expiredAt now env id
             then None else getContent env id).
Proof.
  intros Hk Ha env' deleted. subst env' deleted.
  unfold handleAdminCleanup. rewrite Ha. cbn [negb].
  destruct (cleanup_fold now (listMeta env) env 0 Hk (listMeta_NoDup env))
    as [H1 H2].
  unfold cleanupExpiredFiles in *.
  destruct (fold_left (cleanupStep now) (listMeta env) (env, 0)) as [env' d].
  simpl in *. split; [reflexivity|]. split; [lia | exact H1].
Qed.

Lemma cleanup_keyed (now : Z) (env : KV) :
  keyedById env -> keyedById (cleanupExpiredFiles now env).1.
Proof.
  intros Hk id meta.
  destruct (cleanup_fold now (listMeta env) env 0 Hk (listMeta_NoDup env))
    as [H1 _].
  unfold cleanupExpiredFiles. destruct (H1 id) as [-> _].
  destruct (_ && _); [discriminate | apply Hk].
Qed.

Lemma filter_none {A} (p : A -> bool) (l : list A) :
  (forall x, x ∈ l -> p x = false) -> List.filter p l = [].
Proof.
  induction l as [|x l IH]; intros H; simpl; [reflexivity|].
  rewrite (H x) by (apply elem_of_cons; auto).
  apply IH. intros y Hy. apply H. apply elem_of_cons; auto.
Qed.

Lemma gatherStats_expired (now : Z) (env : KV) :
  (forall id meta, getMeta env id = Some meta -> isExpired meta now = false) ->
  expiredCount (gatherStats now env) = 0.
Proof.
  intros H. unfold gatherStats. rewrite gather_omap.
  destruct (count_fold now (omap (getMeta env) (listMeta env)) (mkStats 0 0 0 0 0))
    as (_ & _ & _ & _ & H5).
  cbv zeta in H5. rewrite H5. cbn [expiredCount]. unfold countWhere.
  rewrite filter_none; [reflexivity|].
  intros meta Hin. apply list_elem_of_omap in Hin as (k & _ & Hk).
  now apply (H k).
Qed.

(** X19.  On a namespace of at most 1000 records, stored under their own
    identifiers, the records left by a cleanup are exactly the unexpired
    ones, with their content; a second cleanup at the same time deletes
    nothing and the statistics then count no expired record. *)
Theorem cleanup_leaves_nothing_expired (now : Z) (env : KV) :
  keyedById env ->
  (size (metas env) <= 1000)%nat ->
  let env' := (cleanupExpiredFiles now env).1 in
  (forall id meta, getMeta env' id = Some meta <->
                   getMeta env id = Some meta /\ isExpired meta now = false)
  /\ (forall id meta, getMeta env' id = Some meta ->
                      getContent env' id = getContent env id)
  /\ (cleanupExpiredFiles now env').2 = 0
  /\ expiredCount (gatherStats now env') = 0.
Proof.
  intros Hk Hs env'. subst env'.
  destruct (cleanup_fold now (listMeta env) env 0 Hk (listMeta_NoDup env))
    as [H1 _].
  fold (cleanupExpiredFiles now env) in H1.
  assert (Hspec : forall id meta,
             getMeta (cleanupExpiredFiles now env).1 id = Some meta <->
             getMeta env id = Some meta /\ isExpired meta now = false).
  { intros id meta. destruct (H1 id) as [-> _]. unfold expiredAt.
    destruct (getMeta env id) as [m|] eqn:Hg.
    - rewrite (bool_decide_eq_true_2 (id ∈ listMeta env))
        by (apply listMeta_all; [exact Hs | rewrite Hg; eauto]).
      cbn [andb]. destruct (isExpired m now) eqn:He; split.
      + discriminate.
      + intros [[= <-] H]. congruence.
      + intros [= <-]. auto.
      + intros [H _]. exact H.
    - rewrite andb_false_r. split; [discriminate | intros [[=] _]]. }
  split; [exact Hspec|]. split; [|split].
  - intros id meta H. apply Hspec in H as [Hg He].
    destruct (H1 id) as [_ ->]. unfold expiredAt. rewrite Hg, He.
    now rewrite andb_false_r.
  - destruct (cleanup_fold now (listMeta (cleanupExpiredFiles now env).1)
                (cleanupExpiredFiles now env).1 0 (cleanup_keyed now env Hk)
                (listMeta_NoDup _)) as [_ H2].
    fold (cleanupExpiredFiles now (cleanupExpiredFiles now env).1) in H2.
    rewrite H2, filter_none; [reflexivity|].
    intros id Hin. apply listMeta_stored in Hin as [meta Hm].
    unfold expiredAt. rewrite Hm. now apply Hspec in Hm.
  - apply gatherStats_expired. intros id meta Hm. now apply Hspec in Hm.
Qed.

Section Deleting.
Variable host : list Z -> option Z.

(** X20.  An authorized delete answers success whether or not the record
    exists, removes both entries of the identifier and no other, and after
    it every read of the identifier is answered 404, whatever reads come
    in between. *)
Theorem admin_delete_removes_record (vars : Vars) (req : Request)
    (env : KV) (id : list Z) (rs : list ReadRequest) (r : ReadRequest) :
  verifyAdminAuth req vars = true ->
  requestId r = id ->
  let env' := (handleAdminDelete id req vars env).2 in
  (handleAdminDelete id req vars env).1 = jsonApi ASuccess 200
  /\ getMeta env' id = None /\ getContent env' id = None
  /\ (forall id', id' <> id ->
        getMeta env' id' = getMeta env id'
        /\ getContent env' id' = getContent env id')
  /\ (serve host r (serveAll host rs env')).1 = notFound.
Proof.
  intros Ha Hr env'. subst env'. unfold handleAdminDelete. rewrite Ha.
  cbn [negb fst snd].
  split; [reflexivity|].
  assert (Hm : getMeta (deleteRecord id env) id = None).
  { rewrite getMeta_deleteRecord. destruct (decide (id = id)); congruence. }
  split; [exact Hm|]. split.
  { rewrite getContent_deleteRecord. destruct (decide (id = id)); congruence. }
  split.
  - intros id' Hne. rewrite getMeta_deleteRecord, getContent_deleteRecord.
    destruct (decide (id = id')); [congruence | split; reflexivity].
  - apply gone_forever. now rewrite Hr.
Qed.

End Deleting.

Lemma batch_fold (ids : list (list Z)) (env : KV) (n : Z) :
  (forall id,
     getMeta (fold_left (fun '(env, successCount) id =>
                           (deleteRecord id env, successCount + 1))
                        ids (env, n)).1 id
     = (if bool_decide (id ∈ ids) then None else getMeta env id)
     /\ getContent (fold_left (fun '(env, successCount) id =>
                                 (deleteRecord id env, successCount + 1))
                              ids (env, n)).1 id
        = (if bool_decide (id ∈ ids) then None else getContent env id))
  /\ (fold_left (fun '(env, successCount) id =>
                   (deleteRecord id env, successCount + 1))
                ids (env, n)).2 = n + Z.of_nat (length ids).
Proof.
  revert env n. induction ids as [|k ids IH]; intros env n.
  - simpl. split; [intros id; split; reflexivity | lia].
  - cbn [fold_left]. destruct (IH (deleteRecord k env) (n + 1)) as [IH1 IH2].
    split.
    + intros id. destruct (IH1 id) as [-> ->].
      rewrite getMeta_deleteRecord, getContent_deleteRecord.
      destruct (decide (k = id)) as [<-|Hne].
      * rewrite (bool_decide_eq_true_2 (k ∈ k :: ids)) by (apply elem_of_cons; auto).
        destruct (bool_decide _); split; reflexivity.
      * assert (Hin : bool_decide (id ∈ k :: ids) = bool_decide (id ∈ ids)).
        { apply bool_decide_ext. rewrite elem_of_cons. intuition congruence. }
        rewrite Hin. split; reflexivity.
    + rewrite IH2. simpl length. lia.
Qed.

(** X21.  An authorized batch delete removes both entries of every listed
    identifier and of no other, and the [deleted] it reports is the number
    of identifiers in the request, repeated and unknown ones included. *)
Theorem batch_delete_counts_ids (vars : Vars) (req : Request) (env : KV)
    (b : JsonBody) (password : option (list Z)) (ids : list (list Z)) :
  verifyAdminAuth req vars = true ->
  req_json req = JsonValue b password (Some ids) ->
  let env' := (handleAdminBatchDelete req vars env).2 in
  (handleAdminBatchDelete req vars env).1
  = jsonApi (ADeleted (Z.of_nat (length ids)) 0) 200
  /\ forall id,
       getMeta env' id = (if bool_decide (id ∈ ids) then None else getMeta env id)
       /\ getContent env' id
          = (if bool_decide (id ∈ ids) then None else getContent env id).
Proof.
  intros Ha Hj env'. subst env'. unfold handleAdminBatchDelete.
  rewrite Ha, Hj. cbn [negb].
  destruct (batch_fold ids env 0) as [H1 H2].
  destruct (fold_left _ ids (env, 0)) as [env' n]. simpl in *.
  split; [now rewrite H2 | exact H1].
Qed.

(** ** Base64 *)

Lemma list_ind3 {A} (P : list A -> Prop) :
  P [] -> (forall a, P [a]) -> (forall a b, P [a; b]) ->
  (forall a b c r, P r -> P (a :: b :: c :: r)) ->
  forall l, P l.
Proof.
  intros H0 H1 H2 H3 l.
  assert (H : forall n l, (length l <= n)%nat -> P l).
  { clear l. induction n as [|n IH]; intros l Hl.
    - destruct l; [exact H0 | simpl in Hl; lia].
    - destruct l as [|a [|b [|c r]]]; auto.
      apply H3, IH. simpl in Hl. lia. }
  apply (H (length l)). lia.
Qed.

Lemma b64val_b64char (v : Z) : 0 <= v < 64 -> b64val (b64char v) = Some v.
Proof.
  intros Hv. unfold b64char, b64val, isDigit.
  destruct (Z.ltb_spec v 26).
  { replace ((65 <=? 65 + v) && (65 + v <=? 90)) with true by lia.
    f_equal; lia. }
  destruct (Z.ltb_spec v 52).
  { replace ((65 <=? 71 + v) && (71 + v <=? 90)) with false by lia.
    replace ((97 <=? 71 + v) && (71 + v <=? 122)) with true by lia.
    f_equal; lia. }
  destruct (Z.ltb_spec v 62).
  { replace ((65 <=? v - 4) && (v - 4 <=? 90)) with false by lia.
    replace ((97 <=? v - 4) && (v - 4 <=? 122)) with false by lia.
    replace ((48 <=? v - 4) && (v - 4 <=? 57)) with true by lia.
    f_equal; lia. }
  destruct (Z.eqb_spec v 62); [subst v; reflexivity|].
  assert (v = 63) by lia. subst v. reflexivity.
Qed.

Lemma b64char_plain (v : Z) :
  0 <= v < 64 -> b64char v <> 61 /\ isAsciiWhitespace (b64char v) = false.
Proof.
  intros Hv. unfold b64char, isAsciiWhitespace.
  destruct (Z.ltb_spec v 26); [split; lia|].
  destruct (Z.ltb_spec v 52); [split; lia|].
  destruct (Z.ltb_spec v 62); [split; lia|].
  destruct (Z.eqb_spec v 62); split; lia.
Qed.

Lemma sextets_range (bs : list Z) :
  Forall isByte bs -> Forall (fun v => 0 <= v < 64) (sextets bs).
Proof.
  unfold isByte.
  induction bs as [|a|a b|a b c r IH] using list_ind3; intros H; simpl.
  - constructor.
  - apply Forall_cons in H as [Ha _].
    repeat constructor; try lia.
    + apply Z.div_pos; lia.
    + apply Z.div_lt_upper_bound; lia.
    + pose proof (Z.mod_pos_bound a 4); lia.
    + pose proof (Z.mod_pos_bound a 4); lia.
  - apply Forall_cons in H as [Ha H]. apply Forall_cons in H as [Hb _].
    pose proof (Z.mod_pos_bound a 4). pose proof (Z.mod_pos_bound b 16).
    assert (0 <= a / 4 < 64) by (split; [apply Z.div_pos | apply Z.div_lt_upper_bound]; lia).
    assert (0 <= b / 16 < 16) by (split; [apply Z.div_pos | apply Z.div_lt_upper_bound]; lia).
    repeat constructor; lia.
  - apply Forall_cons in H as [Ha H]. apply Forall_cons in H as [Hb H].
    apply Forall_cons in H as [Hc H].
    pose proof (Z.mod_pos_bound a 4). pose proof (Z.mod_pos_bound b 16).
    pose proof (Z.mod_pos_bound c 64).
    assert (0 <= a / 4 < 64) by (split; [apply Z.div_pos | apply Z.div_lt_upper_bound]; lia).
    assert (0 <= b / 16 < 16) by (split; [apply Z.div_pos | apply Z.div_lt_upper_bound]; lia).
    assert (0 <= c / 64 < 4) by (split; [apply Z.div_pos | apply Z.div_lt_upper_bound]; lia).
    repeat (apply Forall_cons; split; [lia|]). apply IH, H.
Qed.

Lemma atob_go_sextets (bs : list Z) :
  Forall isByte bs -> atob_go (sextets bs) = bs.
Proof.
  unfold isByte.
  induction bs as [|a|a b|a b c r IH] using list_ind3; intros H.
  - reflexivity.
  - apply Forall_cons in H as [Ha _]. simpl.
    f_equal. rewrite Z.div_mul by lia.
    pose proof (Z.div_mod a 4). lia.
  - apply Forall_cons in H as [Ha H]. apply Forall_cons in H as [Hb _]. simpl.
    pose proof (Z.mod_pos_bound a 4). pose proof (Z.mod_pos_bound b 16).
    assert (0 <= b / 16 < 16) by (split; [apply Z.div_pos | apply Z.div_lt_upper_bound]; lia).
    f_equal; [|f_equal].
    + replace ((a mod 4 * 16 + b / 16) / 16) with (a mod 4)
        by (apply Z.div_unique with (r := b / 16); lia).
      pose proof (Z.div_mod a 4). lia.
    + replace ((a mod 4 * 16 + b / 16) mod 16) with (b / 16)
        by (apply Z.mod_unique with (q := a mod 4); lia).
      rewrite Z.div_mul by lia. pose proof (Z.div_mod b 16). lia.
  - apply Forall_cons in H as [Ha H]. apply Forall_cons in H as [Hb H].
    apply Forall_cons in H as [Hc H].
    pose proof (Z.mod_pos_bound a 4). pose proof (Z.mod_pos_bound b 16).
    pose proof (Z.mod_pos_bound c 64).
    assert (0 <= b / 16 < 16) by (split; [apply Z.div_pos | apply Z.div_lt_upper_bound]; lia).
    assert (0 <= c / 64 < 4) by (split; [apply Z.div_pos | apply Z.div_lt_upper_bound]; lia).
    cbn [sextets app atob_go]. rewrite IH by exact H.
    f_equal; [|f_equal; [|f_equal]].
    + replace ((a mod 4 * 16 + b / 16) / 16) with (a mod 4)
        by (apply Z.div_unique with (r := b / 16); lia).
      pose proof (Z.div_mod a 4). lia.
    + replace ((a mod 4 * 16 + b / 16) mod 16) with (b / 16)
        by (apply Z.mod_unique with (q := a mod 4); lia).
      replace ((b mod 16 * 4 + c / 64) / 4) with (b mod 16)
        by (apply Z.div_unique with (r := c / 64); lia).
      pose proof (Z.div_mod b 16). lia.
    + replace ((b mod 16 * 4 + c / 64) mod 4) with (c / 64)
        by (apply Z.mod_unique with (q := b mod 16); lia).
      pose proof (Z.div_mod c 64). lia.
Qed.

Lemma btoa_shape (bs : list Z) :
  btoa bs = map b64char (sextets bs) ++ padding bs.
Proof.
  induction bs as [|a|a b|a b c r IH] using list_ind3; try reflexivity.
  cbn [btoa sextets padding]. rewrite IH, map_app, <- app_assoc. reflexivity.
Qed.

Lemma sextets_length (bs : list Z) :
  Z.of_nat (length (sextets bs) + length (padding bs)) mod 4 = 0
  /\ Z.of_nat (length (sextets bs)) mod 4 <> 1
  /\ (padding bs = [] \/ padding bs = [61] \/ padding bs = [61; 61]).
Proof.
  induction bs as [|a|a b|a b c r (IH1 & IH2 & IH3)] using list_ind3;
    try (split; [reflexivity | split; [discriminate | auto]]).
  cbn [sextets padding]. rewrite length_app. cbn [length].
  split; [|split; [|exact IH3]].
  - replace (Z.of_nat (4 + length (sextets r) + length (padding r)))
      with (Z.of_nat (length (sextets r) + length (padding r)) + 1 * 4) by lia.
    now rewrite Z.mod_add by lia.
  - replace (Z.of_nat (4 + length (sextets r)))
      with (Z.of_nat (length (sextets r)) + 1 * 4) by lia.
    now rewrite Z.mod_add by lia.
Qed.

Lemma strip_one (c : Z) (r s : list Z) :
  c <> 61 ->
  match 61 :: c :: r with
  | 61 :: 61 :: r' => rev r'
  | 61 :: r' => rev r'
  | _ => s
  end = rev (c :: r).
Proof.
  intros Hc. destruct c as [|p|p]; try reflexivity.
  do 6 (destruct p as [p|p|]; try reflexivity). congruence.
Qed.

Lemma strip_none (c : Z) (r s : list Z) :
  c <> 61 ->
  match c :: r with
  | 61 :: 61 :: r' => rev r'
  | 61 :: r' => rev r'
  | _ => s
  end = s.
Proof.
  intros Hc. destruct c as [|p|p]; try reflexivity.
  do 6 (destruct p as [p|p|]; try reflexivity). congruence.
Qed.

Lemma stripPadding_app (x p : list Z) :
  Z.of_nat (length (x ++ p)) mod 4 = 0 ->
  Forall (fun c => c <> 61) x ->
  p = [] \/ p = [61] \/ p = [61; 61] ->
  stripPadding (x ++ p) = x.
Proof.
  intros Hlen Hx Hp. unfold stripPadding.
  rewrite bool_decide_eq_true_2 by exact Hlen.
  rewrite rev_app_distr.
  assert (Hr : Forall (fun c => c <> 61) (rev x)) by now apply Forall_rev.
  destruct Hp as [->|[->| ->]].
  - change (rev [] ++ rev x) with (rev x). rewrite app_nil_r.
    destruct (rev x) as [|c r] eqn:E; [reflexivity|].
    apply Forall_cons in Hr as [Hc _]. now apply strip_none.
  - change (rev [61] ++ rev x) with (61 :: rev x).
    destruct (rev x) as [|c r] eqn:E.
    + rewrite <- (rev_involutive x), E. reflexivity.
    + apply Forall_cons in Hr as [Hc _].
      etransitivity; [exact (strip_one c r [] Hc)|].
      now rewrite <- E, rev_involutive.
  - change (rev [61; 61] ++ rev x) with (61 :: 61 :: rev x).
    apply rev_involutive.
Qed.

Lemma mapM_b64 (vs : list Z) :
  Forall (fun v => 0 <= v < 64) vs -> mapM b64val (map b64char vs) = Some vs.
Proof.
  induction vs as [|v vs IH]; intros H; [reflexivity|].
  apply Forall_cons in H as [Hv H]. cbn [map mapM].
  rewrite b64val_b64char by exact Hv. rewrite IH by exact H. reflexivity.
Qed.

Lemma filter_keeps (s : list Z) :
  Forall (fun c => isAsciiWhitespace c = false) s ->
  filter (fun c => negb (isAsciiWhitespace c)) s = s.
Proof.
  induction s as [|c s IH]; intros H; [reflexivity|].
  apply Forall_cons in H as [Hc H].
  rewrite filter_cons_True by (rewrite Hc; exact I).
  now rewrite IH.
Qed.

Lemma atob_btoa (bs : list Z) : Forall isByte bs -> atob (btoa bs) = Ok bs.
Proof.
  intros Hb. pose proof (sextets_range bs Hb) as Hr.
  destruct (sextets_length bs) as (Hl0 & Hl1 & Hp).
  assert (Hplain : Forall (fun c => c <> 61 /\ isAsciiWhitespace c = false)
                          (map b64char (sextets bs))).
  { apply Forall_forall. intros c Hc.
    apply list_elem_of_In, in_map_iff in Hc as (v & <- & Hv).
    apply b64char_plain. rewrite Forall_forall in Hr. apply Hr.
    now apply list_elem_of_In. }
  unfold atob. rewrite btoa_shape.
  rewrite filter_keeps.
  2:{ apply Forall_app. split.
      - eapply Forall_impl; [exact Hplain|]. now intros c [_ H].
      - destruct Hp as [->|[->| ->]]; repeat constructor. }
  rewrite stripPadding_app.
  - rewrite bool_decide_eq_false_2 by (rewrite length_map; exact Hl1).
    rewrite mapM_b64 by exact Hr. now rewrite atob_go_sextets.
  - rewrite length_app, length_map. exact Hl0.
  - eapply Forall_impl; [exact Hplain|]. now intros c [H _].
  - exact Hp.
Qed.

(** ** The characters of the encodings *)

Lemma hexDigit_alnum (n : Z) : 0 <= n < 16 -> isAlnum (hexDigit n) = true.
Proof.
  intros Hn. unfold hexDigit, isAlnum, isDigit.
  destruct (Z.ltb_spec n 10).
  - replace ((48 <=? 48 + n) && (48 + n <=? 57)) with true by lia. reflexivity.
  - replace ((65 <=? 55 + n) && (55 + n <=? 90)) with true by lia.
    now rewrite orb_true_r.
Qed.

Lemma alnum_attr (c : Z) : isAlnum c = true -> isAttrChar c = true.
Proof. intros H. unfold isAttrChar. now rewrite H. Qed.

Lemma percent_attr (b : Z) :
  0 <= b < 256 -> Forall (fun c => isAttrChar c = true) (percent b).
Proof.
  intros Hb. unfold percent.
  repeat constructor.
  - apply alnum_attr, hexDigit_alnum.
    split; [apply Z.div_pos | apply Z.div_lt_upper_bound]; lia.
  - apply alnum_attr, hexDigit_alnum. apply Z.mod_pos_bound. lia.
Qed.

Lemma utf8_bytes (cp : Z) :
  0 <= cp < 1114112 -> Forall (fun b => 0 <= b < 256) (utf8 cp).
Proof.
  intros Hcp. unfold utf8.
  destruct (Z.ltb_spec cp 128); [repeat constructor; lia|].
  destruct (Z.ltb_spec cp 2048).
  { pose proof (Z.mod_pos_bound cp 64).
    assert (0 <= cp / 64 < 32)
      by (split; [apply Z.div_pos | apply Z.div_lt_upper_bound]; lia).
    repeat constructor; lia. }
  destruct (Z.ltb_spec cp 65536).
  { pose proof (Z.mod_pos_bound cp 64). pose proof (Z.mod_pos_bound (cp / 64) 64).
    assert (0 <= cp / 4096 < 16)
      by (split; [apply Z.div_pos | apply Z.div_lt_upper_bound]; lia).
    repeat constructor; lia. }
  pose proof (Z.mod_pos_bound cp 64). pose proof (Z.mod_pos_bound (cp / 64) 64).
  pose proof (Z.mod_pos_bound (cp / 4096) 64).
  assert (0 <= cp / 262144 < 8)
    by (split; [apply Z.div_pos | apply Z.div_lt_upper_bound]; lia).
  repeat constructor; lia.
Qed.

Lemma encodeCodePoint_attr (cp : Z) :
  0 <= cp < 1114112 -> Forall (fun c => isAttrChar c = true) (encodeCodePoint cp).
Proof.
  intros Hcp. unfold encodeCodePoint. apply Forall_concat.
  apply Forall_forall. intros l Hl.
  apply list_elem_of_In, in_map_iff in Hl as (b & <- & Hb).
  apply percent_attr. pose proof (utf8_bytes cp Hcp) as H.
  rewrite Forall_forall in H. apply H. now apply list_elem_of_In.
Qed.

Lemma attr_encoded (c : Z) : isAttrChar c = true -> isEncoded c = true.
Proof.
  unfold isAttrChar, isEncoded, isUnreserved.
  destruct (isAlnum c); [reflexivity|]. cbn [orb].
  intros H. apply bool_decide_eq_true in H.
  destruct (Z.eqb_spec c 37); [now rewrite orb_true_r|].
  rewrite orb_false_r. apply bool_decide_eq_true.
  change (js "-_.!~%") with [45; 95; 46; 33; 126; 37] in H.
  change (js "-_.!~*'()") with [45; 95; 46; 33; 126; 42; 39; 40; 41].
  rewrite !elem_of_cons in *. rewrite elem_of_nil in H. intuition.
Qed.

Lemma encode_chars_bounded (n : nat) (s enc : list Z) :
  (length s <= n)%nat ->
  Forall isCodeUnit s ->
  encodeURIComponent s = Ok enc ->
  Forall (fun c => isEncoded c = true) enc.
Proof.
  unfold isCodeUnit.
  revert s enc. induction n as [|n IH]; intros s enc Hlen Hs.
  { destruct s; [|simpl in Hlen; lia]. intros [= <-]. constructor. }
  destruct s as [|c r]; [intros [= <-]; constructor|].
  apply Forall_cons in Hs as [Hc Hr]. simpl in Hlen. cbn [encodeURIComponent].
  destruct (isUnreserved c) eqn:Hu.
  { destruct (encodeURIComponent r) as [t|] eqn:Ht; [|discriminate].
    intros [= <-]. constructor.
    - unfold isEncoded. now rewrite Hu.
    - apply (IH r t); [lia | exact Hr | exact Ht]. }
  destruct (isLowSurrogate c); [discriminate|].
  destruct (isHighSurrogate c) eqn:Hh.
  - destruct r as [|c2 r2]; [discriminate|].
    destruct (isLowSurrogate c2) eqn:Hl; [|discriminate].
    apply Forall_cons in Hr as [Hc2 Hr2]. simpl in Hlen.
    destruct (encodeURIComponent r2) as [t|] eqn:Ht; [|discriminate].
    intros [= <-]. apply Forall_app. split.
    + eapply Forall_impl; [apply encodeCodePoint_attr|apply attr_encoded].
      unfold isHighSurrogate, isLowSurrogate in *. lia.
    + apply (IH r2 t); [lia | exact Hr2 | exact Ht].
  - destruct (encodeURIComponent r) as [t|] eqn:Ht; [|discriminate].
    intros [= <-]. apply Forall_app. split.
    + eapply Forall_impl; [apply encodeCodePoint_attr|apply attr_encoded]. lia.
    + apply (IH r t); [lia | exact Hr | exact Ht].
Qed.

Lemma escape_attr (enc : list Z) :
  Forall (fun c => isEncoded c = true) enc ->
  Forall (fun c => isAttrChar c = true) (escapeStars (escapeQuotes enc)).
Proof.
  induction enc as [|c enc IH]; intros H; [constructor|].
  apply Forall_cons in H as [Hc H]. unfold escapeQuotes, escapeStars in *.
  cbn [map concat]. rewrite map_app, concat_app. apply Forall_app.
  split; [|apply IH, H].
  destruct (Z.eqb_spec c 39) as [->|H39]; [repeat constructor|].
  destruct (Z.eqb_spec c 40) as [->|H40]; [repeat constructor|].
  destruct (Z.eqb_spec c 41) as [->|H41]; [repeat constructor|].
  cbn [orb map concat app].
  destruct (Z.eqb_spec c 42) as [->|H42]; [repeat constructor|].
  repeat constructor.
  unfold isEncoded, isUnreserved, isAttrChar in *.
  destruct (isAlnum c); [reflexivity|]. cbn [orb] in *.
  apply bool_decide_eq_true.
  change (js "-_.!~%") with [45; 95; 46; 33; 126; 37].
  destruct (Z.eqb_spec c 37) as [->|H37].
  { rewrite !elem_of_cons. intuition. }
  rewrite orb_false_r in Hc. apply bool_decide_eq_true in Hc.
  change (js "-_.!~*'()") with [45; 95; 46; 33; 126; 42; 39; 40; 41] in Hc.
  rewrite !elem_of_cons in *. rewrite elem_of_nil in Hc. intuition.
Qed.

(** ** Header values *)

Lemma dropWhile_Forall (P : Z -> Prop) (p : Z -> bool) (s : list Z) :
  Forall P s -> Forall P (dropWhile p s).
Proof.
  induction s as [|c s IH]; intros H; [constructor|].
  cbn [dropWhile]. destruct (p c); [|exact H].
  apply Forall_cons in H as [_ H]. now apply IH.
Qed.

Lemma normalizeValue_Forall (P : Z -> Prop) (v : list Z) :
  Forall P v -> Forall P (normalizeValue v).
Proof.
  intros H. unfold normalizeValue.
  apply Forall_rev, dropWhile_Forall, Forall_rev, dropWhile_Forall, H.
Qed.

(** A value of visible ASCII characters and spaces is a header value. *)
Lemma visible_header_value (v : list Z) :
  Forall (fun c => isVisible c = true) v -> isHeaderValue v = true.
Proof.
  intros H. unfold isHeaderValue. apply andb_true_iff. split.
  - apply forallb_forall. intros c Hc. rewrite Forall_forall in H.
    apply list_elem_of_In, H in Hc. unfold isVisible in Hc. lia.
  - apply forallb_forall. intros c Hc.
    pose proof (normalizeValue_Forall _ v H) as Hn.
    rewrite Forall_forall in Hn.
    apply list_elem_of_In, Hn in Hc. unfold isVisible in Hc. lia.
Qed.

Lemma attr_visible (c : Z) : isAttrChar c = true -> isVisible c = true.
Proof.
  unfold isAttrChar, isAlnum, isDigit, isVisible. intros H.
  apply orb_true_iff in H as [H|H]; [lia|].
  apply bool_decide_eq_true in H.
  change (js "-_.!~%") with [45; 95; 46; 33; 126; 37] in H.
  rewrite !elem_of_cons, elem_of_nil in H. lia.
Qed.

(** The disposition [encodeFilename] writes is a header value. *)
Lemma encodeFilename_header_value (filename cd : list Z) :
  Forall isCodeUnit filename ->
  encodeFilename filename = Ok cd -> isHeaderValue cd = true.
Proof.
  intros Hs. unfold encodeFilename.
  destruct (encodeURIComponent filename) as [enc|e] eqn:He; [|discriminate].
  cbn [bind]. intros H.
  assert (cd = js "attachment; filename*=UTF-8''" ++ escapeStars (escapeQuotes enc))
    as -> by congruence.
  apply visible_header_value. apply Forall_app. split.
  - apply Forall_forall. intros c Hc. apply list_elem_of_In in Hc.
    revert c Hc. apply forallb_forall. vm_compute. reflexivity.
  - eapply Forall_impl; [|apply attr_visible].
    apply escape_attr. eapply encode_chars_bounded; [reflexivity | exact Hs | exact He].
Qed.

(** The headers of a download without overlay are accepted when its
    content type is a header value. *)
Lemma plainDownload_accepted (meta : Meta.t) (content : list Z) (r : Response) :
  Forall isCodeUnit (Meta.filename meta) ->
  isHeaderValue (if startsWith (js "text/") (Meta.contentType meta)
                 then Meta.contentType meta ++ js "; charset=utf-8"
                 else Meta.contentType meta) = true ->
  plainDownload meta content = Ok r ->
  headersAccepted (headers r) = true.
Proof.
  intros Hs Hct. unfold plainDownload.
  assert (Hacc : forall ct cd,
            isHeaderValue ct = true -> isHeaderValue cd = true ->
            headersAccepted
              (corsHeaders ++ [(js "Content-Type", ct);
                               (js "Content-Disposition", cd)]) = true).
  { intros ct cd H1 H2. unfold headersAccepted. rewrite forallb_app.
    cbn [forallb snd]. now rewrite H1, H2. }
  destruct (startsWith (js "text/") (Meta.contentType meta)).
  - destruct (encodeFilename (Meta.filename meta)) as [cd|e] eqn:Hcd; [|discriminate].
    cbn [bind]. intros H.
    assert (headers r = corsHeaders
                        ++ [(js "Content-Type",
                             Meta.contentType meta ++ js "; charset=utf-8");
                            (js "Content-Disposition", cd)]) as ->
      by (injection H as <-; reflexivity).
    apply Hacc; [exact Hct | exact (encodeFilename_header_value _ _ Hs Hcd)].
  - destruct (atob content) as [bin|e]; [|discriminate]. cbn [bind].
    destruct (encodeFilename (Meta.filename meta)) as [cd|e] eqn:Hcd; [|discriminate].
    cbn [bind]. intros H.
    assert (headers r = corsHeaders
                        ++ [(js "Content-Type", Meta.contentType meta);
                            (js "Content-Disposition", cd)]) as ->
      by (injection H as <-; reflexivity).
    apply Hacc; [exact Hct | exact (encodeFilename_header_value _ _ Hs Hcd)].
Qed.

Lemma codeUnits_check (s : list Z) :
  forallb (fun c => (0 <=? c) && (c <? 65536)) s = true -> Forall isCodeUnit s.
Proof.
  intros H. apply Forall_forall. intros c Hc.
  rewrite forallb_forall in H. apply list_elem_of_In, H in Hc.
  unfold isCodeUnit. lia.
Qed.

(** ** Uploads and what is read back *)

Lemma handleUpload_stores (fresh : list Z) (now : Z) (req : UploadRequest)
    (env : KV) (u : UploadFields) (expiresAt : option Z) :
  uploadFields req = inr u ->
  truthy (u_customSlug u)
  && bool_decide (is_Some (getMeta env (orStr (u_customSlug u) fresh))) = false ->
  computeExpiresAt (u_expiresIn u) now = Ok expiresAt ->
  handleUpload fresh now req env
  = (Ok (json [(js "id", orStr (u_customSlug u) fresh);
               (js "url", uploadedUrl (orStr (u_customSlug u) fresh) u)] 200),
     putMeta (orStr (u_customSlug u) fresh)
       (uploadedMeta (orStr (u_customSlug u) fresh) u expiresAt now)
       (putContent (orStr (u_customSlug u) fresh) (u_content u) env)).
Proof.
  intros Hu Hs He. unfold handleUpload. unfold uploadFields in Hu.
  rewrite Hu, Hs, He. reflexivity.
Qed.

Lemma spread_headers (ct cd : list Z) :
  obj_spread (obj_spread (obj_spread corsHeaders [(js "Content-Type", ct)]) [])
             [(js "Content-Disposition", cd)]
  = corsHeaders ++ [(js "Content-Type", ct); (js "Content-Disposition", cd)].
Proof. reflexivity. Qed.

Lemma spread_headers2 (ct cd : list Z) :
  obj_spread corsHeaders
    [(js "Content-Type", ct); (js "Content-Disposition", cd)]
  = corsHeaders ++ [(js "Content-Type", ct); (js "Content-Disposition", cd)].
Proof. reflexivity. Qed.

Lemma deliverRaw_no_overlay (host : list Z -> option Z) (meta : Meta.t)
    (content : list Z) :
  Meta.subscriptionInfo meta = None ->
  deliverRaw host meta content = plainDownload meta content.
Proof.
  intros Hs. unfold deliverRaw, plainDownload. rewrite Hs.
  change (buildSubscriptionHeaders host None) with (Ok ([] : list (list Z * list Z))).
  cbn [bind].
  change (fallbackDisposition [] (Meta.filename meta))
    with (try! v <- encodeFilename (Meta.filename meta);
          Ok [(js "Content-Disposition", v)]).
  destruct (startsWith (js "text/") (Meta.contentType meta)).
  - destruct (encodeFilename (Meta.filename meta)) as [cd|e]; [|reflexivity].
    cbn [bind]. now rewrite spread_headers.
  - destruct (atob content) as [bin|e]; [|reflexivity]. cbn [bind].
    destruct (encodeFilename (Meta.filename meta)) as [cd|e]; [|reflexivity].
    cbn [bind]. now rewrite spread_headers.
Qed.

(** X22.  For a record without overlay the admin download is the very response
    the delivery step of [/raw] gives, headers included; it is given
    whatever the expiry and the download limit of the record, and nothing
    is counted. *)
Theorem admin_download_matches_raw (host : list Z -> option Z) (vars : Vars)
    (req : Request) (env : KV) (id : list Z) (meta : Meta.t) (content : list Z) :
  verifyAdminAuth req vars = true ->
  getMeta env id = Some meta ->
  getContent env id = Some content ->
  content <> [] ->
  Meta.subscriptionInfo meta = None ->
  handleAdminDownload id req vars env = Served (deliverRaw host meta content).
Proof.
  intros Ha Hm Hc Hne Hs. rewrite (deliverRaw_no_overlay host meta content Hs).
  unfold handleAdminDownload, plainDownload. rewrite Ha, Hm, Hc. cbn [negb].
  destruct content as [|c content]; [congruence|].
  destruct (startsWith (js "text/") (Meta.contentType meta)).
  - destruct (encodeFilename (Meta.filename meta)) as [cd|e]; [|reflexivity].
    cbn [bind]. now rewrite spread_headers2.
  - destruct (atob (c :: content)) as [bin|e]; [|reflexivity]. cbn [bind].
    destruct (encodeFilename (Meta.filename meta)) as [cd|e]; [|reflexivity].
    cbn [bind]. now rewrite spread_headers2.
Qed.

Section RoundTrip.
Variable host : list Z -> option Z.

(** Reading a record right after an upload stored it. *)
Lemma read_after_upload (r : ReadRequest) (env : KV) (meta : Meta.t)
    (content : list Z) :
  Meta.downloadCount meta = 0 ->
  isExpired meta (requestTime r) = false ->
  limitReached meta = false ->
  content <> [] ->
  (serve host r (putMeta (requestId r) meta (putContent (requestId r) content env))).1
  = deliver host r (Meta.setDownloadCount 1 meta) content.
Proof.
  intros Hc He Hl Hne.
  rewrite (serve_counted host r _ meta content); try assumption.
  - simpl. now rewrite Hc.
  - rewrite getMeta_putMeta. now destruct (decide _).
  - rewrite getContent_putMeta, getContent_putContent. now destruct (decide _).
Qed.

Lemma statusOf_plainDownload (meta : Meta.t) (content : list Z) :
  wellFormed (Meta.filename meta) = true ->
  if startsWith (js "text/") (Meta.contentType meta)
  then statusOf (plainDownload meta content) = Some (200, BText content)
  else match atob content with
       | Ok bin => statusOf (plainDownload meta content) = Some (200, BBytes bin)
       | Throw e => plainDownload meta content = Throw e
       end.
Proof.
  intros Hw. unfold plainDownload, encodeFilename.
  destruct (encode_wellFormed _ Hw) as [enc ->]. cbn [bind].
  destruct (startsWith (js "text/") (Meta.contentType meta)); [reflexivity|].
  destruct (atob content); reflexivity.
Qed.

Lemma delivered (x : result Response) (b : body) :
  statusOf x = Some (200, b) ->
  exists r, x = Ok r /\ status r = 200 /\ payload r = b.
Proof.
  destruct x as [r|e]; [|discriminate]. cbn [statusOf]. intros [= H1 H2].
  exists r. auto.
Qed.

(** X23.  Round trip of a JSON upload without slug, expiry, limit or overlay,
    whose content type gives a header value: the upload answers its
    identifier, and a read on [/raw] answers 200 with headers the
    constructor of the response accepts, and gives the content back as
    text when the content type begins with [text/]; otherwise it gives the
    bytes the content decodes to as base64, and raises when the content is
    not base64. *)
Theorem json_upload_then_raw (fresh : list Z) (now now' : Z) (env : KV)
    (content : list Z) (filename contentType type : option (list Z))
    (burn : option bool) :
  content <> [] ->
  wellFormed (orStr filename (js "text.txt")) = true ->
  Forall isCodeUnit (orStr filename (js "text.txt")) ->
  isHeaderValue
    (if startsWith (js "text/") (orStr contentType (js "text/plain"))
     then orStr contentType (js "text/plain") ++ js "; charset=utf-8"
     else orStr contentType (js "text/plain")) = true ->
  let b := mkJsonBody (Some content) filename contentType type None burn
                      None None None in
  let up := handleUpload fresh now (Json b) env in
  let resp := (handleRaw host fresh now' up.2).1 in
  (exists url, up.1 = Ok (json [(js "id", fresh); (js "url", url)] 200))
  /\ if startsWith (js "text/") (orStr contentType (js "text/plain"))
     then exists r, resp = Ok r /\ status r = 200 /\ payload r = BText content
                    /\ headersAccepted (headers r) = true
     else match atob content with
          | Ok bin =>
              exists r, resp = Ok r /\ status r = 200 /\ payload r = BBytes bin
                        /\ headersAccepted (headers r) = true
          | Throw e => resp = Throw e
          end.
Proof.
  intros Hne Hw Hcu Hct b up resp. subst resp up.
  rewrite (handleUpload_stores fresh now (Json b) env (readJson b) None);
    try reflexivity.
  cbn [fst snd]. split; [eexists; reflexivity|].
  change (orStr (u_customSlug (readJson b)) fresh) with fresh.
  pose proof (read_after_upload (GetRaw fresh now') env
                (uploadedMeta fresh (readJson b) None now)
                (u_content (readJson b))) as H.
  cbn [serve requestId requestTime deliver] in H.
  assert (Hcontent : u_content (readJson b) = content).
  { subst b. unfold readJson, orStr. cbn [b_content u_content truthy].
    destruct content; [congruence | reflexivity]. }
  rewrite Hcontent in H |- *. rewrite H; try reflexivity; [|exact Hne].
  rewrite deliverRaw_no_overlay by reflexivity.
  match goal with
  | |- context [plainDownload ?m ?c] =>
      pose proof (statusOf_plainDownload m c Hw) as Hd;
      pose proof (fun r => plainDownload_accepted m c r Hcu Hct) as Ha
  end.
  cbv beta in Hd.
  change (Meta.contentType
            (Meta.setDownloadCount 1 (uploadedMeta fresh (readJson b) None now)))
    with (orStr contentType (js "text/plain")) in Hd.
  destruct (startsWith (js "text/") (orStr contentType (js "text/plain"))).
  - destruct (delivered _ _ Hd) as (r & Hr & Hs & Hp).
    exists r. rewrite Hr in Ha. auto.
  - destruct (atob content) as [bin|e]; [|exact Hd].
    destruct (delivered _ _ Hd) as (r & Hr & Hs & Hp).
    exists r. rewrite Hr in Ha. auto.
Qed.
(** X24.  Round trip of a multipart upload of a file that is not empty, within
    the size ceiling and of an allowed type: the stored content is the
    base64 of the bytes, and a read on [/raw] gives the bytes back, except
    that a file whose type begins with [text/] is served as its base64
    text. *)
Theorem multipart_upload_then_raw (fresh : list Z) (now now' : Z) (env : KV)
    (file : File) (type : option (list Z)) (burn : option (list Z)) :
  file_bytes file <> [] ->
  Forall (fun b => 0 <= b < 256) (file_bytes file) ->
  Z.of_nat (length (file_bytes file)) <= 25 * 1024 * 1024 ->
  isAllowedFile (file_name file) (file_type file) = true ->
  wellFormed (file_name file) = true ->
  let fd := mkFormData (Some file) type burn None None None None in
  let up := handleUpload fresh now (Multipart fd) env in
  let resp := (handleRaw host fresh now' up.2).1 in
  (exists url, up.1 = Ok (json [(js "id", fresh); (js "url", url)] 200))
  /\ getContent up.2 fresh = Some (btoa (file_bytes file))
  /\ statusOf resp
     = Some (200, if startsWith (js "text/") (file_type file)
                  then BText (btoa (file_bytes file))
                  else BBytes (file_bytes file)).
Proof.
  intros Hne Hbytes Hsize Hallowed Hw fd up resp. subst resp up.
  assert (Hf : uploadFields (Multipart fd)
               = inr (mkUploadFields (btoa (file_bytes file)) (file_name file)
                        (orStr (Some (file_type file)) (js "application/octet-stream"))
                        (orStr type (js "file")) None
                        (bool_decide (burn = Some (js "true"))) NaN NaN None)).
  { unfold uploadFields, readForm. subst fd. cbn [fd_file].
    replace (25 * 1024 * 1024 <? Z.of_nat (length (file_bytes file))) with false
      by (symmetry; apply Z.ltb_ge; exact Hsize).
    rewrite Hallowed. reflexivity. }
  rewrite (handleUpload_stores fresh now (Multipart fd) env _ None Hf);
    try reflexivity.
  cbn [fst snd u_customSlug u_content].
  change (orStr None fresh) with fresh.
  split; [eexists; reflexivity|]. split.
  { rewrite getContent_putMeta, getContent_putContent. now destruct (decide _). }
  match goal with
  | |- context [putMeta fresh ?m _] =>
      pose proof (read_after_upload (GetRaw fresh now') env m
                    (btoa (file_bytes file))) as H
  end.
  cbn [serve requestId requestTime deliver] in H.
  rewrite H; try reflexivity.
  2:{ destruct (file_bytes file) as [|a [|b [|c r]]]; [congruence|..]; discriminate. }
  rewrite deliverRaw_no_overlay by reflexivity.
  match goal with
  | |- context [plainDownload ?m ?c] =>
      pose proof (statusOf_plainDownload m c Hw) as Hd
  end.
  cbn [Meta.contentType Meta.setDownloadCount uploadedMeta u_mime] in Hd.
  rewrite (atob_btoa _ Hbytes) in Hd.
  assert (Hmime : startsWith (js "text/")
                    (orStr (Some (file_type file)) (js "application/octet-stream"))
                  = startsWith (js "text/") (file_type file)).
  { unfold orStr. destruct (file_type file) as [|c t]; reflexivity. }
  rewrite Hmime in Hd.
  destruct (startsWith (js "text/") (file_type file)); exact Hd.
Qed.

End RoundTrip.

Section AfterUpload.
Variable host : list Z -> option Z.

(** X25.  An upload whose content is empty is accepted with 200 and stored,
    but no read ever delivers it: every read of it is answered
    [No content] (or [Download limit reached]) and leaves the namespace as
    it is, so the record is neither counted nor burnt. *)
Theorem empty_upload_is_never_served (fresh : list Z) (now : Z)
    (req : UploadRequest) (env : KV) (u : UploadFields) (r : ReadRequest) :
  uploadFields req = inr u ->
  u_content u = [] ->
  u_customSlug u = None ->
  u_expiresIn u = NaN ->
  requestId r = fresh ->
  let up := handleUpload fresh now req env in
  statusOf up.1
  = Some (200, BJson [(js "id", fresh); (js "url", uploadedUrl fresh u)])
  /\ (serve host r up.2 = (limitResponse, up.2)
      \/ serve host r up.2 = (Ok (plain (js "No content") 404), up.2)).
Proof.
  intros Hu Hc Hs He Hr up. subst up.
  rewrite (handleUpload_stores fresh now req env u None Hu);
    [|rewrite Hs; reflexivity | rewrite He; reflexivity].
  rewrite Hs. change (orStr None fresh) with fresh. cbn [fst snd].
  split; [reflexivity|].
  rewrite serve_unfold, Hr, getMeta_putMeta.
  destruct (decide (fresh = fresh)); [|congruence].
  change (isExpired (uploadedMeta fresh u None now) (requestTime r)) with false.
  cbn iota. destruct (limitReached _); [left; reflexivity|].
  right. rewrite getContent_putMeta, getContent_putContent.
  destruct (decide (fresh = fresh)); [|congruence]. now rewrite Hc.
Qed.

(** X26.  An upload with [expiresIn] of [hours] (not 0) at the time [now]
    stores the expiry [now + hours * 3600 * 1000]; a read after that
    instant is answered 410 with the route's expired message and deletes
    the record, and a read at or before it is not answered as expired. *)
Theorem upload_expiry_window (fresh : list Z) (now hours : Z) (env : KV)
    (b : JsonBody) (r : ReadRequest) :
  b_expiresIn b = Some hours ->
  hours <> 0 ->
  -8640000000000000 <= now + hours * 3600 * 1000 <= 8640000000000000 ->
  b_customSlug b = None ->
  requestId r = fresh ->
  let up := handleUpload fresh now (Json b) env in
  (exists meta, getMeta up.2 fresh = Some meta
                /\ Meta.expiresAt meta = Some (now + hours * 3600 * 1000))
  /\ (now + hours * 3600 * 1000 < requestTime r ->
      serve host r up.2
      = (Ok (plain (expiredMessage r) 410), deleteRecord fresh up.2))
  /\ (requestTime r <= now + hours * 3600 * 1000 ->
      (serve host r up.2).1 <> Ok (plain (expiredMessage r) 410)).
Proof.
  intros Hh Hne Hrange Hs Hr up. subst up.
  assert (He : computeExpiresAt (u_expiresIn (readJson b)) now
               = Ok (Some (now + hours * 3600 * 1000))).
  { unfold readJson, computeExpiresAt, numOrNull. cbn [u_expiresIn].
    rewrite Hh. destruct (Z.eqb_spec hours 0); [congruence|].
    destruct (Z.eqb_spec hours 0); [congruence|].
    replace ((-8640000000000000 <=? now + hours * 3600 * 1000)
             && (now + hours * 3600 * 1000 <=? 8640000000000000)) with true
      by lia.
    reflexivity. }
  assert (Hslug : u_customSlug (readJson b) = None).
  { unfold readJson. cbn [u_customSlug]. now rewrite Hs. }
  rewrite (handleUpload_stores fresh now (Json b) env (readJson b)
             (Some (now + hours * 3600 * 1000)) eq_refl);
    [|rewrite Hslug; reflexivity | exact He].
  rewrite Hslug. change (orStr None fresh) with fresh. cbn [fst snd].
  split; [|split].
  - eexists. split.
    + rewrite getMeta_putMeta.
      destruct (decide (fresh = fresh)); [reflexivity | congruence].
    + reflexivity.
  - intros Hlate. rewrite serve_unfold, Hr, getMeta_putMeta.
    destruct (decide (fresh = fresh)); [|congruence].
    unfold isExpired. cbn [Meta.expiresAt uploadedMeta].
    now replace (now + hours * 3600 * 1000 <? requestTime r) with true by lia.
  - intros Hearly. rewrite serve_unfold, Hr, getMeta_putMeta.
    destruct (decide (fresh = fresh)); [|congruence].
    unfold isExpired. cbn [Meta.expiresAt uploadedMeta].
    replace (now + hours * 3600 * 1000 <? requestTime r) with false by lia.
    assert (Hmsg : forall msg st,
               (msg, st) <> (expiredMessage r, 410) ->
               Ok (plain msg st) <> Ok (plain (expiredMessage r) 410)).
    { intros msg st Hd H. apply Hd. now injection H as -> ->. }
    destruct (limitReached _).
    { apply Hmsg. destruct r; intros H; vm_compute in H; discriminate H. }
    destruct (getContent _ fresh) as [[|c content]|];
      try (apply Hmsg; destruct r; intros H; vm_compute in H; discriminate H).
    cbn [fst]. intros H.
    destruct (deliver_status host r
                (countDownload (uploadedMeta fresh (readJson b)
                                  (Some (now + hours * 3600 * 1000)) now))
                (c :: content)) as [[x Hx]|[[x Hx]|Hx]];
      rewrite H in Hx; discriminate.
Qed.

(** X27.  A custom slug never replaces a record: an upload under a slug that
    is taken is answered 400 and changes nothing.  A drawn identifier is
    not checked: without a slug the upload succeeds and replaces whatever
    was stored under the identifier drawn. *)
Theorem slug_is_checked_drawn_id_is_not (fresh : list Z) (now : Z)
    (b : JsonBody) (env : KV) (old : Meta.t) :
  b_expiresIn b = None ->
  let up := handleUpload fresh now (Json b) env in
  match b_customSlug b with
  | Some (c :: slug) =>
      getMeta env (c :: slug) = Some old ->
      up = (Ok (json [(js "error", js "Custom slug already exists")] 400), env)
  | _ =>
      getMeta env fresh = Some old ->
      statusOf up.1
      = Some (200, BJson [(js "id", fresh);
                          (js "url", uploadedUrl fresh (readJson b))])
      /\ getMeta up.2 fresh = Some (uploadedMeta fresh (readJson b) None now)
      /\ getContent up.2 fresh = Some (orStr (b_content b) [])
  end.
Proof.
  intros He up. subst up.
  assert (Hexp : computeExpiresAt (u_expiresIn (readJson b)) now = Ok None).
  { unfold readJson. cbn [u_expiresIn]. now rewrite He. }
  assert (Hnone : u_customSlug (readJson b) = None ->
            getMeta env fresh = Some old ->
            statusOf (handleUpload fresh now (Json b) env).1
            = Some (200, BJson [(js "id", fresh);
                                (js "url", uploadedUrl fresh (readJson b))])
            /\ getMeta (handleUpload fresh now (Json b) env).2 fresh
               = Some (uploadedMeta fresh (readJson b) None now)
            /\ getContent (handleUpload fresh now (Json b) env).2 fresh
               = Some (orStr (b_content b) [])).
  { intros Hslug _.
    rewrite (handleUpload_stores fresh now (Json b) env (readJson b) None eq_refl);
      [|rewrite Hslug; reflexivity | exact Hexp].
    rewrite Hslug. change (orStr None fresh) with fresh. cbn [fst snd].
    split; [reflexivity|]. split.
    - rewrite getMeta_putMeta.
      destruct (decide (fresh = fresh)); [reflexivity | congruence].
    - rewrite getContent_putMeta, getContent_putContent.
      destruct (decide (fresh = fresh)); [reflexivity | congruence]. }
  destruct (b_customSlug b) as [[|c slug]|] eqn:Hs.
  - apply Hnone. unfold readJson. cbn [u_customSlug]. now rewrite Hs.
  - intros Hold. unfold handleUpload, readJson. cbn [u_customSlug].
    rewrite Hs. change (orStr (orNull (Some (c :: slug))) fresh) with (c :: slug).
    change (truthy (orNull (Some (c :: slug)))) with true.
    rewrite Hold. reflexivity.
  - apply Hnone. unfold readJson. cbn [u_customSlug]. now rewrite Hs.
Qed.

End AfterUpload.

(** ** The disposition headers *)

(** X28.  [encodeFilename] raises URIError exactly on a name with a lone
    surrogate; otherwise its value is [attachment; filename*=UTF-8''] and
    an encoding made only of letters, digits, [-_.!~] and percent escapes:
    no quote, parenthesis or star is left. *)
Theorem encodeFilename_header_safe (filename : list Z) :
  Forall isCodeUnit filename ->
  match encodeFilename filename with
  | Ok v =>
      wellFormed filename = true
      /\ exists enc, v = js "attachment; filename*=UTF-8''" ++ enc
                     /\ Forall (fun c => isAttrChar c = true) enc
  | Throw e => e = URIError /\ wellFormed filename = false
  end.
Proof.
  intros Hs. unfold encodeFilename.
  destruct (wellFormed filename) eqn:Hw.
  - destruct (encode_wellFormed filename Hw) as [enc He]. rewrite He.
    cbn [bind]. split; [reflexivity|]. eexists. split; [reflexivity|].
    apply escape_attr. eapply encode_chars_bounded; [reflexivity | exact Hs | exact He].
  - rewrite (encode_illFormed filename Hw). cbn [bind]. split; reflexivity.
Qed.

Section Disposition.
Variable host : list Z -> option Z.

Lemma raw_headers_named (ct enc : list Z) (parts : list (list Z)) :
  let hs := obj_spread
              (obj_spread
                 (obj_spread corsHeaders [(js "Content-Type", ct)])
                 (userinfoEntry parts
                  ++ [(lowerDisposition,
                       js "attachment; filename*=UTF-8''" ++ enc)]))
              [] in
  obj_get lowerDisposition hs = Some (js "attachment; filename*=UTF-8''" ++ enc)
  /\ obj_get upperDisposition hs = None.
Proof. destruct parts; split; reflexivity. Qed.

Lemma raw_headers_unnamed (ct v : list Z) (parts : list (list Z)) :
  let hs := obj_spread
              (obj_spread
                 (obj_spread corsHeaders [(js "Content-Type", ct)])
                 (userinfoEntry parts))
              [(upperDisposition, v)] in
  obj_get lowerDisposition hs = None /\ obj_get upperDisposition hs = Some v.
Proof. destruct parts; split; reflexivity. Qed.

(** X29.  A delivered [/raw] response names the download once: by the
    overlay's name, percent-encoded, under [content-disposition] when the
    overlay has a name that is not blank, and by the stored filename under
    [Content-Disposition] otherwise; never by both. *)
Theorem raw_disposition_names_the_download (meta : Meta.t) (content : list Z)
    (resp : Response) :
  deliverRaw host meta content = Ok resp ->
  match namedBy meta with
  | Some name =>
      exists enc,
        encodeURIComponent (trim name) = Ok enc
        /\ obj_get lowerDisposition (headers resp)
           = Some (js "attachment; filename*=UTF-8''" ++ enc)
        /\ obj_get upperDisposition (headers resp) = None
  | None =>
      exists v,
        encodeFilename (Meta.filename meta) = Ok v
        /\ obj_get lowerDisposition (headers resp) = None
        /\ obj_get upperDisposition (headers resp) = Some v
  end.
Proof.
  unfold deliverRaw, namedBy.
  destruct (Meta.subscriptionInfo meta) as [i|].
  - rewrite build_unfold.
    destruct (filled (SubInfo.name i)) eqn:Hf.
    + apply filled_spec in Hf as (name & Hn & _). rewrite Hn.
      change (default [] (Some name)) with name.
      destruct (encodeURIComponent (trim name)) as [enc|e]; [|discriminate].
      cbn [bind]. intros H. exists enc. split; [reflexivity|].
      assert (Hcd : forall parts,
                 fallbackDisposition
                   (userinfoEntry parts
                    ++ [(js "content-disposition",
                         js "attachment; filename*=UTF-8''" ++ enc)])
                   (Meta.filename meta) = Ok []).
      { intros parts. destruct parts; reflexivity. }
      rewrite Hcd in H. cbn [bind] in H.
      destruct (startsWith (js "text/") (Meta.contentType meta)).
      * injection H as <-. apply raw_headers_named.
      * destruct (atob content); [|discriminate]. cbn [bind] in H.
        injection H as <-. apply raw_headers_named.
    + cbn [bind].
      assert (Hcd : forall parts,
                 fallbackDisposition (userinfoEntry parts) (Meta.filename meta)
                 = try! v <- encodeFilename (Meta.filename meta);
                   Ok [(js "Content-Disposition", v)]).
      { intros parts. destruct parts; reflexivity. }
      rewrite Hcd.
      destruct (startsWith (js "text/") (Meta.contentType meta)).
      * destruct (encodeFilename (Meta.filename meta)) as [v|e]; [|discriminate].
        cbn [bind]. intros [= <-]. exists v. split; [reflexivity|].
        apply raw_headers_unnamed.
      * destruct (atob content); [|discriminate]. cbn [bind].
        destruct (encodeFilename (Meta.filename meta)) as [v|e]; [|discriminate].
        cbn [bind]. intros [= <-]. exists v. split; [reflexivity|].
        apply raw_headers_unnamed.
  - change (buildSubscriptionHeaders host None) with (Ok ([] : list (list Z * list Z))).
    cbn [bind].
    change (fallbackDisposition [] (Meta.filename meta))
      with (try! v <- encodeFilename (Meta.filename meta);
            Ok [(js "Content-Disposition", v)]).
    destruct (startsWith (js "text/") (Meta.contentType meta)).
    + destruct (encodeFilename (Meta.filename meta)) as [v|e]; [|discriminate].
      cbn [bind]. intros [= <-]. exists v. split; [reflexivity|].
      apply (raw_headers_unnamed _ v []).
    + destruct (atob content); [|discriminate]. cbn [bind].
      destruct (encodeFilename (Meta.filename meta)) as [v|e]; [|discriminate].
      cbn [bind]. intros [= <-]. exists v. split; [reflexivity|].
      apply (raw_headers_unnamed _ v []).
Qed.

Lemma merge_keeps (k : list Z) (hs rh : list (list Z * list Z))
    (upstream : option (list Z)) :
  k <> userinfoKey ->
  obj_get k (mergeUserInfo hs upstream rh) = obj_get k rh.
Proof.
  intros Hk. unfold mergeUserInfo. fold userinfoKey.
  destruct (truthy (obj_get userinfoKey hs)).
  - now apply obj_get_set_ne.
  - destruct (truthy upstream); [now apply obj_get_set_ne | reflexivity].
Qed.

(** X30.  On a successful proxy read the [content-disposition] is the one the
    builder made when there is one, else the upstream's when it is not
    empty, else absent; [profile-update-interval] is the upstream's when
    it is not empty; the content type is [text/plain; charset=utf-8]. *)
Theorem proxy_passes_upstream_headers (meta : Meta.t) (up : Upstream)
    (subContent : list Z) (hs : list (list Z * list Z)) :
  ok up = true -> text up = Ok subContent ->
  buildSubscriptionHeaders host (Meta.subscriptionInfo meta) = Ok hs ->
  exists resp,
    proxySubscription host meta (Ok up) = Ok resp
    /\ obj_get lowerDisposition (headers resp)
       = (if truthy (obj_get lowerDisposition hs)
          then obj_get lowerDisposition hs
          else if truthy (disposition up) then disposition up else None)
    /\ obj_get (js "profile-update-interval") (headers resp)
       = (if truthy (updateInterval up) then updateInterval up else None)
    /\ obj_get (js "Content-Type") (headers resp)
       = Some (js "text/plain; charset=utf-8").
Proof.
  intros Hok Htext Hb. unfold proxySubscription. cbn [bind].
  rewrite Hok. simpl negb. cbv iota. rewrite Htext. cbn [bind].
  rewrite Hb. cbn [bind]. eexists. split; [reflexivity|]. cbn [headers].
  fold lowerDisposition.
  set (base := obj_spread corsHeaders
                 [(js "Content-Type", js "text/plain; charset=utf-8")]).
  set (merged := mergeUserInfo hs (userinfo up) base).
  assert (Hm : forall k, k <> userinfoKey -> obj_get k merged = obj_get k base).
  { intros k Hk. now apply merge_keeps. }
  split; [|split].
  - destruct (truthy (obj_get lowerDisposition hs)) eqn:Hc.
    + rewrite obj_get_set_eq by discriminate.
      destruct (obj_get lowerDisposition hs); [reflexivity | discriminate].
    + destruct (truthy (disposition up)) eqn:Hd.
      * rewrite obj_get_set_eq by discriminate.
        destruct (disposition up); [reflexivity | discriminate].
      * rewrite later_steps_keep by discriminate.
        rewrite Hm by discriminate. reflexivity.
  - assert (Hi : obj_get (js "profile-update-interval")
                   (if truthy (updateInterval up)
                    then obj_set (js "profile-update-interval")
                           (default [] (updateInterval up)) merged
                    else merged)
                 = if truthy (updateInterval up) then updateInterval up
                   else None).
    { destruct (truthy (updateInterval up)) eqn:Hu.
      - rewrite obj_get_set_eq by discriminate.
        destruct (updateInterval up); [reflexivity | discriminate].
      - rewrite Hm by discriminate. reflexivity. }
    destruct (truthy (obj_get lowerDisposition hs));
      [rewrite obj_get_set_ne by discriminate; exact Hi|].
    destruct (truthy (disposition up));
      [rewrite obj_get_set_ne by discriminate; exact Hi | exact Hi].
  - assert (Hi : obj_get (js "Content-Type")
                   (if truthy (updateInterval up)
                    then obj_set (js "profile-update-interval")
                           (default [] (updateInterval up)) merged
                    else merged)
                 = Some (js "text/plain; charset=utf-8")).
    { rewrite later_steps_keep by discriminate.
      rewrite Hm by discriminate. reflexivity. }
    destruct (truthy (obj_get lowerDisposition hs));
      [rewrite obj_get_set_ne by discriminate; exact Hi|].
    destruct (truthy (disposition up));
      [rewrite obj_get_set_ne by discriminate; exact Hi | exact Hi].
Qed.

End Disposition.

(** ** Instances *)

Lemma admin_routes_require_token_witness :
  fetch noHost sampleVars sampleWorld
    (sampleRequest (js "DELETE") (js "/api/admin/delete/abc")
                   (Some (js "Bearer guess")) JsonRejected) keptStore
  = (Api unauthorized, keptStore).
Proof.
  apply admin_routes_require_token.
  - vm_compute. reflexivity.
  - intros password [= <-] H. vm_compute in H. discriminate H.
Defined.

Lemma unset_password_witness :
  handleAdminLogin (sampleRequest (js "POST") (js "/api/admin/login") None
                      (JsonValue emptyBody None None)) openVars
  = jsonApi ASuccess 200
  /\ verifyAdminAuth (sampleRequest (js "GET") (js "/api/admin/stats")
                        (Some (js "Bearer ")) JsonRejected) openVars = false.
Proof.
  destruct (unset_password_opens_login_only
              (sampleRequest (js "POST") (js "/api/admin/login") None
                 (JsonValue emptyBody None None)) openVars emptyBody None
              eq_refl eq_refl) as [H1 H2].
  split; [exact H1 | apply H2].
Defined.

Lemma record_survives_witness :
  getContent
    (fetch noHost sampleVars sampleWorld
       (sampleRequest (js "DELETE") (js "/raw/abc") None JsonRejected)
       keptStore).2 (js "abc") = Some (js "hello").
Proof.
  apply (record_survives_unauthorized noHost sampleVars sampleWorld
           (sampleRequest (js "DELETE") (js "/raw/abc") None JsonRejected)
           keptStore (js "abc") (sampleMeta false None None 0) (js "hello"));
    try (vm_compute; reflexivity).
  vm_compute. discriminate.
Defined.

Lemma downloads_never_exceed_limit_witness :
  getMeta (fetchAll noHost sampleVars
             [(sampleWorld, limitedUpload);
              (sampleWorld, sampleRequest (js "GET") (js "/raw/abc") None JsonRejected);
              (sampleWorld, sampleRequest (js "GET") (js "/raw/abc") None JsonRejected)]
             emptyKV) (js "abc") = Some limitedMeta
  /\ 0 <= Meta.downloadCount limitedMeta <= 1.
Proof.
  assert (Hm : getMeta (fetchAll noHost sampleVars
             [(sampleWorld, limitedUpload);
              (sampleWorld, sampleRequest (js "GET") (js "/raw/abc") None JsonRejected);
              (sampleWorld, sampleRequest (js "GET") (js "/raw/abc") None JsonRejected)]
             emptyKV) (js "abc") = Some limitedMeta)
    by (vm_compute; reflexivity).
  split; [exact Hm|].
  apply (downloads_never_exceed_limit noHost sampleVars _ _ _ 1 Hm);
    [reflexivity | lia].
Defined.

Lemma read_routes_ignore_method_witness :
  fetch noHost sampleVars sampleWorld
    (sampleRequest (js "DELETE") (js "/raw/abc") None JsonRejected) keptStore
  = (Served (serve noHost (GetRaw (js "abc") 1000) keptStore).1,
     (serve noHost (GetRaw (js "abc") 1000) keptStore).2).
Proof.
  apply (read_routes_ignore_method noHost sampleVars sampleWorld
           (sampleRequest (js "DELETE") (js "/raw/abc") None JsonRejected)
           keptStore (js "abc")).
  - intros H. vm_compute in H. discriminate H.
  - reflexivity.
Defined.

Lemma upload_url_routes_witness :
  exists meta content,
    getMeta (handleUpload (js "Ab3dE9xz") 1000 plainUpload emptyKV).2
            (js "Ab3dE9xz") = Some meta
    /\ getContent (handleUpload (js "Ab3dE9xz") 1000 plainUpload emptyKV).2
                  (js "Ab3dE9xz") = Some content
    /\ route sampleVars (js "GET") (pathname (js "/raw/Ab3dE9xz"))
       = if str_eqb (Meta.type meta) (js "subscription")
         then ToSub (js "Ab3dE9xz") else ToRaw (js "Ab3dE9xz").
Proof.
  apply (upload_url_routes_to_its_record sampleVars (js "Ab3dE9xz") 1000
           plainUpload emptyKV).
  - vm_compute. reflexivity.
  - reflexivity.
Defined.

Lemma json_upload_then_raw_witness :
  exists r,
    (handleRaw noHost (js "Ab3dE9xz") 2000
       (handleUpload (js "Ab3dE9xz") 1000 plainUpload emptyKV).2).1 = Ok r
    /\ status r = 200 /\ payload r = BText (js "hello")
    /\ headersAccepted (headers r) = true.
Proof.
  destruct (json_upload_then_raw noHost (js "Ab3dE9xz") 1000 2000 emptyKV
              (js "hello") None None None None) as [_ H];
    [discriminate | reflexivity | | reflexivity | exact H].
  apply codeUnits_check. reflexivity.
Defined.

Lemma multipart_upload_then_raw_witness :
  statusOf
    (handleRaw noHost (js "Ab3dE9xz") 2000
       (handleUpload (js "Ab3dE9xz") 1000
          (Multipart (mkFormData (Some sampleFile) None None None None None None))
          emptyKV).2).1
  = Some (200, BBytes [1; 2; 3; 255]).
Proof.
  destruct (multipart_upload_then_raw noHost (js "Ab3dE9xz") 1000 2000 emptyKV
              sampleFile None None) as (_ & _ & H).
  - discriminate.
  - repeat constructor; lia.
  - cbn. lia.
  - reflexivity.
  - reflexivity.
  - exact H.
Defined.

Lemma empty_upload_witness :
  serve noHost (GetRaw (js "Ab3dE9xz") 2000)
    (handleUpload (js "Ab3dE9xz") 1000 (Json emptyBody) emptyKV).2
  = (limitResponse, (handleUpload (js "Ab3dE9xz") 1000 (Json emptyBody) emptyKV).2)
  \/ serve noHost (GetRaw (js "Ab3dE9xz") 2000)
       (handleUpload (js "Ab3dE9xz") 1000 (Json emptyBody) emptyKV).2
     = (Ok (plain (js "No content") 404),
        (handleUpload (js "Ab3dE9xz") 1000 (Json emptyBody) emptyKV).2).
Proof.
  apply (empty_upload_is_never_served noHost (js "Ab3dE9xz") 1000
           (Json emptyBody) emptyKV (readJson emptyBody)
           (GetRaw (js "Ab3dE9xz") 2000)); reflexivity.
Defined.

Lemma upload_expiry_window_witness :
  serve noHost (GetRaw (js "Ab3dE9xz") 3601001)
    (handleUpload (js "Ab3dE9xz") 1000 (Json hourUpload) emptyKV).2
  = (Ok (plain (js "File expired") 410),
     deleteRecord (js "Ab3dE9xz")
       (handleUpload (js "Ab3dE9xz") 1000 (Json hourUpload) emptyKV).2).
Proof.
  destruct (upload_expiry_window noHost (js "Ab3dE9xz") 1000 1 emptyKV hourUpload
              (GetRaw (js "Ab3dE9xz") 3601001)) as (_ & H & _);
    [reflexivity | lia | lia | reflexivity | reflexivity |].
  apply H. cbn. lia.
Defined.

Lemma custom_slug_witness :
  handleUpload (js "Ab3dE9xz") 1000 (Json slugUpload) keptStore
  = (Ok (json [(js "error", js "Custom slug already exists")] 400), keptStore).
Proof.
  assert (H : getMeta keptStore (js "abc") = Some (sampleMeta false None None 0))
    by (vm_compute; reflexivity).
  exact (slug_is_checked_drawn_id_is_not (js "Ab3dE9xz") 1000 slugUpload
           keptStore (sampleMeta false None None 0) eq_refl H).
Defined.

Lemma negative_limit_witness :
  serve noHost (GetRaw (js "abc") 2000)
    (serveAll noHost [GetRaw (js "abc") 1; GetRaw (js "xyz") 2] lockedStore)
  = (limitResponse,
     serveAll noHost [GetRaw (js "abc") 1; GetRaw (js "xyz") 2] lockedStore).
Proof.
  apply (negative_limit_locks_record noHost
           [GetRaw (js "abc") 1; GetRaw (js "xyz") 2] (GetRaw (js "abc") 2000)
           lockedStore (sampleMeta false None (Some (-1)) 0) (-1));
    first [reflexivity | lia].
Defined.

Lemma admin_delete_witness :
  (serve noHost (GetRaw (js "abc") 2000)
     (serveAll noHost [GetSub (js "abc") 1500 (Throw (FetchError []))]
        (handleAdminDelete (js "abc")
           (adminRequest (js "DELETE") (js "/api/admin/delete/abc") JsonRejected)
           sampleVars keptStore).2)).1
  = notFound.
Proof.
  apply (admin_delete_removes_record noHost sampleVars
           (adminRequest (js "DELETE") (js "/api/admin/delete/abc") JsonRejected)
           keptStore (js "abc")
           [GetSub (js "abc") 1500 (Throw (FetchError []))]
           (GetRaw (js "abc") 2000)); [vm_compute|]; reflexivity.
Defined.

Lemma batch_delete_witness :
  (handleAdminBatchDelete
     (adminRequest (js "POST") (js "/api/admin/batch-delete")
        (JsonValue emptyBody None (Some [js "abc"; js "zzz"; js "abc"])))
     sampleVars keptStore).1
  = jsonApi (ADeleted 3 0) 200.
Proof.
  apply (batch_delete_counts_ids sampleVars
           (adminRequest (js "POST") (js "/api/admin/batch-delete")
              (JsonValue emptyBody None (Some [js "abc"; js "zzz"; js "abc"])))
           keptStore emptyBody None [js "abc"; js "zzz"; js "abc"]);
    [vm_compute|]; reflexivity.
Defined.

Lemma sampleStore_keyed (m : Meta.t) :
  Meta.id m = js "abc" -> keyedById (sampleStore m).
Proof.
  intros Hid id meta H. unfold getMeta, sampleStore in H. cbn [metas] in H.
  apply lookup_singleton_Some in H as [<- <-]. exact Hid.
Qed.

Lemma cleanup_removes_witness :
  handleAdminCleanup
    (adminRequest (js "POST") (js "/api/admin/cleanup") JsonRejected)
    sampleVars 1000 staleStore
  = (jsonApi (ACleanup (cleanupExpiredFiles 1000 staleStore).2 0) 200,
     (cleanupExpiredFiles 1000 staleStore).1)
  /\ (cleanupExpiredFiles 1000 staleStore).2 = 1.
Proof.
  destruct (cleanup_removes_listed_expired
              (adminRequest (js "POST") (js "/api/admin/cleanup") JsonRejected)
              sampleVars 1000 staleStore) as (H1 & H2 & _).
  - apply sampleStore_keyed. reflexivity.
  - vm_compute. reflexivity.
  - split; [exact H1|]. rewrite H2. vm_compute. reflexivity.
Defined.

Lemma cleanup_leaves_nothing_witness :
  (cleanupExpiredFiles 1000 (cleanupExpiredFiles 1000 staleStore).1).2 = 0.
Proof.
  apply (cleanup_leaves_nothing_expired 1000 staleStore).
  - apply sampleStore_keyed. reflexivity.
  - unfold staleStore, sampleStore. cbn [metas]. rewrite map_size_singleton. lia.
Defined.

Lemma admin_records_witness :
  exists records,
    handleAdminRecords
      (adminRequest (js "GET") (js "/api/admin/records") JsonRejected)
      sampleVars keptStore = jsonApi (ARecords records) 200
    /\ (length records <= 100)%nat.
Proof.
  destruct (admin_records_newest_first
              (adminRequest (js "GET") (js "/api/admin/records") JsonRejected)
              sampleVars keptStore) as (records & H1 & H2 & _).
  - vm_compute. reflexivity.
  - exists records. split; assumption.
Defined.

Lemma admin_download_witness :
  handleAdminDownload (js "abc")
    (adminRequest (js "GET") (js "/api/admin/download/abc") JsonRejected)
    sampleVars staleStore
  = Served (deliverRaw noHost (sampleMeta false (Some 500) None 0) (js "hello")).
Proof.
  apply (admin_download_matches_raw noHost sampleVars
           (adminRequest (js "GET") (js "/api/admin/download/abc") JsonRejected)
           staleStore (js "abc") (sampleMeta false (Some 500) None 0) (js "hello"));
    try (vm_compute; reflexivity).
  discriminate.
Defined.

Lemma encodeFilename_witness :
  match encodeFilename (js "a (1)*.txt") with
  | Ok v =>
      wellFormed (js "a (1)*.txt") = true
      /\ exists enc, v = js "attachment; filename*=UTF-8''" ++ enc
                     /\ Forall (fun c => isAttrChar c = true) enc
  | Throw e => e = URIError /\ wellFormed (js "a (1)*.txt") = false
  end.
Proof.
  apply (encodeFilename_header_safe (js "a (1)*.txt")).
  repeat constructor; unfold isCodeUnit; lia.
Defined.

Lemma raw_disposition_witness :
  match deliverRaw noHost namedMeta (js "hello") with
  | Ok resp =>
      obj_get lowerDisposition (headers resp)
      = Some (js "attachment; filename*=UTF-8''My%20Sub")
      /\ obj_get upperDisposition (headers resp) = None
  | Throw _ => False
  end.
Proof.
  destruct (deliverRaw noHost namedMeta (js "hello")) as [resp|e] eqn:H.
  - destruct (raw_disposition_names_the_download noHost namedMeta (js "hello")
                resp H) as (enc & He & H1 & H2).
    vm_compute in He. injection He as <-. split; assumption.
  - vm_compute in H. discriminate H.
Defined.

Lemma proxy_headers_witness :
  exists resp,
    proxySubscription noHost (sampleSub (SubInfo.mk (Some (js "1")) None None None None))
      (Ok namedUpstream) = Ok resp
    /\ obj_get lowerDisposition (headers resp)
       = Some (js "attachment; filename=up.yaml")
    /\ obj_get (js "profile-update-interval") (headers resp) = Some (js "24").
Proof.
  destruct (proxy_passes_upstream_headers noHost
              (sampleSub (SubInfo.mk (Some (js "1")) None None None None))
              namedUpstream (js "feed")
              [(js "subscription-userinfo", js "upload=1")])
    as (resp & H1 & H2 & H3 & _); try (vm_compute; reflexivity).
  exists resp. split; [exact H1|]. split; [exact H2 | exact H3].
Defined.

Lemma admin_stats_witness :
  handleAdminStats
    (adminRequest (js "GET") (js "/api/admin/stats") JsonRejected)
    sampleVars 1000 staleStore
  = jsonApi (AStats 1 0 1 0 5 1) 200.
Proof.
  destruct (admin_stats_count_the_listing
              (adminRequest (js "GET") (js "/api/admin/stats") JsonRejected)
              sampleVars 1000 staleStore) as (H & _).
  - vm_compute. reflexivity.
  - rewrite H. vm_compute. reflexivity.
Defined.
